(** * ByConity: distributed-stage scheduler and worker RPC client

    A shallow embedding of
      - [src/Interpreters/DistributedStages/Scheduler.h]
      - [src/CloudServices/CnchWorkerClient.cpp]
    together with the properties stated about them.

    Conventions.
      - [size_t] is an unsigned 64-bit integer, carried as a [Z] with the
        wrap-around written out ([to_size_t]); [time_t] and [long] are signed
        64-bit integers ([to_long]); [int] is a signed 32-bit integer
        ([to_int]).
      - [std::unordered_map<size_t, V>] is a [gmap Z V].
      - Code that throws returns in an error monad; the members of the worker
        client pass along an explicit log of the RPCs they have issued. *)

From Stdlib Require Import ZArith List Lia Bool String.
From stdpp Require Import base option list functions gmap strings pretty.

Local Open Scope Z_scope.

(** ** Machine integers *)

Definition to_size_t (x : Z) : Z := x mod 2 ^ 64.

Definition to_long (x : Z) : Z := (x + 2 ^ 63) mod 2 ^ 64 - 2 ^ 63.

Definition to_int (x : Z) : Z := (x + 2 ^ 31) mod 2 ^ 32 - 2 ^ 31.

(** ** Scheduler.h *)

Module SchedulerH.

(** [enum class TaskStatus : uint8_t] *)
Inductive TaskStatus : Type :=
  | Unknown
  | Success
  | Fail
  | Wait.

Definition TaskStatus_value (s : TaskStatus) : Z :=
  match s with
  | Unknown => 1
  | Success => 2
  | Fail => 3
  | Wait => 4
  end.

(** [struct SegmentTaskInstance] *)
Record SegmentTaskInstance : Type := mkSegmentTaskInstance
  { segment_id : Z;
    parallel_index : Z }.

(** [SegmentTaskInstance::operator==] *)
Definition operator_eq (this rhs : SegmentTaskInstance) : bool :=
  (segment_id this =? segment_id rhs) && (parallel_index this =? parallel_index rhs).

(** [SegmentTaskInstance::Hash::operator()]: both the shift and the addition
    are [size_t] operations. *)
Definition Hash (key : SegmentTaskInstance) : Z :=
  to_size_t (to_size_t (Z.shiftl (segment_id key) 13) + parallel_index key).

(** [timespec] of <time.h> *)
Record timespec : Type := mkTimespec
  { tv_sec : Z;
    tv_nsec : Z }.

(** [NodeType], of which the header uses [NodeType::Local]. *)
Inductive NodeType : Type :=
  | Local
  | Remote.

(** The part of [SegmentTask] that [selectNodes] reads. *)
Record SegmentTask : Type := mkSegmentTask
  { task_segment_id : Z;
    has_table_scan_or_value : bool }.

(** [WorkerNode(address, type, id)] as [emplace_back] builds it. *)
Record WorkerNode (AddressInfo : Type) : Type := mkWorkerNode
  { node_address : AddressInfo;
    node_type : NodeType;
    node_id : string }.

Arguments mkWorkerNode {AddressInfo}.
Arguments node_address {AddressInfo}.
Arguments node_type {AddressInfo}.
Arguments node_id {AddressInfo}.

(** [ClusterNodes]: the member the header touches is [all_workers]; the
    remaining members are carried along untouched. *)
Record ClusterNodes (AddressInfo Rest : Type) : Type := mkClusterNodes
  { all_workers : list (WorkerNode AddressInfo);
    cluster_rest : Rest }.

Arguments mkClusterNodes {AddressInfo Rest}.
Arguments all_workers {AddressInfo Rest}.
Arguments cluster_rest {AddressInfo Rest}.

(** What [Scheduler.h] takes from the headers it includes: the types, the
    accessors of the query context, and the node selector.
    [NodeSelector::select] is a non-const member taking a non-const segment
    pointer: it returns a result and may change the selector. *)
Class Collaborators : Type :=
  { ContextPtr : Type;
    DAGGraph : Type;
    AddressInfo : Type;
    PlanSegment : Type;
    NodeSelector : Type;
    NodeSelectorResult : Type;
    SendPlanSegmentToAddressFunc : Type;
    ClusterNodesRest : Type;
    getLocalAddress : ContextPtr -> AddressInfo;
    getQueryExpirationTimeStamp : ContextPtr -> timespec;
    sendPlanSegmentToAddress : SendPlanSegmentToAddressFunc;
    NodeSelector_ctor :
      ClusterNodes AddressInfo ClusterNodesRest -> ContextPtr -> DAGGraph -> NodeSelector;
    select : PlanSegment -> bool -> NodeSelector -> NodeSelectorResult * NodeSelector }.

Section Scheduler.

Context `{Collaborators}.

(** The data members of [class Scheduler] (mutexes and the logger left out). *)
Record Scheduler : Type := mkScheduler
  { query_id : string;
    query_context : ContextPtr;
    dag_graph_ptr : DAGGraph;
    cluster_nodes : ClusterNodes AddressInfo ClusterNodesRest;
    node_selector : NodeSelector;
    local_address : AddressInfo;
    time_to_handle_finish_task : bool;
    stopped : bool;
    batch_schedule : bool;
    send_plan_segment_func : SendPlanSegmentToAddressFunc;
    node_selector_result : gmap Z NodeSelectorResult;
    query_expiration_ms : Z }.

(** [Scheduler::Scheduler]. Members are initialised in declaration order, so
    [node_selector] is built from [cluster_nodes] before the constructor body
    appends the local node. *)
Definition Scheduler_ctor (query_id_ : string) (query_context_ : ContextPtr)
    (cluster_nodes_ : ClusterNodes AddressInfo ClusterNodesRest)
    (dag_graph_ptr_ : DAGGraph) (batch_schedule_ : bool) : Scheduler :=
  let node_selector_ := NodeSelector_ctor cluster_nodes_ query_context_ dag_graph_ptr_ in
  let local_address_ := getLocalAddress query_context_ in
  let query_expiration_ts := getQueryExpirationTimeStamp query_context_ in
  {| query_id := query_id_;
     query_context := query_context_;
     dag_graph_ptr := dag_graph_ptr_;
     cluster_nodes :=
       {| all_workers :=
            all_workers cluster_nodes_ ++ [mkWorkerNode local_address_ Local EmptyString];
          cluster_rest := cluster_rest cluster_nodes_ |};
     node_selector := node_selector_;
     local_address := local_address_;
     time_to_handle_finish_task := false;
     stopped := false;
     batch_schedule := batch_schedule_;
     send_plan_segment_func := sendPlanSegmentToAddress;
     node_selector_result := ∅;
     query_expiration_ms :=
       to_size_t (to_long (to_long (tv_sec query_expiration_ts * 1000)
                           + Z.quot (tv_nsec query_expiration_ts) 1000000)) |}.

(** [Scheduler::setSendPlanSegmentToAddress] *)
Definition setSendPlanSegmentToAddress (func : SendPlanSegmentToAddressFunc)
    (this : Scheduler) : Scheduler :=
  {| query_id := query_id this;
     query_context := query_context this;
     dag_graph_ptr := dag_graph_ptr this;
     cluster_nodes := cluster_nodes this;
     node_selector := node_selector this;
     local_address := local_address this;
     time_to_handle_finish_task := time_to_handle_finish_task this;
     stopped := stopped this;
     batch_schedule := batch_schedule this;
     send_plan_segment_func := func;
     node_selector_result := node_selector_result this;
     query_expiration_ms := query_expiration_ms this |}.

(** The virtual members with an empty body in the header. *)
Definition onQueryFinished (this : Scheduler) : Scheduler := this.

Definition sendResources (plan_segment_ptr : PlanSegment) (this : Scheduler) : Scheduler :=
  this.

Definition prepareTask (plan_segment_ptr : PlanSegment) (selector_info : NodeSelectorResult)
    (task : SegmentTask) (this : Scheduler) : Scheduler :=
  this.

(** [std::unordered_map::emplace]: inserts only when the key is absent and
    returns the element that is in the map afterwards. *)
Definition emplace {V : Type} (k : Z) (v : V) (m : gmap Z V) : V * gmap Z V :=
  match m !! k with
  | Some old => (old, m)
  | None => (v, <[k := v]> m)
  end.

(** The scheduler after [selectNodes]: the selector and the cache are the
    two members it can change. *)
Definition with_selection (this : Scheduler) (ns : NodeSelector)
    (cache : gmap Z NodeSelectorResult) : Scheduler :=
  {| query_id := query_id this;
     query_context := query_context this;
     dag_graph_ptr := dag_graph_ptr this;
     cluster_nodes := cluster_nodes this;
     node_selector := ns;
     local_address := local_address this;
     time_to_handle_finish_task := time_to_handle_finish_task this;
     stopped := stopped this;
     batch_schedule := batch_schedule this;
     send_plan_segment_func := send_plan_segment_func this;
     node_selector_result := cache;
     query_expiration_ms := query_expiration_ms this |}.

(** [Scheduler::selectNodes]. The argument [node_selector.select(...)] of
    [emplace] is evaluated before [emplace] looks the key up. *)
Definition selectNodes (plan_segment_ptr : PlanSegment) (task : SegmentTask)
    (this : Scheduler) : NodeSelectorResult * Scheduler :=
  let '(selected, ns) :=
    select plan_segment_ptr (has_table_scan_or_value task) (node_selector this) in
  let '(selector_result, cache) :=
    emplace (task_segment_id task) selected (node_selector_result this) in
  (selector_result, with_selection this ns cache).

(** The operations the header defines on a constructed scheduler. *)
Inductive SchedulerOp : Type :=
  | OpSetSendPlanSegmentToAddress (func : SendPlanSegmentToAddressFunc)
  | OpOnQueryFinished
  | OpSendResources (plan_segment_ptr : PlanSegment)
  | OpPrepareTask (plan_segment_ptr : PlanSegment) (selector_info : NodeSelectorResult)
      (task : SegmentTask)
  | OpSelectNodes (plan_segment_ptr : PlanSegment) (task : SegmentTask).

Definition run_op (op : SchedulerOp) (this : Scheduler) : Scheduler :=
  match op with
  | OpSetSendPlanSegmentToAddress func => setSendPlanSegmentToAddress func this
  | OpOnQueryFinished => onQueryFinished this
  | OpSendResources p => sendResources p this
  | OpPrepareTask p r t => prepareTask p r t this
  | OpSelectNodes p t => snd (selectNodes p t this)
  end.

Definition run_ops (ops : list SchedulerOp) (this : Scheduler) : Scheduler :=
  fold_left (fun s op => run_op op s) ops this.

End Scheduler.

(** A selector that counts how often [select] has been called on it and
    always answers with the list of the segment it was asked about. *)
Definition counting_select (plan_segment_ptr : Z) (has_table_scan_or_value : bool)
    (calls : nat) : list Z * nat :=
  ([plan_segment_ptr], S calls).

Definition counting_collaborators : Collaborators :=
  {| ContextPtr := timespec;
     DAGGraph := unit;
     AddressInfo := string;
     PlanSegment := Z;
     NodeSelector := nat;
     NodeSelectorResult := list Z;
     SendPlanSegmentToAddressFunc := unit;
     ClusterNodesRest := unit;
     getLocalAddress := fun _ => "127.0.0.1:9000"%string;
     getQueryExpirationTimeStamp := fun ts => ts;
     sendPlanSegmentToAddress := tt;
     NodeSelector_ctor := fun _ _ _ => O;
     select := counting_select |}.

(** A freshly constructed scheduler over the counting selector, and a task of
    segment 7. *)
Definition sample_scheduler : @Scheduler counting_collaborators :=
  @Scheduler_ctor counting_collaborators "query-1" (mkTimespec 1700000000 123456789)
    (mkClusterNodes [mkWorkerNode "10.0.0.1:9000"%string Remote "worker-0"%string] tt) tt false.

Definition sample_task : SegmentTask :=
  {| task_segment_id := 7; has_table_scan_or_value := true |}.

End SchedulerH.

(** ** CnchWorkerClient.cpp *)

Module CnchWorkerClient.

(** [ErrorCodes]; the client itself throws only [LOGICAL_ERROR]. *)
Inductive ErrorCode : Type :=
  | LOGICAL_ERROR
  | OTHER_ERROR (code : Z).

(** [DB::Exception(message, code)] *)
Record Exception : Type := mkException
  { message : string;
    code : ErrorCode }.

(** [Poco::Timespan] through the two accessors the client calls. *)
Record Timespan : Type := mkTimespan
  { totalSeconds : Z;
    totalMilliseconds : Z }.

(** The settings the modelled members read. *)
Record Settings : Type := mkSettings
  { max_execution_time : Timespan;
    send_plan_segment_timeout_ms : Timespan;
    broadcast_manifest_timeout : Timespan }.

(** [ManipulationType], of which the client names two enumerators. *)
Inductive ManipulationType : Type :=
  | Mutate
  | Clustering
  | OtherManipulation (tag : Z).

(** [cppkafka::TopicPartition] through its getters. *)
Record TopicPartition : Type := mkTopicPartition
  { get_topic : string;
    get_partition : Z;
    get_offset : Z }.

(** [struct DedupWorkerStatus] *)
Record DedupWorkerStatus : Type := mkDedupWorkerStatus
  { is_active : bool;
    create_time : Z;
    total_schedule_cnt : Z;
    total_dedup_cnt : Z;
    last_schedule_wait_ms : Z;
    last_task_total_cost_ms : Z;
    last_task_dedup_cost_ms : Z;
    last_task_publish_cost_ms : Z;
    last_task_staged_part_cnt : Z;
    last_task_visible_part_cnt : Z;
    last_task_staged_part_total_rows : Z;
    last_task_visible_part_total_rows : Z;
    dedup_tasks_progress : list string;
    last_exception : string;
    last_exception_time : Z }.

(** [status.is_active = b] *)
Definition set_is_active (b : bool) (status : DedupWorkerStatus) : DedupWorkerStatus :=
  {| is_active := b;
     create_time := create_time status;
     total_schedule_cnt := total_schedule_cnt status;
     total_dedup_cnt := total_dedup_cnt status;
     last_schedule_wait_ms := last_schedule_wait_ms status;
     last_task_total_cost_ms := last_task_total_cost_ms status;
     last_task_dedup_cost_ms := last_task_dedup_cost_ms status;
     last_task_publish_cost_ms := last_task_publish_cost_ms status;
     last_task_staged_part_cnt := last_task_staged_part_cnt status;
     last_task_visible_part_cnt := last_task_visible_part_cnt status;
     last_task_staged_part_total_rows := last_task_staged_part_total_rows status;
     last_task_visible_part_total_rows := last_task_visible_part_total_rows status;
     dedup_tasks_progress := dedup_tasks_progress status;
     last_exception := last_exception status;
     last_exception_time := last_exception_time status |}.

(** [struct ManipulationTaskParams], the members the client reads. *)
Module ManipulationTaskParams.
Record t (ServerDataParts MutationCommands StoragePtr : Type) : Type := mk
  { rpc_port : Z;
    type : ManipulationType;
    task_id : string;
    columns_commit_time : Z;
    is_bucket_table : bool;
    parts_preload_level : Z;
    create_table_query : string;
    source_parts : ServerDataParts;
    mutation_commit_time : Z;
    mutation_commands : MutationCommands;
    storage : StoragePtr;
    drop_partition_query : string;   (* [mv_refresh_param->drop_partition_query] *)
    insert_select_query : string }.  (* [mv_refresh_param->insert_select_query] *)
Arguments mk {_ _ _}.
Arguments rpc_port {_ _ _}.
Arguments type {_ _ _}.
Arguments task_id {_ _ _}.
Arguments columns_commit_time {_ _ _}.
Arguments is_bucket_table {_ _ _}.
Arguments parts_preload_level {_ _ _}.
Arguments create_table_query {_ _ _}.
Arguments source_parts {_ _ _}.
Arguments mutation_commit_time {_ _ _}.
Arguments mutation_commands {_ _ _}.
Arguments storage {_ _ _}.
Arguments drop_partition_query {_ _ _}.
Arguments insert_select_query {_ _ _}.
End ManipulationTaskParams.

(** [struct KafkaTaskCommand] *)
Module KafkaTaskCommand.
Record t (StorageID : Type) : Type := mk
  { type : Z;
    task_id : string;
    rpc_port : Z;
    cnch_storage_id : StorageID;
    local_database_name : string;
    local_table_name : string;
    assigned_consumer : Z;
    create_table_commands : list string;
    tpl : list TopicPartition;
    sample_partitions : list TopicPartition }.
Arguments mk {_}.
Arguments type {_}.
Arguments task_id {_}.
Arguments rpc_port {_}.
Arguments cnch_storage_id {_}.
Arguments local_database_name {_}.
Arguments local_table_name {_}.
Arguments assigned_consumer {_}.
Arguments create_table_commands {_}.
Arguments tpl {_}.
Arguments sample_partitions {_}.
End KafkaTaskCommand.

Section Messages.

(** Sub-messages filled by helpers of other files ([RPCHelpers::fillUUID],
    [fillPartsModelForSend], [CopyFrom] of a ready model, ...). *)
Variable Payload : Type.

(** A protobuf message is the map of the fields that were set. The nested
    messages the client fills field by field are flat. *)
Inductive Scalar : Type :=
  | SInt (z : Z)
  | SStr (s : string).

Inductive Value : Type :=
  | VInt (z : Z)
  | VBool (b : bool)
  | VStr (s : string)
  | VStrs (l : list string)
  | VPayload (p : Payload)
  | VPayloads (l : list Payload)
  | VMsg (fields : list (string * Scalar))
  | VMsgs (msgs : list (list (string * Scalar))).

(** Getters of an unset field return the protobuf default. *)
Definition get_bool (field : string) (m : gmap string Value) : bool :=
  match m !! field with Some (VBool b) => b | _ => false end.

Definition get_int (field : string) (m : gmap string Value) : Z :=
  match m !! field with Some (VInt z) => z | _ => 0 end.

Definition get_str (field : string) (m : gmap string Value) : string :=
  match m !! field with Some (VStr s) => s | _ => EmptyString end.

Definition get_strs (field : string) (m : gmap string Value) : list string :=
  match m !! field with Some (VStrs l) => l | _ => [] end.

(** [brpc::Controller] on the sending side. *)
Record Controller : Type := mkController
  { call_id : nat;
    timeout_ms : option Z }.

Definition set_timeout_ms (t : Z) (cntl : Controller) : Controller :=
  {| call_id := call_id cntl; timeout_ms := Some t |}.

(** One call through [stub]: the service method, the controller and request
    it was given, and whether a completion callback was passed (an
    asynchronous call) or [nullptr] (a synchronous one). *)
Record RpcCall : Type := mkRpcCall
  { rpc_method : string;
    rpc_cntl : Controller;
    rpc_request : gmap string Value;
    rpc_async : bool }.

(** What the client has done to the outside so far. *)
Record World : Type := mkWorld
  { rpc_log : list RpcCall;
    profile_timers : nat;
    controllers : nat }.

End Messages.

Arguments VInt {Payload}.
Arguments VBool {Payload}.
Arguments VStr {Payload}.
Arguments VStrs {Payload}.
Arguments VPayload {Payload}.
Arguments VPayloads {Payload}.
Arguments VMsg {Payload}.
Arguments VMsgs {Payload}.
Arguments get_bool {Payload}.
Arguments get_int {Payload}.
Arguments get_str {Payload}.
Arguments get_strs {Payload}.
Arguments mkRpcCall {Payload}.
Arguments rpc_method {Payload}.
Arguments rpc_cntl {Payload}.
Arguments rpc_request {Payload}.
Arguments rpc_async {Payload}.
Arguments mkWorld {Payload}.
Arguments rpc_log {Payload}.
Arguments profile_timers {Payload}.
Arguments controllers {Payload}.

(** What the client takes from the rest of the code base and from the worker
    at the other end of the channel. *)
Class Environment : Type :=
  { Payload : Type;
    ContextPtr : Type;
    MergeTreeMetaBase : Type;
    StorageID : Type;
    StoragePtr : Type;
    StorageMaterializedView : Type;
    ServerDataParts : Type;
    MutationCommands : Type;
    WorkerGroup : Type;
    ControllerResult : Type;
    (* query context *)
    getSettingsRef : ContextPtr -> Settings;
    getCurrentTransactionID : ContextPtr -> Z;
    getPrimaryTransactionID : ContextPtr -> Z;
    getCurrentWorkerGroup : ContextPtr -> WorkerGroup;
    (* worker group *)
    getWorkerIndex : WorkerGroup -> string -> Z;
    workerNum : WorkerGroup -> Z;
    getVWName : WorkerGroup -> string;
    (* storages and parts *)
    getStorageID : StoragePtr -> StorageID;
    getStorageUUID : StoragePtr -> Payload;
    fillStorageID : StorageID -> Payload;
    fillPartsModelForSend : MergeTreeMetaBase -> ServerDataParts -> Payload;
    hasDynamicSubcolumns : MergeTreeMetaBase -> bool;
    object_columns_toString : MergeTreeMetaBase -> string;
    writeText : MutationCommands -> string;
    ManipulationType_UInt32 : ManipulationType -> Z;
    toString : Z -> string;
    (* the answer of the channel and of the worker to a synchronous call,
       given the calls issued before it *)
    worker : list (RpcCall Payload) -> RpcCall Payload -> ControllerResult * gmap string (Value Payload);
    (* [assertController] and [RPCHelpers::checkResponse]: [Some e] when they throw *)
    assertController : ControllerResult -> option Exception;
    checkResponse : gmap string (Value Payload) -> option Exception;
    (* a default-constructed [DedupWorkerStatus] *)
    DedupWorkerStatus_default : DedupWorkerStatus }.

Section Client.

Context `{Environment}.

Local Abbreviation Message := (gmap string (Value Payload)).

(** Code that may throw and that acts on the outside. *)
Definition M (A : Type) : Type := World Payload -> (Exception + A) * World Payload.

#[export] Instance M_ret : MRet M := fun A a w => (inr a, w).

#[export] Instance M_bind : MBind M := fun A B f m w =>
  match m w with
  | (inl e, w') => (inl e, w')
  | (inr a, w') => f a w'
  end.

Definition throw {A : Type} (e : Exception) : M A := fun w => (inl e, w).

Definition throw_if (e : option Exception) : M unit :=
  match e with
  | Some e => throw e
  | None => mret tt
  end.

(** [ProfileEventsTimer(WorkerRpcRequest, WorkerRpcElaspsedMicroseconds)] *)
Definition ProfileEventsTimer : M unit := fun w =>
  (inr tt, {| rpc_log := rpc_log w;
              profile_timers := S (profile_timers w);
              controllers := controllers w |}).

(** A fresh [brpc::Controller]; its call id tells it from the others. *)
Definition new_Controller : M Controller := fun w =>
  (inr {| call_id := controllers w; timeout_ms := None |},
   {| rpc_log := rpc_log w;
      profile_timers := profile_timers w;
      controllers := S (controllers w) |}).

Definition record_call (c : RpcCall Payload) (w : World Payload) : World Payload :=
  {| rpc_log := rpc_log w ++ [c];
     profile_timers := profile_timers w;
     controllers := controllers w |}.

(** [stub->method(&cntl, &request, &response, nullptr)]: the call is made and
    the controller and the response come back filled. *)
Definition stub_call (method : string) (cntl : Controller) (request : Message)
    : M (ControllerResult * Message) := fun w =>
  let c := mkRpcCall method cntl request false in
  (inr (worker (rpc_log w) c), record_call c w).

(** [stub->method(cntl, &request, response, brpc::NewCallback(...))]: the call
    is handed to the channel and the member returns without its result. *)
Definition stub_call_async (method : string) (cntl : Controller) (request : Message)
    : M unit := fun w =>
  (inr tt, record_call (mkRpcCall method cntl request true) w).

(** The member throws a logical error on [w] and has issued no RPC by then. *)
Definition raises_logical_error_before_rpc {A : Type} (m : M A) (w : World Payload) : Prop :=
  exists e w', m w = (inl e, w') /\ code e = LOGICAL_ERROR /\ rpc_log w' = rpc_log w.

(** [request.set_field(v)] *)
Definition set_field (field : string) (v : Value Payload) (m : Message) : Message :=
  <[field := v]> m.

Local Abbreviation TaskParams :=
  (ManipulationTaskParams.t ServerDataParts MutationCommands StoragePtr).

(** [CnchWorkerClient::submitManipulationTask] *)
Definition submitManipulationTask (storage : MergeTreeMetaBase) (params : TaskParams)
    (txn_id : Z) : M unit :=
  ProfileEventsTimer;;
  if ManipulationTaskParams.rpc_port params =? 0 then
    throw (mkException "Rpc port is not set in ManipulationTaskParams" LOGICAL_ERROR)
  else
    cntl ← new_Controller;
    let request : Message := ∅ in
    let request := set_field "txn_id" (VInt txn_id) request in
    let request := set_field "timestamp" (VInt 0) request in
    let request :=
      set_field "type"
        (VInt (ManipulationType_UInt32 (ManipulationTaskParams.type params))) request in
    let request := set_field "task_id" (VStr (ManipulationTaskParams.task_id params)) request in
    let request := set_field "rpc_port" (VInt (ManipulationTaskParams.rpc_port params)) request in
    let request :=
      set_field "columns_commit_time"
        (VInt (ManipulationTaskParams.columns_commit_time params)) request in
    let request :=
      set_field "is_bucket_table"
        (VBool (ManipulationTaskParams.is_bucket_table params)) request in
    let request :=
      set_field "parts_preload_level"
        (VInt (ManipulationTaskParams.parts_preload_level params)) request in
    let request :=
      if String.eqb (ManipulationTaskParams.create_table_query params) EmptyString
      then request
      else set_field "create_table_query"
             (VStr (ManipulationTaskParams.create_table_query params)) request in
    let request :=
      set_field "source_parts"
        (VPayload (fillPartsModelForSend storage (ManipulationTaskParams.source_parts params)))
        request in
    let request :=
      match ManipulationTaskParams.type params with
      | Mutate | Clustering =>
          set_field "mutate_commands"
            (VStr (writeText (ManipulationTaskParams.mutation_commands params)))
            (set_field "mutation_commit_time"
               (VInt (ManipulationTaskParams.mutation_commit_time params)) request)
      | OtherManipulation _ => request
      end in
    let request :=
      if hasDynamicSubcolumns storage
      then set_field "dynamic_object_column_schema"
             (VStr (object_columns_toString storage)) request
      else request in
    reply ← stub_call "submitManipulationTask" cntl request;
    throw_if (assertController (fst reply));;
    throw_if (checkResponse (snd reply)).

(** [CnchWorkerClient::submitMvRefreshTask] *)
Definition submitMvRefreshTask (view : StorageMaterializedView) (params : TaskParams)
    (txn_id : Z) : M unit :=
  ProfileEventsTimer;;
  if ManipulationTaskParams.rpc_port params =? 0 then
    throw (mkException "Rpc port is not set in ManipulationTaskParams" LOGICAL_ERROR)
  else
    cntl ← new_Controller;
    let request : Message := ∅ in
    let storage_id := getStorageID (ManipulationTaskParams.storage params) in
    let request := set_field "txn_id" (VInt txn_id) request in
    let request := set_field "timestamp" (VInt 0) request in
    let request := set_field "task_id" (VStr (ManipulationTaskParams.task_id params)) request in
    let request := set_field "rpc_port" (VInt (ManipulationTaskParams.rpc_port params)) request in
    let request := set_field "mv_storage_id" (VPayload (fillStorageID storage_id)) request in
    let request :=
      set_field "create_table_query"
        (VStr (ManipulationTaskParams.create_table_query params)) request in
    let request :=
      set_field "drop_partition_query"
        (VStr (ManipulationTaskParams.drop_partition_query params)) request in
    let request :=
      set_field "insert_select_query"
        (VStr (ManipulationTaskParams.insert_select_query params)) request in
    reply ← stub_call "submitMVRefreshTask" cntl request;
    throw_if (assertController (fst reply));;
    throw_if (checkResponse (snd reply)).

(** [CnchWorkerClient::sendCreateQueries]. [cnch_table_create_queries] is a
    [std::set<String>], given here in its iteration order. *)
Definition sendCreateQueries (context : ContextPtr) (create_queries : list string)
    (cnch_table_create_queries : list string) : M unit :=
  ProfileEventsTimer;;
  cntl ← new_Controller;
  let request : Message := ∅ in
  let settings := getSettingsRef context in
  let timeout := totalSeconds (max_execution_time settings) in
  let request := set_field "txn_id" (VInt (getCurrentTransactionID context)) request in
  let request := set_field "primary_txn_id" (VInt (getPrimaryTransactionID context)) request in
  let request :=
    set_field "timeout" (VInt (if timeout =? 0 then 3600 else timeout)) request in
  let request := set_field "create_queries" (VStrs create_queries) request in
  let request :=
    set_field "cnch_table_create_queries" (VStrs cnch_table_create_queries) request in
  let cntl :=
    set_timeout_ms (totalMilliseconds (send_plan_segment_timeout_ms settings)) cntl in
  reply ← stub_call "sendCreateQuery" cntl request;
  throw_if (assertController (fst reply));;
  throw_if (checkResponse (snd reply)).

(** [CnchWorkerClient::broadcastManifest]. [worker_id] is [worker_id.id],
    [table_uuid] the filled [table->getStorageUUID()], [parts] the
    [parts_vector.parts()] and [delete_bitmaps] the models of the bitmaps.
    The fields of [worker_info] are compared as they were set. *)
Definition broadcastManifest (context : ContextPtr) (txn_id : Z) (worker_id : string)
    (table : StoragePtr) (parts : list Payload) (delete_bitmaps : list Payload)
    : M nat :=
  ProfileEventsTimer;;
  cntl ← new_Controller;
  let cntl :=
    set_timeout_ms
      (totalMilliseconds (broadcast_manifest_timeout (getSettingsRef context))) cntl in
  let call_id := call_id cntl in
  let request : Message := ∅ in
  let request := set_field "table_uuid" (VPayload (getStorageUUID table)) request in
  let request := set_field "txn_id" (VInt txn_id) request in
  let current_wg := getCurrentWorkerGroup context in
  let index := getWorkerIndex current_wg worker_id in
  let num_workers := workerNum current_wg in
  let request :=
    set_field "worker_info"
      (VMsg [("worker_id", SStr worker_id); ("index", SInt index);
             ("num_workers", SInt num_workers)]) request in
  if num_workers <=? index then
    throw (mkException
             ("Invailid worker index " +:+ toString index +:+ " for worker group "
              +:+ getVWName current_wg +:+ ", which contains "
              +:+ toString (workerNum current_wg) +:+ " workers.")
             LOGICAL_ERROR)
  else
    let request := set_field "parts" (VPayloads parts) request in
    let request := set_field "delete_bitmaps" (VPayloads delete_bitmaps) request in
    stub_call_async "broadcastManifest" cntl request;;
    mret call_id.

(** [CnchWorkerClient::getDedupWorkerStatus] *)
Definition getDedupWorkerStatus (storage_id : StorageID) : M DedupWorkerStatus :=
  ProfileEventsTimer;;
  cntl ← new_Controller;
  let request : Message := ∅ in
  let request := set_field "table" (VPayload (fillStorageID storage_id)) request in
  reply ← stub_call "getDedupWorkerStatus" cntl request;
  throw_if (assertController (fst reply));;
  throw_if (checkResponse (snd reply));;
  let response := snd reply in
  let status := DedupWorkerStatus_default in
  let status := set_is_active (get_bool "is_active" response) status in
  if is_active status then
    mret {| is_active := is_active status;
            create_time := get_int "create_time" response;
            total_schedule_cnt := get_int "total_schedule_cnt" response;
            total_dedup_cnt := get_int "total_dedup_cnt" response;
            last_schedule_wait_ms := get_int "last_schedule_wait_ms" response;
            last_task_total_cost_ms := get_int "last_task_total_cost_ms" response;
            last_task_dedup_cost_ms := get_int "last_task_dedup_cost_ms" response;
            last_task_publish_cost_ms := get_int "last_task_publish_cost_ms" response;
            last_task_staged_part_cnt := get_int "last_task_staged_part_cnt" response;
            last_task_visible_part_cnt := get_int "last_task_visible_part_cnt" response;
            last_task_staged_part_total_rows :=
              get_int "last_task_staged_part_total_rows" response;
            last_task_visible_part_total_rows :=
              get_int "last_task_visible_part_total_rows" response;
            dedup_tasks_progress :=
              dedup_tasks_progress status ++ get_strs "dedup_tasks_progress" response;
            last_exception := get_str "last_exception" response;
            last_exception_time := get_int "last_exception_time" response |}
  else
    mret status.

Definition tpl_message (tpl : TopicPartition) : list (string * Scalar) :=
  [("topic", SStr (get_topic tpl)); ("partition", SInt (get_partition tpl));
   ("offset", SInt (get_offset tpl))].

(** [CnchWorkerClient::submitKafkaConsumeTask] (under [USE_RDKAFKA]) *)
Definition submitKafkaConsumeTask (command : KafkaTaskCommand.t StorageID) : M unit :=
  ProfileEventsTimer;;
  if KafkaTaskCommand.rpc_port command =? 0 then
    throw (mkException "Rpc port is not set in KafkaTaskCommand" LOGICAL_ERROR)
  else
    cntl ← new_Controller;
    let request : Message := ∅ in
    let request := set_field "type" (VInt (KafkaTaskCommand.type command)) request in
    let request := set_field "task_id" (VStr (KafkaTaskCommand.task_id command)) request in
    let request := set_field "rpc_port" (VInt (KafkaTaskCommand.rpc_port command)) request in
    let request :=
      set_field "cnch_storage_id"
        (VPayload (fillStorageID (KafkaTaskCommand.cnch_storage_id command))) request in
    let request :=
      set_field "database" (VStr (KafkaTaskCommand.local_database_name command)) request in
    let request :=
      set_field "table" (VStr (KafkaTaskCommand.local_table_name command)) request in
    let request :=
      set_field "assigned_consumer"
        (VInt (KafkaTaskCommand.assigned_consumer command)) request in
    let request :=
      set_field "create_table_command"
        (VStrs (KafkaTaskCommand.create_table_commands command)) request in
    let request :=
      set_field "tpl" (VMsgs (map tpl_message (KafkaTaskCommand.tpl command))) request in
    let request :=
      set_field "sample_partitions"
        (VMsgs (map tpl_message (KafkaTaskCommand.sample_partitions command))) request in
    reply ← stub_call "submitKafkaConsumeTask" cntl request;
    throw_if (assertController (fst reply));;
    throw_if (checkResponse (snd reply)).

End Client.

(** A small environment to run the client in: one worker group of two workers
    ["w0"] and ["w1"], and a worker that answers every call with an inactive
    dedup status whose other fields are nevertheless filled. *)
Definition sample_response : gmap string (Value string) :=
  <["is_active" := VBool false]>
    (<["create_time" := VInt 1700000000]>
       (<["total_schedule_cnt" := VInt 12]>
          (<["last_exception" := VStr "timeout"]> ∅))).

Definition sample_status : DedupWorkerStatus :=
  {| is_active := false;
     create_time := 0;
     total_schedule_cnt := 0;
     total_dedup_cnt := 0;
     last_schedule_wait_ms := 0;
     last_task_total_cost_ms := 0;
     last_task_dedup_cost_ms := 0;
     last_task_publish_cost_ms := 0;
     last_task_staged_part_cnt := 0;
     last_task_visible_part_cnt := 0;
     last_task_staged_part_total_rows := 0;
     last_task_visible_part_total_rows := 0;
     dedup_tasks_progress := [];
     last_exception := EmptyString;
     last_exception_time := 0 |}.

Definition sample_environment : Environment :=
  {| Payload := string;
     ContextPtr := Settings;
     MergeTreeMetaBase := unit;
     StorageID := string;
     StoragePtr := string;
     StorageMaterializedView := unit;
     ServerDataParts := list string;
     MutationCommands := string;
     WorkerGroup := list string;
     ControllerResult := unit;
     getSettingsRef := fun settings => settings;
     getCurrentTransactionID := fun _ => 42;
     getPrimaryTransactionID := fun _ => 42;
     getCurrentWorkerGroup := fun _ => ["w0"; "w1"]%string;
     getWorkerIndex := fun wg worker_id =>
       match list_find (String.eqb worker_id) wg with
       | Some (i, _) => Z.of_nat i
       | None => Z.of_nat (length wg)
       end;
     workerNum := fun wg => Z.of_nat (length wg);
     getVWName := fun _ => "vw_default"%string;
     getStorageID := fun table => table;
     getStorageUUID := fun table => table;
     fillStorageID := fun storage_id => storage_id;
     fillPartsModelForSend := fun _ parts => String.concat "," parts;
     hasDynamicSubcolumns := fun _ => false;
     object_columns_toString := fun _ => EmptyString;
     writeText := fun commands => commands;
     ManipulationType_UInt32 := fun t =>
       match t with
       | Mutate => 3
       | Clustering => 5
       | OtherManipulation tag => tag
       end;
     toString := fun z => pretty z;
     worker := fun _ _ => (tt, sample_response);
     assertController := fun _ => None;
     checkResponse := fun _ => None;
     DedupWorkerStatus_default := sample_status |}.

Definition sample_settings (seconds : Z) : Settings :=
  {| max_execution_time := mkTimespan seconds (seconds * 1000);
     send_plan_segment_timeout_ms := mkTimespan 10 10000;
     broadcast_manifest_timeout := mkTimespan 30 30000 |}.

Definition sample_params (port : Z) : ManipulationTaskParams.t (list string) string string :=
  ManipulationTaskParams.mk port Mutate "task-1" 7 false 0 "CREATE TABLE t" ["part_1"]%string
    8 "UPDATE c = 1" "db.t" "ALTER TABLE mv DROP PARTITION p" "INSERT INTO mv SELECT 1".

Definition sample_command (port : Z) : KafkaTaskCommand.t string :=
  KafkaTaskCommand.mk 1 "consume-1" port "db.kafka" "db" "kafka_local" 2 ["CREATE TABLE k"]%string
    [mkTopicPartition "topic" 0 100] [].

Definition empty_world : World string :=
  {| rpc_log := []; profile_timers := 0; controllers := 0 |}.

End CnchWorkerClient.

(** ** The scheduling loop

    [Scheduler::schedule], [onSegmentFinished], [genTopology] and
    [removeDepsAndEnqueueTask] are declared in [Scheduler.h] and defined in
    files that are not part of the sources at hand. This module is written
    from sections 3 to 5 and 7 of the specification. A segment stands for its
    last outstanding instance. *)

Module ScheduleLoop.

Local Open Scope nat_scope.

(** Modelled from the spec: a plan segment of the DAG, with its id and the ids
    of its upstream segments (section 3, "Plan Segment"). *)
Record PlanSegment : Type := mkPlanSegment
  { segment_id : nat;
    inputs : list nat }.

(** Modelled from the spec: the per-segment state machine of section 4.3,
    [Pending -> Ready -> Dispatched -> Finished(Success) / Finished(Fail) /
    Canceled]. *)
Inductive SegmentState : Type :=
  | Pending
  | Ready
  | Dispatched
  | Finished (succeeded : bool)
  | Canceled.

#[export] Instance SegmentState_eq_dec : EqDecision SegmentState.
Proof. solve_decision. Defined.

(** Modelled from the spec: the terminal states of a segment. *)
Definition terminal (s : SegmentState) : bool :=
  match s with
  | Finished _ | Canceled => true
  | Pending | Ready | Dispatched => false
  end.

(** Modelled from the spec: the states of a segment that was never
    dispatched. *)
Definition waiting (s : SegmentState) : bool :=
  match s with
  | Pending | Ready => true
  | Dispatched | Finished _ | Canceled => false
  end.

(** Modelled from the spec: the states that are not terminal. *)
Definition open (s : SegmentState) : bool := negb (terminal s).

(** Modelled from the spec: the status a completion reports (section 4.5,
    "Success, Fail, or Wait-then-retry"); the [Unknown] of section 3 is a
    result not yet observed and is never reported. *)
Inductive Status : Type :=
  | Success
  | Fail
  | Wait.

(** Modelled from the spec: what the scheduler is told while it waits
    (sections 4.5, 4.6 and 5): a completion with its status, or the
    cancellation of a segment in flight; either names a segment and may come
    late, for a segment that is no longer outstanding, or name no segment of
    the DAG at all; or the expiration of the deadline, which also stands for
    an external [stop()]. *)
Inductive Event : Type :=
  | Completion (id : nat) (status : Status)
  | Cancellation (id : nat)
  | Expiration.

(** Modelled from the spec: the fatal error of section 4.1 for a DAG that
    refers to an unknown segment id. *)
Inductive ScheduleError : Type :=
  | MalformedDAG.

(** Modelled from the spec: the policy for a [Wait], which section 9 leaves
    to be decided: [None] retries every time, [Some k] retries a segment at
    most [k] times and then takes the [Wait] for a [Fail], [Some 0] takes it
    for a [Fail] at once. *)
Definition RetryPolicy : Type := option nat.

(** Modelled from the spec: whether the policy allows one more retry of a
    segment that was retried [used] times. *)
Definition may_retry (policy : RetryPolicy) (used : nat) : bool :=
  match policy with
  | None => true
  | Some limit => bool_decide (used < limit)
  end.

(** Modelled from the spec: the scheduling state owned by the scheduler
    (section 3): the state, the remaining-dependency count and the number of
    retries of every segment; the record of the terminal transitions made so
    far; the number of waits entered with nothing outstanding; whether a
    failure has been observed; whether the query was canceled. *)
Record SchedState : Type := mkSchedState
  { states : nat -> SegmentState;
    remaining : nat -> nat;
    retries : nat -> nat;
    terminal_log : list (nat * SegmentState);
    idle_waits : nat;
    failed : bool;
    canceled : bool }.

Section Loop.

Variable dag : list PlanSegment.

(** Modelled from the spec: the segment ids of the DAG. *)
Definition ids : list nat := segment_id <$> dag.

(** Modelled from the spec: the DAG check of section 4.1, that every edge
    refers to a known segment id. *)
Definition well_referenced : bool :=
  bool_decide (Forall (fun seg => Forall (fun p => p ∈ ids) (inputs seg)) dag).

(** Modelled from the spec: the Topology Builder of section 4.1; for every
    edge [producer -> consumer] the consumer is among the dependents of the
    producer. *)
Definition buildTopology (producer : nat) : list nat :=
  segment_id <$> filter (fun seg => producer ∈ inputs seg) dag.

(** Modelled from the spec: [seed] of section 4.3; a segment with no
    upstream dependency starts in [Ready], the others in [Pending] with one
    remaining dependency per upstream segment. *)
Definition initial_state (seg : PlanSegment) : SegmentState :=
  match inputs seg with
  | [] => Ready
  | _ :: _ => Pending
  end.

(** Modelled from the spec: the state the loop starts from (section 4.6). *)
Definition seed : SchedState :=
  {| states :=
       foldr (fun seg f => <[segment_id seg := initial_state seg]> f) (fun _ => Pending) dag;
     remaining :=
       foldr (fun seg f => <[segment_id seg := length (inputs seg)]> f) (fun _ => 0) dag;
     retries := fun _ => 0;
     terminal_log := [];
     idle_waits := 0;
     failed := false;
     canceled := false |}.

(** Modelled from the spec: a segment enters a terminal state, which is
    recorded. *)
Definition finish (id : nat) (s : SegmentState) (st : SchedState) : SchedState :=
  {| states := <[id := s]> (states st);
     remaining := remaining st;
     retries := retries st;
     terminal_log := terminal_log st ++ [(id, s)];
     idle_waits := idle_waits st;
     failed := failed st;
     canceled := canceled st |}.

(** Modelled from the spec: "dispatch every currently-ready segment"
    (section 4.6). *)
Definition dispatch_ready (st : SchedState) : SchedState :=
  {| states := fun id =>
       if bool_decide (id ∈ ids ∧ states st id = Ready) then Dispatched else states st id;
     remaining := remaining st;
     retries := retries st;
     terminal_log := terminal_log st;
     idle_waits := idle_waits st;
     failed := failed st;
     canceled := canceled st |}.

(** Modelled from the spec: the segments dispatched and not yet completed. *)
Definition outstanding (st : SchedState) : list nat :=
  filter (fun id => states st id = Dispatched) ids.

(** Modelled from the spec: the segments not yet in a terminal state. *)
Definition unfinished (st : SchedState) : list nat :=
  filter (fun id => terminal (states st id) = false) ids.

(** Modelled from the spec: the dependency tracker of section 4.3 on a
    success; every dependent has its count decremented, and a [Pending]
    dependent becomes [Ready] when its count reaches zero. *)
Definition release (dependents : list nat) (st : SchedState) : SchedState :=
  {| states := fun d =>
       if bool_decide (d ∈ dependents ∧ remaining st d - 1 = 0 ∧ states st d = Pending)
       then Ready else states st d;
     remaining := fun d =>
       if bool_decide (d ∈ dependents) then remaining st d - 1 else remaining st d;
     retries := retries st;
     terminal_log := terminal_log st;
     idle_waits := idle_waits st;
     failed := failed st;
     canceled := canceled st |}.

(** Modelled from the spec: cancellation of the segments whose state is among
    [which]; each becomes [Canceled], which is recorded (sections 4.5, 5). *)
Definition cancel (which : SegmentState -> bool) (st : SchedState) : SchedState :=
  {| states := fun id =>
       if bool_decide (id ∈ ids ∧ which (states st id) = true) then Canceled
       else states st id;
     remaining := remaining st;
     retries := retries st;
     terminal_log :=
       terminal_log st
         ++ ((fun id => (id, Canceled)) <$> filter (fun id => which (states st id) = true) ids);
     idle_waits := idle_waits st;
     failed := failed st;
     canceled := canceled st |}.

(** Modelled from the spec: the tracker "signals upward that the query must
    fail" (section 4.3). *)
Definition signal_failure (st : SchedState) : SchedState :=
  {| states := states st;
     remaining := remaining st;
     retries := retries st;
     terminal_log := terminal_log st;
     idle_waits := idle_waits st;
     failed := true;
     canceled := canceled st |}.

(** Modelled from the spec: [onSegmentFinished(segmentId, succeeded,
    canceled)] of section 4.3. A segment already in a terminal state, or
    unknown, is left alone (section 5: late completions are no-ops against
    the tracker). Otherwise the segment is recorded as [Canceled] or
    [Finished]; after a success its dependents are released, after a failure
    or a cancellation they are not, and the failure is signalled. *)
Definition onSegmentFinished (id : nat) (is_succeed is_canceled : bool) (st : SchedState)
    : SchedState :=
  if bool_decide (id ∈ ids ∧ terminal (states st id) = false) then
    let st := finish id (if is_canceled then Canceled else Finished is_succeed) st in
    if is_succeed && negb is_canceled then release (buildTopology id) st
    else signal_failure st
  else st.

(** Modelled from the spec: a retry dispatches the segment again, on the same
    placement (section 5); it stays [Dispatched] and the retry is counted. *)
Definition retry (id : nat) (st : SchedState) : SchedState :=
  {| states := states st;
     remaining := remaining st;
     retries := <[id := S (retries st id)]> (retries st);
     terminal_log := terminal_log st;
     idle_waits := idle_waits st;
     failed := failed st;
     canceled := canceled st |}.

(** Modelled from the spec: a failure of the query (sections 4.5 and 7); the
    segment is finished as failed or as canceled, nothing further is
    dispatched, so the segments never dispatched are canceled, while the
    segments in flight are left to drain or to be canceled. *)
Definition fail_segment (id : nat) (is_canceled : bool) (st : SchedState) : SchedState :=
  cancel waiting (onSegmentFinished id false is_canceled st).

(** Modelled from the spec: the completion handler of section 4.5. A
    completion for a segment that is not outstanding is ignored (section 5).
    A [Wait] is retried when the policy allows it and the query has not
    failed, since nothing is dispatched after a failure; otherwise it is
    taken for a [Fail]. *)
Definition onCompletion (policy : RetryPolicy) (id : nat) (status : Status) (st : SchedState)
    : SchedState :=
  if bool_decide (id ∈ ids ∧ states st id = Dispatched) then
    match status with
    | Success => onSegmentFinished id true false st
    | Fail => fail_segment id false st
    | Wait =>
        if may_retry policy (retries st id) && negb (failed st) then retry id st
        else fail_segment id false st
    end
  else st.

(** Modelled from the spec: a segment in flight is reported canceled (section
    4.5: the "same failure path, tagged as canceled rather than failed"); for
    a segment that is not outstanding the report is ignored (section 5). *)
Definition onCancellation (id : nat) (st : SchedState) : SchedState :=
  if bool_decide (id ∈ ids ∧ states st id = Dispatched) then fail_segment id true st
  else st.

(** Modelled from the spec: expiration of the deadline or [stop()] (sections
    4.6 and 5); the query is canceled and every segment not yet terminal
    becomes [Canceled], those in flight included. *)
Definition expire (st : SchedState) : SchedState :=
  let st := cancel open st in
  {| states := states st;
     remaining := remaining st;
     retries := retries st;
     terminal_log := terminal_log st;
     idle_waits := idle_waits st;
     failed := failed st;
     canceled := true |}.

(** Modelled from the spec: a wait entered with nothing outstanding can only
    end at the deadline; it is counted. *)
Definition note_idle (st : SchedState) : SchedState :=
  {| states := states st;
     remaining := remaining st;
     retries := retries st;
     terminal_log := terminal_log st;
     idle_waits := S (idle_waits st);
     failed := failed st;
     canceled := canceled st |}.

(** Modelled from the spec: what an event does to the scheduling state. *)
Definition deliver (policy : RetryPolicy) (ev : Event) (st : SchedState) : SchedState :=
  match ev with
  | Completion id status => onCompletion policy id status st
  | Cancellation id => onCancellation id st
  | Expiration => expire st
  end.

(** Modelled from the spec: one round of the loop of section 4.6; dispatch
    what is ready unless the query has failed, wait for an event, advance.
    [next] is what the transport delivers, given the segments in flight. *)
Definition round (policy : RetryPolicy) (next : list nat -> Event) (st : SchedState)
    : SchedState :=
  let st := if failed st then st else dispatch_ready st in
  match outstanding st with
  | [] => expire (note_idle st)
  | _ :: _ => deliver policy (next (outstanding st)) st
  end.

(** Modelled from the spec: whether every segment is in a terminal state. *)
Definition all_terminal (st : SchedState) : bool :=
  bool_decide (unfinished st = []).

(** Modelled from the spec: the loop of section 4.6, "while not all segments
    finished", every wait of which is bounded by the query expiration
    deadline (sections 3 and 5). [time] is the number of events that can
    still arrive before the deadline; the wait after the last of them ends by
    expiration. [env n] is what the transport delivers in round [n]. *)
Fixpoint loop (policy : RetryPolicy) (env : nat -> list nat -> Event) (time n : nat)
    (st : SchedState) : SchedState :=
  if all_terminal st then st
  else
    match time with
    | 0 => expire st
    | S time => loop policy env time (S n) (round policy (env n) st)
    end.

(** Modelled from the spec: the schedule operation of section 4.6. A
    malformed DAG aborts before any dispatch. *)
Definition schedule (policy : RetryPolicy) (env : nat -> list nat -> Event) (deadline : nat)
    : ScheduleError + SchedState :=
  if well_referenced then inr (loop policy env deadline 0 seed)
  else inl MalformedDAG.

(** Modelled from the spec: the events that arrive after the loop has ended
    still reach their handlers (section 5). *)
Definition late_events (policy : RetryPolicy) (late : list Event) (st : SchedState)
    : SchedState :=
  fold_left (fun st ev => deliver policy ev st) late st.

(** Modelled from the spec: a DAG is a graph on its segments, each id used
    once and each edge listed once between known segments. *)
Definition well_formed : Prop :=
  NoDup ids ∧ Forall (fun seg => NoDup (inputs seg) ∧ Forall (fun p => p ∈ ids) (inputs seg)) dag.

(** Modelled from the spec: the DAG is acyclic when its segments can be
    ranked so that every edge goes from a lower to a higher rank. *)
Definition acyclic : Prop :=
  ∃ rank : nat -> nat, Forall (fun seg => Forall (fun p => rank p < rank (segment_id seg)) (inputs seg)) dag.

(** Modelled from the spec: the segment in flight that an event is about. *)
Definition settles (out : list nat) (ev : Event) : bool :=
  match ev with
  | Completion id _ | Cancellation id => bool_decide (id ∈ out)
  | Expiration => false
  end.

(** Modelled from the spec: a transport that, whenever segments are in
    flight, reports on one of them: no expiration, no late report. *)
Definition prompt (env : nat -> list nat -> Event) : Prop :=
  forall n out, out <> [] -> settles out (env n out) = true.

(** *** Invariants of the loop *)

(** The upstream segments of [seg] that have not finished with success. *)
Definition unsatisfied (st : SchedState) (seg : PlanSegment) : list nat :=
  filter (fun p => states st p <> Finished true) (inputs seg).

(** The record of terminal transitions agrees with the states: a segment in a
    terminal state has exactly one entry, which names that state, and a segment
    not yet terminal has none. *)
Definition log_consistent (st : SchedState) : Prop :=
  forall id, id ∈ ids ->
    filter (fun e => e.1 = id) (terminal_log st)
    = if terminal (states st id) then [(id, states st id)] else [].

(** While nothing has failed or been canceled, the counters are the numbers of
    unsatisfied upstream segments, and [Pending] is a positive counter. *)
Definition tracking (st : SchedState) : Prop :=
  (forall id, id ∈ ids -> states st id <> Finished false /\ states st id <> Canceled)
  /\ (forall seg, seg ∈ dag -> remaining st (segment_id seg) = length (unsatisfied st seg))
  /\ (forall id, id ∈ ids -> states st id = Pending <-> 0 < remaining st id).

(** After a failure no segment is left waiting: what is not terminal is in
    flight. *)
Definition draining (st : SchedState) : Prop :=
  forall id, id ∈ ids -> waiting (states st id) = false.

(** What every round of the loop keeps: the record agrees with the states,
    and the tracker counts as long as nothing has failed, after which the
    query drains. *)
Definition invariant (st : SchedState) : Prop :=
  log_consistent st /\ ((failed st = false /\ tracking st) \/ draining st).

(** What is left of the retry budget [limit] over the segments not yet
    terminal. *)
Definition budget (limit : nat) (st : SchedState) : nat :=
  sum_list_with
    (fun id => if terminal (states st id) then 0 else S limit - retries st id) ids.

End Loop.

(** The DAG of the specification's scenario: [A] and [B] are sources feeding [C]. *)
Definition scenario_dag : list PlanSegment :=
  [mkPlanSegment 0 []; mkPlanSegment 1 []; mkPlanSegment 2 [0; 1]].

(** A graph with a cycle between segments 1 and 2, next to a source 0. *)
Definition cyclic_graph : list PlanSegment :=
  [mkPlanSegment 0 []; mkPlanSegment 1 [2]; mkPlanSegment 2 [1]].

(** A transport that completes the first segment in flight with the status
    [status n] of the round. *)
Definition first_in_flight (status : nat -> Status) (n : nat) (out : list nat) : Event :=
  match out with
  | id :: _ => Completion id (status n)
  | [] => Expiration
  end.

(** The states of segments 0, 1 and 2, the record a run ends with, the idle
    waits and the two flags of the query. *)
Definition summary (r : ScheduleError + SchedState)
    : option (list SegmentState * list (nat * SegmentState) * nat * bool * bool) :=
  match r with
  | inr st =>
      Some (states st <$> [0; 1; 2], terminal_log st, idle_waits st, failed st, canceled st)
  | inl _ => None
  end.

End ScheduleLoop.

(** ** Scheduler.h: what a run of operations selects *)

Module SchedulerCalls.

Import SchedulerH.

Section Calls.

Context `{Collaborators}.

(** The [selectNodes] calls among the operations, in call order. *)
Definition selections (ops : list SchedulerOp) : list (PlanSegment * SegmentTask) :=
  omap (fun op => match op with
                  | OpSelectNodes p t => Some (p, t)
                  | _ => None
                  end) ops.

(** The selector after [select] has been called once for each of [calls]. *)
Definition select_all (calls : list (PlanSegment * SegmentTask)) (ns : NodeSelector)
    : NodeSelector :=
  fold_left (fun ns call => snd (select call.1 (has_table_scan_or_value call.2) ns)) calls ns.

End Calls.

(** A timestamp of <time.h> in normal form. *)
Definition normalized (ts : timespec) : Prop :=
  0 <= tv_sec ts /\ 0 <= tv_nsec ts < 1000000000.

(** [a] is not later than [b]. *)
Definition timespec_le (a b : timespec) : Prop :=
  tv_sec a < tv_sec b \/ (tv_sec a = tv_sec b /\ tv_nsec a <= tv_nsec b).

End SchedulerCalls.

(** ** CnchWorkerClient.cpp: the other members *)

Module CnchWorkerClientRest.

Import CnchWorkerClient.

(** The further members of [Settings] that the client reads. *)
Record MoreSettings : Type := mkMoreSettings
  { brpc_data_parts_timeout_ms : Timespan;
    max_dedup_execution_time : Timespan;
    preload_send_rpc_max_ms : Z;
    remote_fs_read_failed_injection : Z }.

(** [struct MySQLSyncThreadCommand] *)
Record MySQLSyncThreadCommand : Type := mkMySQLSyncThreadCommand
  { mysql_type : Z;
    database_name : string;
    sync_thread_key : string;
    mysql_rpc_port : Z;
    mysql_table : string;
    create_sqls : list string;
    binlog_file : string;          (* [binlog.binlog_file] *)
    binlog_position : Z;           (* [binlog.binlog_position] *)
    executed_gtid_set : string;    (* [binlog.executed_gtid_set] *)
    meta_version : Z }.            (* [binlog.meta_version] *)

(** [struct CnchConsumerStatus] *)
Record CnchConsumerStatus : Type := mkCnchConsumerStatus
  { cluster : string;
    topics : list string;
    assignment : list string;
    assigned_consumers : Z;
    consumer_last_exception : string }.

(** An element of [CheckResults]: part path, whether it passed, message. *)
Definition CheckResult : Type := string * bool * string.

(** [CnchDedupHelper::DedupTask], the members the client reads; a delete
    bitmap is given by its model. *)
Record DedupTask (UUID DataPart Payload : Type) : Type := mkDedupTask
  { storage_uuid : UUID;           (* [storage_id.uuid] *)
    dedup_mode : Z;
    new_parts : list DataPart;
    delete_bitmaps_for_new_parts : list Payload;
    staged_parts : list DataPart;
    delete_bitmaps_for_staged_parts : list Payload;
    visible_parts : list DataPart;
    delete_bitmaps_for_visible_parts : list Payload }.

Arguments mkDedupTask {UUID DataPart Payload}.
Arguments storage_uuid {UUID DataPart Payload}.
Arguments dedup_mode {UUID DataPart Payload}.
Arguments new_parts {UUID DataPart Payload}.
Arguments delete_bitmaps_for_new_parts {UUID DataPart Payload}.
Arguments staged_parts {UUID DataPart Payload}.
Arguments delete_bitmaps_for_staged_parts {UUID DataPart Payload}.
Arguments visible_parts {UUID DataPart Payload}.
Arguments delete_bitmaps_for_visible_parts {UUID DataPart Payload}.

(** What the handler and the completion callback of a dedup task have seen:
    the exceptions given to [handler->setException] and the arguments
    [funcOnCallback] was called with, oldest first. *)
Record Completion : Type := mkCompletion
  { handler_exceptions : list Exception;
    callback_calls : list bool }.

(** What these members take from the rest of the code base, beside
    [Environment]. *)
Class RestEnvironment `{Environment} : Type :=
  { UUID : Type;
    HostWithPorts : Type;
    DataPart : Type;
    AssignedResources : Type;
    getMoreSettings : ContextPtr -> MoreSettings;
    (* [Poco::Timespan::operator > (0)] *)
    Timespan_positive : Timespan -> bool;
    fillUUID : UUID -> Payload;
    fillHostWithPorts : HostWithPorts -> Payload;
    (* [fillPartsModelForSend] and [fillPartModel] on an [IStorage] *)
    fillPartsModelForSend_IStorage : StoragePtr -> ServerDataParts -> Payload;
    fillPartModel : StoragePtr -> DataPart -> Payload;
    relative_path : DataPart -> string;
    getDatabaseName : StoragePtr -> string;
    (* [prepareQueryResource] fills the whole request *)
    prepareQueryResource :
      string -> AssignedResources -> ContextPtr -> bool -> gmap string (Value Payload);
    (* [std::stoull]: the number, or the exception it throws *)
    stoull : string -> Exception + Z;
    (* [RPCHelpers::assertController], used by the completion callback *)
    RPCHelpers_assertController : ControllerResult -> option Exception;
    (* the repeated bool field [is_passed] of a [CheckDataPartsResp] *)
    response_is_passed : gmap string (Value Payload) -> list bool;
    (* [MySQLSyncThreadCommand::START_SYNC] *)
    START_SYNC : Z }.

Section Rest.

Context `{RestEnvironment}.

Local Abbreviation Message := (gmap string (Value Payload)).

(** The tail of every synchronous member: [assertController(cntl)] and
    [RPCHelpers::checkResponse(response)] after the call. *)
Definition checked_call (method : string) (cntl : Controller) (request : Message)
    : M Message :=
  reply ← stub_call method cntl request;
  throw_if (assertController (fst reply));;
  throw_if (checkResponse (snd reply));;
  mret (snd reply).

(** [CnchWorkerClient::shutdownManipulationTasks] *)
Definition shutdownManipulationTasks (table_uuid : UUID) (task_ids : list string) : M unit :=
  ProfileEventsTimer;;
  cntl ← new_Controller;
  let request : Message := ∅ in
  let request := set_field "table_uuid" (VPayload (fillUUID table_uuid)) request in
  let request :=
    match task_ids with
    | [] => request
    | _ :: _ => set_field "task_ids" (VStrs task_ids) request
    end in
  checked_call "shutdownManipulationTasks" cntl request;;
  mret tt.

(** [CnchWorkerClient::touchManipulationTasks] *)
Definition touchManipulationTasks (table_uuid : UUID) (tasks_id : list string)
    : M (gset string) :=
  ProfileEventsTimer;;
  cntl ← new_Controller;
  let request : Message := ∅ in
  let request := set_field "table_uuid" (VPayload (fillUUID table_uuid)) request in
  let request := set_field "tasks_id" (VStrs tasks_id) request in
  response ← checked_call "touchManipulationTasks" cntl request;
  mret (list_to_set (get_strs "tasks_id" response)).

(** The loop at the end of [checkDataParts]: element [i] of the result reads
    [part_path()[i]], [is_passed()[i]] and [message()[i]]. [None] is a read
    past the end of a repeated field, which the code does not guard. *)
Definition check_result_at (response : Message) (i : nat) : option CheckResult :=
  path ← get_strs "part_path" response !! i;
  passed ← response_is_passed response !! i;
  msg ← get_strs "message" response !! i;
  Some (path, passed, msg).

Definition check_results (response : Message) : option (list CheckResult) :=
  mapM (check_result_at response) (seq 0 (length (get_strs "part_path" response))).

(** [CnchWorkerClient::checkDataParts]. [timeout] is the [int] that
    [totalSeconds()] returns, and [timeout*1000] multiplies it by an [int]:
    the product is formed in 32 bits, with the wrap-around written out,
    before [set_timeout_ms] widens it ([sendResources] multiplies by
    [1000L]). *)
Definition checkDataParts (context : ContextPtr) (storage : StoragePtr)
    (local_table_name create_query : string) (parts : ServerDataParts)
    : M (option (list CheckResult)) :=
  ProfileEventsTimer;;
  cntl ← new_Controller;
  let request : Message := ∅ in
  let settings := getSettingsRef context in
  let timeout := totalSeconds (max_execution_time settings) in
  let cntl := set_timeout_ms (if timeout =? 0 then 180000 else to_int (timeout * 1000)) cntl in
  let request := set_field "txn_id" (VInt (getCurrentTransactionID context)) request in
  let request := set_field "database_name" (VStr (getDatabaseName storage)) request in
  let request := set_field "table_name" (VStr local_table_name) request in
  let request := set_field "create_query" (VStr create_query) request in
  let request :=
    set_field "parts" (VPayload (fillPartsModelForSend_IStorage storage parts)) request in
  response ← checked_call "checkDataParts" cntl request;
  mret (check_results response).

(** [CnchWorkerClient::preloadDataParts] *)
Definition preloadDataParts (context : ContextPtr) (txn_id : Z) (storage : StoragePtr)
    (create_local_table_query : string) (parts : ServerDataParts)
    (enable_parts_sync_preload : bool) (parts_preload_level submit_ts : Z) : M nat :=
  ProfileEventsTimer;;
  let request : Message := ∅ in
  let request := set_field "txn_id" (VInt txn_id) request in
  let request := set_field "create_table_query" (VStr create_local_table_query) request in
  let request := set_field "sync" (VBool enable_parts_sync_preload) request in
  let request := set_field "preload_level" (VInt parts_preload_level) request in
  let request := set_field "submit_ts" (VInt submit_ts) request in
  let request :=
    set_field "parts" (VPayload (fillPartsModelForSend_IStorage storage parts)) request in
  cntl ← new_Controller;
  let settings := getMoreSettings context in
  let request :=
    set_field "read_injection" (VInt (remote_fs_read_failed_injection settings)) request in
  let cntl := set_timeout_ms (preload_send_rpc_max_ms settings) cntl in
  let call_id := call_id cntl in
  stub_call_async "preloadDataParts" cntl request;;
  mret call_id.

(** [CnchWorkerClient::dropPartDiskCache] *)
Definition dropPartDiskCache (context : ContextPtr) (txn_id : Z) (storage : StoragePtr)
    (create_local_table_query : string) (parts : ServerDataParts)
    (sync drop_vw_disk_cache : bool) : M nat :=
  ProfileEventsTimer;;
  cntl ← new_Controller;
  let request : Message := ∅ in
  let send_timeout :=
    Z.max (Z.shiftr (totalMilliseconds (max_execution_time (getSettingsRef context))) 1)
          (totalMilliseconds (brpc_data_parts_timeout_ms (getMoreSettings context))) in
  let cntl := set_timeout_ms send_timeout cntl in
  let request := set_field "txn_id" (VInt txn_id) request in
  let request := set_field "create_table_query" (VStr create_local_table_query) request in
  let request := set_field "sync" (VBool sync) request in
  let request := set_field "drop_vw_disk_cache" (VBool drop_vw_disk_cache) request in
  let request :=
    set_field "parts" (VPayload (fillPartsModelForSend_IStorage storage parts)) request in
  checked_call "dropPartDiskCache" cntl request;;
  mret (call_id cntl).

(** [CnchWorkerClient::dropManifestDiskCache] *)
Definition dropManifestDiskCache (context : ContextPtr) (storage : StoragePtr)
    (version : string) (sync : bool) : M nat :=
  ProfileEventsTimer;;
  cntl ← new_Controller;
  let request : Message := ∅ in
  let cntl :=
    set_timeout_ms (totalMilliseconds (max_execution_time (getSettingsRef context))) cntl in
  let request := set_field "storage_id" (VPayload (getStorageUUID storage)) request in
  request ←
    (if String.eqb version EmptyString then mret request
     else match stoull version with
          | inl e => throw e
          | inr v => mret (set_field "version" (VInt v) request)
          end);
  let request := set_field "sync" (VBool sync) request in
  checked_call "dropManifestDiskCache" cntl request;;
  mret (call_id cntl).

(** [CnchWorkerClient::sendResources] *)
Definition sendResources (context : ContextPtr) (resources_to_send : AssignedResources)
    (worker_id : string) (with_mutations : bool) : M nat :=
  ProfileEventsTimer;;
  let request : Message :=
    prepareQueryResource worker_id resources_to_send context with_mutations in
  cntl ← new_Controller;
  let max_execution_time := totalSeconds (max_execution_time (getSettingsRef context)) in
  let send_timeout_ms :=
    if max_execution_time =? 0
    then totalMilliseconds (brpc_data_parts_timeout_ms (getMoreSettings context))
    else max_execution_time * 1000 in
  let cntl := set_timeout_ms send_timeout_ms cntl in
  let call_id := call_id cntl in
  stub_call_async "sendResources" cntl request;;
  mret call_id.

(** [onDedupTaskDone]: the [try] block, then the [catch (...)] block.
    [funcOnCallback b] is [Some e] when the callback throws [e]; the result is
    the exception that leaves the function, if any. *)
Definition onDedupTaskDone_catch (e : Exception) (funcOnCallback : bool -> option Exception)
    (seen : Completion) : option Exception * Completion :=
  (funcOnCallback false,
   {| handler_exceptions := handler_exceptions seen ++ [e];
      callback_calls := callback_calls seen ++ [false] |}).

Definition onDedupTaskDone (response : Message) (cntl : ControllerResult)
    (funcOnCallback : bool -> option Exception) (seen : Completion)
    : option Exception * Completion :=
  match RPCHelpers_assertController cntl with
  | Some e => onDedupTaskDone_catch e funcOnCallback seen
  | None =>
      match checkResponse response with
      | Some e => onDedupTaskDone_catch e funcOnCallback seen
      | None =>
          let seen := {| handler_exceptions := handler_exceptions seen;
                         callback_calls := callback_calls seen ++ [true] |} in
          match funcOnCallback true with
          | Some e => onDedupTaskDone_catch e funcOnCallback seen
          | None => (None, seen)
          end
      end
  end.

(** [CnchWorkerClient::executeDedupTask] *)
Definition executeDedupTask (context : ContextPtr) (txn_id rpc_port : Z) (storage : StoragePtr)
    (dedup_task : DedupTask UUID DataPart Payload) : M nat :=
  ProfileEventsTimer;;
  let request : Message := ∅ in
  let request := set_field "txn_id" (VInt txn_id) request in
  let request := set_field "rpc_port" (VInt rpc_port) request in
  let request := set_field "table_uuid" (VPayload (fillUUID (storage_uuid dedup_task))) request in
  let request := set_field "dedup_mode" (VInt (dedup_mode dedup_task)) request in
  let request :=
    set_field "new_parts" (VPayloads (fillPartModel storage <$> new_parts dedup_task)) request in
  let request :=
    set_field "new_parts_paths" (VStrs (relative_path <$> new_parts dedup_task)) request in
  let request :=
    set_field "delete_bitmaps_for_new_parts"
      (VPayloads (delete_bitmaps_for_new_parts dedup_task)) request in
  let request :=
    set_field "staged_parts" (VPayloads (fillPartModel storage <$> staged_parts dedup_task))
      request in
  let request :=
    set_field "staged_parts_paths" (VStrs (relative_path <$> staged_parts dedup_task))
      request in
  let request :=
    set_field "delete_bitmaps_for_staged_parts"
      (VPayloads (delete_bitmaps_for_staged_parts dedup_task)) request in
  let request :=
    set_field "visible_parts" (VPayloads (fillPartModel storage <$> visible_parts dedup_task))
      request in
  let request :=
    set_field "visible_parts_paths" (VStrs (relative_path <$> visible_parts dedup_task))
      request in
  let request :=
    set_field "delete_bitmaps_for_visible_parts"
      (VPayloads (delete_bitmaps_for_visible_parts dedup_task)) request in
  cntl ← new_Controller;
  let cntl :=
    set_timeout_ms (totalMilliseconds (max_dedup_execution_time (getMoreSettings context)))
      cntl in
  let call_id := call_id cntl in
  stub_call_async "executeDedupTask" cntl request;;
  mret call_id.

(** [CnchWorkerClient::removeWorkerResource] *)
Definition removeWorkerResource (txn_id : Z) : M nat :=
  ProfileEventsTimer;;
  cntl ← new_Controller;
  let request : Message := ∅ in
  let call_id := call_id cntl in
  let request := set_field "txn_id" (VInt txn_id) request in
  stub_call_async "removeWorkerResource" cntl request;;
  mret call_id.

(** [CnchWorkerClient::createDedupWorker] *)
Definition createDedupWorker (storage_id : StorageID) (create_table_query : string)
    (host_ports_ : HostWithPorts) (deduper_index : Z) : M unit :=
  ProfileEventsTimer;;
  cntl ← new_Controller;
  let request : Message := ∅ in
  let request := set_field "table" (VPayload (fillStorageID storage_id)) request in
  let request := set_field "create_table_query" (VStr create_table_query) request in
  let request := set_field "host_ports" (VPayload (fillHostWithPorts host_ports_)) request in
  let request := set_field "deduper_index" (VInt deduper_index) request in
  checked_call "createDedupWorker" cntl request;;
  mret tt.

(** [CnchWorkerClient::assignHighPriorityDedupPartition] *)
Definition assignHighPriorityDedupPartition (storage_id : StorageID)
    (high_priority_partition : list string) : M unit :=
  ProfileEventsTimer;;
  cntl ← new_Controller;
  let request : Message := ∅ in
  let request := set_field "table" (VPayload (fillStorageID storage_id)) request in
  let request := set_field "partition_id" (VStrs high_priority_partition) request in
  checked_call "assignHighPriorityDedupPartition" cntl request;;
  mret tt.

(** [CnchWorkerClient::assignRepairGran] *)
Definition assignRepairGran (storage_id : StorageID) (partition_id : string)
    (bucket_number max_event_time : Z) : M unit :=
  ProfileEventsTimer;;
  cntl ← new_Controller;
  let request : Message := ∅ in
  let request := set_field "table" (VPayload (fillStorageID storage_id)) request in
  let request := set_field "partition_id" (VStr partition_id) request in
  let request := set_field "bucket_number" (VInt bucket_number) request in
  let request := set_field "max_event_time" (VInt max_event_time) request in
  checked_call "assignRepairGran" cntl request;;
  mret tt.

(** [CnchWorkerClient::dropDedupWorker] *)
Definition dropDedupWorker (storage_id : StorageID) : M unit :=
  ProfileEventsTimer;;
  cntl ← new_Controller;
  let request : Message := ∅ in
  let request := set_field "table" (VPayload (fillStorageID storage_id)) request in
  checked_call "dropDedupWorker" cntl request;;
  mret tt.

(** [CnchWorkerClient::sendBackupCopyTask]; [0x7fffffff] is 2147483647. *)
Definition sendBackupCopyTask (context : ContextPtr) (backup_id : string)
    (copy_tasks : list Payload) : M nat :=
  ProfileEventsTimer;;
  cntl ← new_Controller;
  let request : Message := ∅ in
  let request := set_field "id" (VStr backup_id) request in
  let request := set_field "backup_task" (VPayloads copy_tasks) request in
  let settings := getSettingsRef context in
  let send_timeout :=
    if Timespan_positive (max_execution_time settings)
    then totalMilliseconds (max_execution_time settings)
    else 2147483647 in
  let cntl := set_timeout_ms send_timeout cntl in
  stub_call_async "sendBackupCopyTask" cntl request;;
  mret (call_id cntl).

(** [CnchWorkerClient::getConsumerStatus] (under [USE_RDKAFKA]) *)
Definition getConsumerStatus (storage_id : StorageID) : M CnchConsumerStatus :=
  ProfileEventsTimer;;
  cntl ← new_Controller;
  let request : Message := ∅ in
  let request := set_field "table" (VPayload (fillStorageID storage_id)) request in
  response ← checked_call "getConsumerStatus" cntl request;
  mret {| cluster := get_str "cluster" response;
          topics := get_strs "topics" response;
          assignment := get_strs "assignments" response;
          assigned_consumers := get_int "consumer_num" response;
          consumer_last_exception := get_str "last_exception" response |}.

(** [CnchWorkerClient::submitMySQLSyncThreadTask] (under [USE_MYSQL]) *)
Definition submitMySQLSyncThreadTask (command : MySQLSyncThreadCommand) : M unit :=
  ProfileEventsTimer;;
  cntl ← new_Controller;
  let request : Message := ∅ in
  let request := set_field "type" (VInt (mysql_type command)) request in
  let request := set_field "database_name" (VStr (database_name command)) request in
  let request := set_field "sync_thread_key" (VStr (sync_thread_key command)) request in
  let request := set_field "rpc_port" (VInt (mysql_rpc_port command)) request in
  let request := set_field "table" (VStr (mysql_table command)) request in
  let request :=
    if mysql_type command =? START_SYNC then
      let request := set_field "create_sqls" (VStrs (create_sqls command)) request in
      let request := set_field "binlog_file" (VStr (binlog_file command)) request in
      let request := set_field "binlog_position" (VInt (binlog_position command)) request in
      let request :=
        set_field "executed_gtid_set" (VStr (executed_gtid_set command)) request in
      set_field "meta_version" (VInt (meta_version command)) request
    else request in
  checked_call "submitMySQLSyncThreadTask" cntl request;;
  mret tt.

(** [CnchWorkerClient::checkMySQLSyncThreadStatus] (under [USE_MYSQL]) *)
Definition checkMySQLSyncThreadStatus (database_name sync_thread : string) : M bool :=
  ProfileEventsTimer;;
  cntl ← new_Controller;
  let request : Message := ∅ in
  let request := set_field "database_name" (VStr database_name) request in
  let request := set_field "sync_thread_key" (VStr sync_thread) request in
  response ← checked_call "checkMySQLSyncThreadStatus" cntl request;
  mret (get_bool "is_running" response).

(** *** The members as one family *)

Local Abbreviation TaskParams :=
  (ManipulationTaskParams.t ServerDataParts MutationCommands StoragePtr).

(** A call of a member of [CnchWorkerClient] with its arguments. *)
Inductive Member : Type :=
  | SubmitManipulationTask (storage : MergeTreeMetaBase) (params : TaskParams) (txn_id : Z)
  | ShutdownManipulationTasks (table_uuid : UUID) (task_ids : list string)
  | TouchManipulationTasks (table_uuid : UUID) (tasks_id : list string)
  | SubmitMvRefreshTask (view : StorageMaterializedView) (params : TaskParams) (txn_id : Z)
  | SendCreateQueries (context : ContextPtr) (create_queries : list string)
      (cnch_table_create_queries : list string)
  | CheckDataParts (context : ContextPtr) (storage : StoragePtr)
      (local_table_name create_query : string) (parts : ServerDataParts)
  | PreloadDataParts (context : ContextPtr) (txn_id : Z) (storage : StoragePtr)
      (create_local_table_query : string) (parts : ServerDataParts)
      (enable_parts_sync_preload : bool) (parts_preload_level submit_ts : Z)
  | DropPartDiskCache (context : ContextPtr) (txn_id : Z) (storage : StoragePtr)
      (create_local_table_query : string) (parts : ServerDataParts)
      (sync drop_vw_disk_cache : bool)
  | DropManifestDiskCache (context : ContextPtr) (storage : StoragePtr) (version : string)
      (sync : bool)
  | SendResources (context : ContextPtr) (resources_to_send : AssignedResources)
      (worker_id : string) (with_mutations : bool)
  | ExecuteDedupTask (context : ContextPtr) (txn_id rpc_port : Z) (storage : StoragePtr)
      (dedup_task : DedupTask UUID DataPart Payload)
  | RemoveWorkerResource (txn_id : Z)
  | BroadcastManifest (context : ContextPtr) (txn_id : Z) (worker_id : string)
      (table : StoragePtr) (parts delete_bitmaps : list Payload)
  | CreateDedupWorker (storage_id : StorageID) (create_table_query : string)
      (host_ports_ : HostWithPorts) (deduper_index : Z)
  | AssignHighPriorityDedupPartition (storage_id : StorageID)
      (high_priority_partition : list string)
  | AssignRepairGran (storage_id : StorageID) (partition_id : string)
      (bucket_number max_event_time : Z)
  | DropDedupWorker (storage_id : StorageID)
  | GetDedupWorkerStatus (storage_id : StorageID)
  | SendBackupCopyTask (context : ContextPtr) (backup_id : string) (copy_tasks : list Payload)
  | GetConsumerStatus (storage_id : StorageID)
  | SubmitKafkaConsumeTask (command : KafkaTaskCommand.t StorageID)
  | SubmitMySQLSyncThreadTask (command : MySQLSyncThreadCommand)
  | CheckMySQLSyncThreadStatus (database_name sync_thread : string).

(** A member run for its effects: its [brpc::CallId] when it returns one. *)
Definition no_call_id {A : Type} (m : M A) : M (option nat) := _ ← m; mret None.

Definition with_call_id (m : M nat) : M (option nat) := id ← m; mret (Some id).

Definition run_member (m : Member) : M (option nat) :=
  match m with
  | SubmitManipulationTask storage params txn_id =>
      no_call_id (submitManipulationTask storage params txn_id)
  | ShutdownManipulationTasks table_uuid task_ids =>
      no_call_id (shutdownManipulationTasks table_uuid task_ids)
  | TouchManipulationTasks table_uuid tasks_id =>
      no_call_id (touchManipulationTasks table_uuid tasks_id)
  | SubmitMvRefreshTask view params txn_id =>
      no_call_id (submitMvRefreshTask view params txn_id)
  | SendCreateQueries context create_queries cnch_table_create_queries =>
      no_call_id (sendCreateQueries context create_queries cnch_table_create_queries)
  | CheckDataParts context storage local_table_name create_query parts =>
      no_call_id (checkDataParts context storage local_table_name create_query parts)
  | PreloadDataParts context txn_id storage query parts sync level submit_ts =>
      with_call_id (preloadDataParts context txn_id storage query parts sync level submit_ts)
  | DropPartDiskCache context txn_id storage query parts sync drop_vw =>
      with_call_id (dropPartDiskCache context txn_id storage query parts sync drop_vw)
  | DropManifestDiskCache context storage version sync =>
      with_call_id (dropManifestDiskCache context storage version sync)
  | SendResources context resources_to_send worker_id with_mutations =>
      with_call_id (sendResources context resources_to_send worker_id with_mutations)
  | ExecuteDedupTask context txn_id rpc_port storage dedup_task =>
      with_call_id (executeDedupTask context txn_id rpc_port storage dedup_task)
  | RemoveWorkerResource txn_id =>
      with_call_id (removeWorkerResource txn_id)
  | BroadcastManifest context txn_id worker_id table parts delete_bitmaps =>
      with_call_id (broadcastManifest context txn_id worker_id table parts delete_bitmaps)
  | CreateDedupWorker storage_id create_table_query host_ports_ deduper_index =>
      no_call_id (createDedupWorker storage_id create_table_query host_ports_ deduper_index)
  | AssignHighPriorityDedupPartition storage_id high_priority_partition =>
      no_call_id (assignHighPriorityDedupPartition storage_id high_priority_partition)
  | AssignRepairGran storage_id partition_id bucket_number max_event_time =>
      no_call_id (assignRepairGran storage_id partition_id bucket_number max_event_time)
  | DropDedupWorker storage_id =>
      no_call_id (dropDedupWorker storage_id)
  | GetDedupWorkerStatus storage_id =>
      no_call_id (getDedupWorkerStatus storage_id)
  | SendBackupCopyTask context backup_id copy_tasks =>
      with_call_id (sendBackupCopyTask context backup_id copy_tasks)
  | GetConsumerStatus storage_id =>
      no_call_id (getConsumerStatus storage_id)
  | SubmitKafkaConsumeTask command =>
      no_call_id (submitKafkaConsumeTask command)
  | SubmitMySQLSyncThreadTask command =>
      no_call_id (submitMySQLSyncThreadTask command)
  | CheckMySQLSyncThreadStatus database_name sync_thread =>
      no_call_id (checkMySQLSyncThreadStatus database_name sync_thread)
  end.

(** How a member goes about its call: it checks something first and may throw
    before the call; it makes a synchronous call and checks the answer; or it
    hands the call to the channel and returns. *)
Inductive Kind : Type :=
  | Guarded
  | Synchronous
  | Asynchronous.

Definition kind (m : Member) : Kind :=
  match m with
  | SubmitManipulationTask _ _ _ | SubmitMvRefreshTask _ _ _ | SubmitKafkaConsumeTask _
  | BroadcastManifest _ _ _ _ _ _ | DropManifestDiskCache _ _ _ _ => Guarded
  | PreloadDataParts _ _ _ _ _ _ _ _ | SendResources _ _ _ _ | ExecuteDedupTask _ _ _ _ _
  | RemoveWorkerResource _ | SendBackupCopyTask _ _ _ => Asynchronous
  | _ => Synchronous
  end.

(** A caller that makes the calls one after the other, going on after an
    exception. *)
Definition run_members (ms : list Member) (w : World Payload) : World Payload :=
  fold_left (fun w m => snd (run_member m w)) ms w.

(** What a synchronous call ends with, given the answer to it: the exception of
    [assertController] first, then that of [checkResponse]. *)
Definition checks (reply : ControllerResult * Message) : option Exception :=
  match assertController (fst reply) with
  | Some e => Some e
  | None => checkResponse (snd reply)
  end.

(** The timeout of the controller of the call issued last. *)
Definition last_timeout (w : World Payload) : option Z :=
  c ← last (rpc_log w); timeout_ms (rpc_cntl c).

(** In [request] the repeated fields [parts_field] and [paths_field] are both
    set and have [n] elements each. *)
Definition parts_with_paths (request : Message) (parts_field paths_field : string) (n : nat)
    : Prop :=
  exists models paths,
    request !! parts_field = Some (VPayloads models)
    /\ request !! paths_field = Some (VStrs paths)
    /\ length models = n /\ length paths = n.

End Rest.

(** An environment whose worker answers every call with [response] and whose
    checks of the controller and of the response give [cntl_error] and
    [response_error]; the rest is as in [sample_environment]. *)
Definition answering (response : gmap string (Value string))
    (cntl_error response_error : option Exception) : Environment :=
  {| Payload := string;
     ContextPtr := Settings;
     MergeTreeMetaBase := unit;
     StorageID := string;
     StoragePtr := string;
     StorageMaterializedView := unit;
     ServerDataParts := list string;
     MutationCommands := string;
     WorkerGroup := list string;
     ControllerResult := unit;
     getSettingsRef := fun settings => settings;
     getCurrentTransactionID := fun _ => 42;
     getPrimaryTransactionID := fun _ => 42;
     getCurrentWorkerGroup := fun _ => ["w0"; "w1"]%string;
     getWorkerIndex := @getWorkerIndex sample_environment;
     workerNum := fun wg => Z.of_nat (length wg);
     getVWName := fun _ => "vw_default"%string;
     getStorageID := fun table => table;
     getStorageUUID := fun table => table;
     fillStorageID := fun storage_id => storage_id;
     fillPartsModelForSend := fun _ parts => String.concat "," parts;
     hasDynamicSubcolumns := fun _ => false;
     object_columns_toString := fun _ => EmptyString;
     writeText := fun commands => commands;
     ManipulationType_UInt32 := @ManipulationType_UInt32 sample_environment;
     toString := fun z => pretty z;
     worker := fun _ _ => (tt, response);
     assertController := fun _ => cntl_error;
     checkResponse := fun _ => response_error;
     DedupWorkerStatus_default := sample_status |}.

(** The other collaborators over [answering]: [std::stoull] knows the
    version ["7"], and [is_passed] is given with the environment. *)
Definition answering_rest (response : gmap string (Value string))
    (cntl_error response_error : option Exception) (is_passed : list bool)
    : @RestEnvironment (answering response cntl_error response_error) :=
  @Build_RestEnvironment (answering response cntl_error response_error)
    string string string (list string)
    (fun _ =>
       {| brpc_data_parts_timeout_ms := mkTimespan 60 60000;
          max_dedup_execution_time := mkTimespan 300 300000;
          preload_send_rpc_max_ms := 5000;
          remote_fs_read_failed_injection := 0 |})
    (fun t => 0 <? totalMilliseconds t)
    (fun uuid : string => uuid)
    (fun host : string => host)
    (fun (_ : string) (parts : list string) => String.concat "," parts)
    (fun (_ : string) (part : string) => part)
    (fun part : string => ("data/" +:+ part)%string)
    (fun _ : string => "db"%string)
    (fun (worker_id : string) (_ : list string) (_ : Settings) (_ : bool) =>
       <["worker_id"%string := VStr worker_id]> ∅)
    (fun s : string =>
       if String.eqb s "7" then inr 7
       else inl (mkException "stoull" (OTHER_ERROR 0)))
    (fun _ : unit => cntl_error)
    (fun _ => is_passed)
    1.

(** A transport failure and a failure reported by the worker. *)
Definition transport_error : Exception := mkException "connection refused" (OTHER_ERROR 2001).

Definition worker_error : Exception := mkException "table not found" (OTHER_ERROR 60).

(** The answer to a [checkDataParts] of two parts. *)
Definition check_response : gmap string (Value string) :=
  <["part_path" := VStrs ["all_1_1_0"; "all_2_2_0"]%string]>
    (<["message" := VStrs [""; "checksum mismatch"]%string]> ∅).

End CnchWorkerClientRest.

(** * Properties *)

(** ** Machine integers *)

Lemma to_size_t_small (x : Z) : 0 <= x < 2 ^ 64 -> to_size_t x = x.
Proof. intros Hx. unfold to_size_t. now apply Z.mod_small. Qed.

Lemma to_long_small (x : Z) : - 2 ^ 63 <= x < 2 ^ 63 -> to_long x = x.
Proof. intros Hx. unfold to_long. rewrite Z.mod_small; lia. Qed.

Lemma to_size_t_add_l (x y : Z) : to_size_t (to_size_t x + y) = to_size_t (x + y).
Proof. unfold to_size_t. now rewrite Zplus_mod_idemp_l. Qed.

(** ** Scheduler.h *)

Section SegmentTaskInstanceProperties.

Import SchedulerH.

Lemma operator_eq_spec (a b : SegmentTaskInstance) :
  operator_eq a b = true <->
  segment_id a = segment_id b /\ parallel_index a = parallel_index b.
Proof.
  unfold operator_eq. rewrite andb_true_iff, !Z.eqb_eq. reflexivity.
Qed.

Lemma operator_eq_leibniz (a b : SegmentTaskInstance) :
  operator_eq a b = true <-> a = b.
Proof.
  rewrite operator_eq_spec. destruct a, b; simpl. split.
  - intros [-> ->]. reflexivity.
  - intros [= -> ->]. split; reflexivity.
Qed.

Lemma Hash_shift_add (a : SegmentTaskInstance) :
  Hash a = to_size_t (Z.shiftl (segment_id a) 13 + parallel_index a).
Proof. unfold Hash. apply to_size_t_add_l. Qed.

(** C4. Two task instances compare equal exactly when their [segment_id]s
    and their [parallel_index]es are equal; equal instances have equal
    hashes; and the hash is [(segment_id << 13) + parallel_index] computed in
    [size_t]. *)
Theorem SegmentTaskInstance_equality_and_hash (a b : SegmentTaskInstance) :
  (operator_eq a b = true <->
     segment_id a = segment_id b /\ parallel_index a = parallel_index b)
  /\ (operator_eq a b = true -> Hash a = Hash b)
  /\ Hash a = to_size_t (Z.shiftl (segment_id a) 13 + parallel_index a).
Proof.
  split; [apply operator_eq_spec|]. split.
  - intros Heq. apply operator_eq_leibniz in Heq. now subst.
  - apply Hash_shift_add.
Qed.

Lemma SegmentTaskInstance_equality_and_hash_witness :
  Hash (mkSegmentTaskInstance 3 1) = Hash (mkSegmentTaskInstance (1 + 2) (5 - 4))
  /\ Hash (mkSegmentTaskInstance 3 1) = 24577.
Proof.
  split.
  - apply (proj1 (proj2 (SegmentTaskInstance_equality_and_hash
                           (mkSegmentTaskInstance 3 1)
                           (mkSegmentTaskInstance (1 + 2) (5 - 4))))).
    reflexivity.
  - reflexivity.
Defined.

(** Without overflow the hash is the plain number. *)
Lemma Hash_no_overflow (a : SegmentTaskInstance) :
  0 <= segment_id a -> 0 <= parallel_index a ->
  segment_id a * 8192 + parallel_index a < 2 ^ 64 ->
  Hash a = segment_id a * 8192 + parallel_index a.
Proof.
  intros Hs Hp Hlt.
  rewrite Hash_shift_add.
  rewrite Z.shiftl_mul_pow2 by lia. apply to_size_t_small. lia.
Qed.

End SegmentTaskInstanceProperties.

Section SchedulerProperties.

Import SchedulerH.

Context `{Collaborators}.

Implicit Types (this s : Scheduler) (task t : SegmentTask) (p : PlanSegment).
Implicit Types (r : NodeSelectorResult) (op : SchedulerOp) (ops : list SchedulerOp).

(** *** [emplace] *)

Lemma emplace_absent {V : Type} (k : Z) (v : V) (m : gmap Z V) :
  m !! k = None -> emplace k v m = (v, <[k := v]> m).
Proof. intros Hk. unfold emplace. now rewrite Hk. Qed.

Lemma emplace_present {V : Type} (k : Z) (v old : V) (m : gmap Z V) :
  m !! k = Some old -> emplace k v m = (old, m).
Proof. intros Hk. unfold emplace. now rewrite Hk. Qed.

Lemma emplace_keeps {V : Type} (k k' : Z) (v old : V) (m : gmap Z V) :
  m !! k' = Some old -> snd (emplace k v m) !! k' = Some old.
Proof.
  intros Hk'. unfold emplace. destruct (m !! k) as [w|] eqn:Hk; simpl; [exact Hk'|].
  rewrite lookup_insert_ne; [exact Hk'|]. intros ->. congruence.
Qed.

(** *** [selectNodes] *)

Lemma selectNodes_unfold p t s :
  selectNodes p t s =
  (fst (emplace (task_segment_id t)
          (fst (select p (has_table_scan_or_value t) (node_selector s)))
          (node_selector_result s)),
   with_selection s
     (snd (select p (has_table_scan_or_value t) (node_selector s)))
     (snd (emplace (task_segment_id t)
             (fst (select p (has_table_scan_or_value t) (node_selector s)))
             (node_selector_result s)))).
Proof.
  unfold selectNodes.
  destruct (select p (has_table_scan_or_value t) (node_selector s)) as [selected ns].
  simpl. destruct (emplace _ _ _) as [res cache]. reflexivity.
Qed.

Lemma selectNodes_first p t s :
  node_selector_result s !! task_segment_id t = None ->
  fst (selectNodes p t s) = fst (select p (has_table_scan_or_value t) (node_selector s))
  /\ node_selector_result (snd (selectNodes p t s)) !! task_segment_id t
     = Some (fst (selectNodes p t s)).
Proof.
  intros Hnone. rewrite selectNodes_unfold. simpl.
  rewrite (emplace_absent _ _ _ Hnone). simpl. split; [reflexivity|].
  apply lookup_insert_eq.
Qed.

Lemma selectNodes_again p t s r :
  node_selector_result s !! task_segment_id t = Some r ->
  selectNodes p t s =
  (r, with_selection s (snd (select p (has_table_scan_or_value t) (node_selector s)))
        (node_selector_result s)).
Proof.
  intros Hsome. rewrite selectNodes_unfold.
  now rewrite (emplace_present _ _ _ _ Hsome).
Qed.

(** A cached placement is never replaced or dropped. *)
Lemma run_op_keeps_cached op s k r :
  node_selector_result s !! k = Some r ->
  node_selector_result (run_op op s) !! k = Some r.
Proof.
  intros Hk. destruct op as [func| |p|p sel t|p t]; simpl; try exact Hk.
  rewrite selectNodes_unfold. simpl. now apply emplace_keeps.
Qed.

Lemma run_ops_keeps_cached ops s k r :
  node_selector_result s !! k = Some r ->
  node_selector_result (run_ops ops s) !! k = Some r.
Proof.
  revert s. induction ops as [|op ops IH]; intros s Hk; [exact Hk|].
  simpl. apply IH. now apply run_op_keeps_cached.
Qed.

(** C1. The first [selectNodes] for a segment stores the selector's answer in
    [node_selector_result]; whatever the scheduler does afterwards, every
    later [selectNodes] for that segment returns exactly that answer. *)
Theorem selectNodes_idempotent_per_segment p t s ops p' t' :
  node_selector_result s !! task_segment_id t = None ->
  task_segment_id t' = task_segment_id t ->
  fst (selectNodes p t s) = fst (select p (has_table_scan_or_value t) (node_selector s))
  /\ node_selector_result (snd (selectNodes p t s)) !! task_segment_id t
     = Some (fst (selectNodes p t s))
  /\ fst (selectNodes p' t' (run_ops ops (snd (selectNodes p t s))))
     = fst (selectNodes p t s).
Proof.
  intros Hnone Hid.
  destruct (selectNodes_first p t s Hnone) as [Hres Hcache].
  split; [exact Hres|]. split; [exact Hcache|].
  apply (run_ops_keeps_cached ops) in Hcache.
  rewrite <- Hid in Hcache.
  now rewrite (selectNodes_again _ _ _ _ Hcache).
Qed.

(** C2, as the code has it. For a segment already in [node_selector_result],
    [selectNodes] returns the cached placement and leaves the cache and every
    other member but [node_selector] as they were; [select] is still called
    once, and its answer is dropped. *)
Theorem selectNodes_cached_segment p t s r :
  node_selector_result s !! task_segment_id t = Some r ->
  fst (selectNodes p t s) = r
  /\ node_selector_result (snd (selectNodes p t s)) = node_selector_result s
  /\ node_selector (snd (selectNodes p t s))
     = snd (select p (has_table_scan_or_value t) (node_selector s))
  /\ snd (selectNodes p t s)
     = with_selection s (node_selector (snd (selectNodes p t s))) (node_selector_result s).
Proof.
  intros Hsome. rewrite selectNodes_unfold. simpl.
  rewrite (emplace_present _ _ _ _ Hsome). simpl.
  repeat split; reflexivity.
Qed.

(** *** The constructor *)

Lemma run_op_query_expiration_ms op s :
  query_expiration_ms (run_op op s) = query_expiration_ms s.
Proof.
  destruct op as [func| |p|p sel t|p t]; simpl; try reflexivity.
  now rewrite selectNodes_unfold.
Qed.

Lemma run_ops_query_expiration_ms ops s :
  query_expiration_ms (run_ops ops s) = query_expiration_ms s.
Proof.
  revert s. induction ops as [|op ops IH]; intros s; [reflexivity|].
  simpl. rewrite IH. apply run_op_query_expiration_ms.
Qed.

(** C5. The deadline is computed once, in the constructor, as
    [tv_sec * 1000 + tv_nsec / 1000000] of the query's expiration timestamp
    (for a timestamp whose milliseconds fit a [long]), and no operation of
    the header changes it afterwards. *)
Theorem query_expiration_ms_computed_once
    (query_id_ : string) (query_context_ : ContextPtr)
    (cluster_nodes_ : ClusterNodes AddressInfo ClusterNodesRest)
    (dag_graph_ptr_ : DAGGraph) (batch_schedule_ : bool) ops :
  let ts := getQueryExpirationTimeStamp query_context_ in
  let this := Scheduler_ctor query_id_ query_context_ cluster_nodes_ dag_graph_ptr_
                batch_schedule_ in
  0 <= tv_sec ts ->
  0 <= tv_nsec ts ->
  tv_sec ts * 1000 + tv_nsec ts / 1000000 < 2 ^ 63 ->
  query_expiration_ms this = tv_sec ts * 1000 + tv_nsec ts / 1000000
  /\ query_expiration_ms (run_ops ops this) = query_expiration_ms this.
Proof.
  intros ts this Hsec Hnsec Hfit. split; [|apply run_ops_query_expiration_ms].
  subst this. simpl. fold ts.
  rewrite Z.quot_div_nonneg by lia.
  assert (0 <= tv_nsec ts / 1000000) by (apply Z.div_pos; lia).
  rewrite (to_long_small (tv_sec ts * 1000)) by lia.
  rewrite to_long_small by lia.
  apply to_size_t_small. lia.
Qed.

(** C7. The constructor appends the local address to [all_workers] as one
    more worker of type [Local]: the list is the supplied one followed by
    exactly that entry. *)
Theorem ctor_appends_local_worker
    (query_id_ : string) (query_context_ : ContextPtr)
    (cluster_nodes_ : ClusterNodes AddressInfo ClusterNodesRest)
    (dag_graph_ptr_ : DAGGraph) (batch_schedule_ : bool) :
  let this := Scheduler_ctor query_id_ query_context_ cluster_nodes_ dag_graph_ptr_
                batch_schedule_ in
  all_workers (cluster_nodes this)
  = all_workers cluster_nodes_
      ++ [mkWorkerNode (getLocalAddress query_context_) Local EmptyString]
  /\ length (all_workers (cluster_nodes this)) = S (length (all_workers cluster_nodes_))
  /\ local_address this = getLocalAddress query_context_.
Proof.
  simpl. split; [reflexivity|]. split; [|reflexivity].
  rewrite length_app. simpl. lia.
Qed.

End SchedulerProperties.

Section SchedulerExamples.

Import SchedulerH.

Local Abbreviation selectNodes := (@selectNodes counting_collaborators).
Local Abbreviation run_ops := (@run_ops counting_collaborators).
Local Abbreviation OpSelectNodes := (@OpSelectNodes counting_collaborators).
Local Abbreviation OpOnQueryFinished := (@OpOnQueryFinished counting_collaborators).
Local Abbreviation OpSetSendPlanSegmentToAddress :=
  (@OpSetSendPlanSegmentToAddress counting_collaborators).

Lemma selectNodes_idempotent_per_segment_witness :
  fst (selectNodes 8 sample_task
         (run_ops [OpSelectNodes 9 (mkSegmentTask 3 false); OpOnQueryFinished]
            (snd (selectNodes 5 sample_task sample_scheduler))))
  = [5].
Proof.
  destruct (selectNodes_idempotent_per_segment (H := counting_collaborators)
              5 sample_task sample_scheduler
              [OpSelectNodes 9 (mkSegmentTask 3 false); OpOnQueryFinished]
              8 sample_task)
    as [_ [_ Hlater]]; [vm_compute; reflexivity | reflexivity |].
  rewrite Hlater. vm_compute. reflexivity.
Defined.

(** C2, as stated, fails: with a selector that counts its calls, a second
    [selectNodes] for a cached segment returns the cached placement but does
    call [select] again, so the scheduler is not left as it was. *)
Lemma selectNodes_cached_segment_calls_select :
  ~ (forall (s : @Scheduler counting_collaborators) (p : Z) (t : SegmentTask) (r : list Z),
       node_selector_result s !! task_segment_id t = Some r ->
       selectNodes p t s = (r, s)).
Proof.
  intros Hclaim.
  specialize (Hclaim (snd (selectNodes 5 sample_task sample_scheduler)) 5 sample_task [5]).
  assert (Hcached :
    node_selector_result (snd (selectNodes 5 sample_task sample_scheduler))
      !! task_segment_id sample_task = Some [5]) by (vm_compute; reflexivity).
  specialize (Hclaim Hcached).
  apply (f_equal (fun x => node_selector (snd x))) in Hclaim.
  vm_compute in Hclaim. discriminate Hclaim.
Qed.

Lemma selectNodes_cached_segment_witness :
  fst (selectNodes 8 sample_task (snd (selectNodes 5 sample_task sample_scheduler))) = [5]
  /\ node_selector
       (snd (selectNodes 8 sample_task (snd (selectNodes 5 sample_task sample_scheduler))))
     = 2%nat.
Proof.
  destruct (selectNodes_cached_segment (H := counting_collaborators) 8 sample_task
              (snd (selectNodes 5 sample_task sample_scheduler)) [5])
    as (Hresult & _ & Hselector & _); [vm_compute; reflexivity|].
  split; [exact Hresult|]. rewrite Hselector. vm_compute. reflexivity.
Defined.

Lemma query_expiration_ms_computed_once_witness :
  query_expiration_ms
    (run_ops [OpSelectNodes 5 sample_task; OpSetSendPlanSegmentToAddress tt] sample_scheduler)
  = 1700000000123.
Proof.
  destruct (query_expiration_ms_computed_once (H := counting_collaborators)
              "query-1" (mkTimespec 1700000000 123456789)
              (mkClusterNodes [mkWorkerNode "10.0.0.1:9000"%string Remote "worker-0"%string] tt)
              tt false [OpSelectNodes 5 sample_task; OpSetSendPlanSegmentToAddress tt])
    as [Hms Hkept]; [now vm_compute | now vm_compute | now vm_compute |].
  unfold sample_scheduler. rewrite Hkept, Hms. reflexivity.
Defined.

End SchedulerExamples.

(** ** CnchWorkerClient.cpp *)

Section ClientProperties.

Import CnchWorkerClient.

Context `{Environment}.

Local Abbreviation TaskParams :=
  (ManipulationTaskParams.t ServerDataParts MutationCommands StoragePtr).

(** Running the client's monad. *)
Lemma bind_run {A B : Type} (m : M A) (f : A -> M B) (w : World Payload) :
  (m ≫= f) w = match m w with
               | (inl e, w') => (inl e, w')
               | (inr a, w') => f a w'
               end.
Proof. reflexivity. Qed.

Ltac run_client :=
  repeat (rewrite bind_run; simpl);
  unfold throw_if, throw, mret, M_ret; simpl.

(** *** The rpc port checks *)

Lemma submitManipulationTask_without_port
    (storage : MergeTreeMetaBase) (params : TaskParams) (txn_id : Z) (w : World Payload) :
  ManipulationTaskParams.rpc_port params = 0 ->
  raises_logical_error_before_rpc (submitManipulationTask storage params txn_id) w.
Proof.
  intros Hport. unfold raises_logical_error_before_rpc, submitManipulationTask.
  rewrite Hport. run_client. eexists _, _. split; [reflexivity|]. split; reflexivity.
Qed.

Lemma submitMvRefreshTask_without_port
    (view : StorageMaterializedView) (params : TaskParams) (txn_id : Z) (w : World Payload) :
  ManipulationTaskParams.rpc_port params = 0 ->
  raises_logical_error_before_rpc (submitMvRefreshTask view params txn_id) w.
Proof.
  intros Hport. unfold raises_logical_error_before_rpc, submitMvRefreshTask.
  rewrite Hport. run_client. eexists _, _. split; [reflexivity|]. split; reflexivity.
Qed.

Lemma submitKafkaConsumeTask_without_port
    (command : KafkaTaskCommand.t StorageID) (w : World Payload) :
  KafkaTaskCommand.rpc_port command = 0 ->
  raises_logical_error_before_rpc (submitKafkaConsumeTask command) w.
Proof.
  intros Hport. unfold raises_logical_error_before_rpc, submitKafkaConsumeTask.
  rewrite Hport. run_client. eexists _, _. split; [reflexivity|]. split; reflexivity.
Qed.

(** With a port the task does go out: the check is what stops it. *)
Lemma submitManipulationTask_with_port
    (storage : MergeTreeMetaBase) (params : TaskParams) (txn_id : Z) (w : World Payload) :
  ManipulationTaskParams.rpc_port params <> 0 ->
  exists c, rpc_log (snd (submitManipulationTask storage params txn_id w)) = rpc_log w ++ [c]
            /\ rpc_method c = "submitManipulationTask"%string.
Proof.
  intros Hport. apply Z.eqb_neq in Hport. unfold submitManipulationTask.
  rewrite Hport. run_client. unfold stub_call. simpl.
  eexists. split.
  - destruct (assertController _); simpl; [reflexivity|].
    destruct (checkResponse _); reflexivity.
  - reflexivity.
Qed.

(** C3. With [rpc_port = 0] each of [submitManipulationTask],
    [submitMvRefreshTask] and [submitKafkaConsumeTask] throws a logical
    error, and has issued no RPC when it does. *)
Theorem unset_rpc_port_raises_before_rpc
    (storage : MergeTreeMetaBase) (view : StorageMaterializedView) (params : TaskParams)
    (txn_id : Z) (command : KafkaTaskCommand.t StorageID) (w : World Payload) :
  (ManipulationTaskParams.rpc_port params = 0 ->
     raises_logical_error_before_rpc (submitManipulationTask storage params txn_id) w
     /\ raises_logical_error_before_rpc (submitMvRefreshTask view params txn_id) w)
  /\ (KafkaTaskCommand.rpc_port command = 0 ->
        raises_logical_error_before_rpc (submitKafkaConsumeTask command) w).
Proof.
  split.
  - intros Hport. split.
    + now apply submitManipulationTask_without_port.
    + now apply submitMvRefreshTask_without_port.
  - apply submitKafkaConsumeTask_without_port.
Qed.

(** *** [broadcastManifest] *)

Lemma broadcastManifest_run (context : ContextPtr) (txn_id : Z) (worker_id : string)
    (table : StoragePtr) (parts delete_bitmaps : list Payload) (w : World Payload) :
  let current_wg := getCurrentWorkerGroup context in
  (workerNum current_wg <= getWorkerIndex current_wg worker_id ->
     exists e, broadcastManifest context txn_id worker_id table parts delete_bitmaps w
               = (inl e, {| rpc_log := rpc_log w;
                            profile_timers := S (profile_timers w);
                            controllers := S (controllers w) |})
               /\ code e = LOGICAL_ERROR)
  /\ (getWorkerIndex current_wg worker_id < workerNum current_wg ->
        exists c, broadcastManifest context txn_id worker_id table parts delete_bitmaps w
                  = (inr (controllers w),
                     {| rpc_log := rpc_log w ++ [c];
                        profile_timers := S (profile_timers w);
                        controllers := S (controllers w) |})
                  /\ rpc_method c = "broadcastManifest"%string
                  /\ rpc_async c = true).
Proof.
  intros current_wg. split; intros Hcmp; unfold broadcastManifest; fold current_wg.
  - apply Z.leb_le in Hcmp. run_client. rewrite Hcmp. simpl.
    eexists. split; reflexivity.
  - apply Z.leb_gt in Hcmp. run_client. rewrite Hcmp. run_client.
    eexists. split; [reflexivity|]. split; reflexivity.
Qed.

(** C8. [broadcastManifest] throws a logical error, with no RPC issued,
    whenever the worker's index is not below the number of workers of the
    current group; the broadcast goes out only when [index < num_workers]. *)
Theorem broadcastManifest_checks_worker_index (context : ContextPtr) (txn_id : Z)
    (worker_id : string) (table : StoragePtr) (parts delete_bitmaps : list Payload)
    (w : World Payload) :
  let current_wg := getCurrentWorkerGroup context in
  let run := broadcastManifest context txn_id worker_id table parts delete_bitmaps in
  (workerNum current_wg <= getWorkerIndex current_wg worker_id ->
     raises_logical_error_before_rpc run w)
  /\ (rpc_log (snd (run w)) <> rpc_log w ->
        getWorkerIndex current_wg worker_id < workerNum current_wg)
  /\ (getWorkerIndex current_wg worker_id < workerNum current_wg ->
        exists c, rpc_log (snd (run w)) = rpc_log w ++ [c]
                  /\ rpc_method c = "broadcastManifest"%string).
Proof.
  intros current_wg run.
  destruct (broadcastManifest_run context txn_id worker_id table parts delete_bitmaps w)
    as [Hbad Hgood]. fold current_wg in Hbad, Hgood.
  split; [|split].
  - intros Hcmp. destruct (Hbad Hcmp) as (e & Hrun & Hcode).
    exists e. eexists. split; [exact Hrun|]. split; [exact Hcode|reflexivity].
  - intros Hlog.
    destruct (Z.lt_ge_cases (getWorkerIndex current_wg worker_id) (workerNum current_wg))
      as [Hlt|Hge]; [exact Hlt|].
    destruct (Hbad Hge) as (e & Hrun & _). subst run. rewrite Hrun in Hlog.
    now contradiction Hlog.
  - intros Hcmp. destruct (Hgood Hcmp) as (c & Hrun & Hmethod & _).
    exists c. subst run. rewrite Hrun. split; [reflexivity|exact Hmethod].
Qed.

(** *** [sendCreateQueries] *)

(** C9. The [timeout] field of the request sent by [sendCreateQueries] is
    [max_execution_time] in seconds when that is not zero, and 3600 when it
    is. *)
Theorem sendCreateQueries_session_timeout (context : ContextPtr)
    (create_queries cnch_table_create_queries : list string) (w : World Payload) :
  let seconds := totalSeconds (max_execution_time (getSettingsRef context)) in
  exists c,
    rpc_log (snd (sendCreateQueries context create_queries cnch_table_create_queries w))
    = rpc_log w ++ [c]
    /\ rpc_method c = "sendCreateQuery"%string
    /\ (seconds <> 0 -> rpc_request c !! "timeout"%string = Some (VInt seconds))
    /\ (seconds = 0 -> rpc_request c !! "timeout"%string = Some (VInt 3600)).
Proof.
  intros seconds. unfold sendCreateQueries. fold seconds. run_client.
  unfold stub_call. simpl. eexists. split; [|split].
  - destruct (assertController _); simpl; [reflexivity|].
    destruct (checkResponse _); reflexivity.
  - reflexivity.
  - simpl. unfold set_field. split; intros Hs.
    + apply Z.eqb_neq in Hs. rewrite Hs. now simplify_map_eq.
    + rewrite Hs. now simplify_map_eq.
Qed.

(** *** [getDedupWorkerStatus] *)

(** C10. When the call succeeds and the response says [is_active = false],
    [getDedupWorkerStatus] returns a default status with [is_active] false:
    nothing else of the response is copied. When it says [true] the other
    fields are the response's. *)
Theorem getDedupWorkerStatus_inactive_keeps_defaults (storage_id : StorageID)
    (w : World Payload) :
  let request := set_field "table" (VPayload (fillStorageID storage_id)) ∅ in
  let call := mkRpcCall "getDedupWorkerStatus" (mkController (controllers w) None) request
                false in
  let response := snd (worker (rpc_log w) call) in
  assertController (fst (worker (rpc_log w) call)) = None ->
  checkResponse response = None ->
  exists status,
    fst (getDedupWorkerStatus storage_id w) = inr status
    /\ is_active status = get_bool "is_active" response
    /\ (get_bool "is_active" response = false ->
          status = set_is_active false DedupWorkerStatus_default)
    /\ (get_bool "is_active" response = true ->
          create_time status = get_int "create_time" response
          /\ total_schedule_cnt status = get_int "total_schedule_cnt" response
          /\ total_dedup_cnt status = get_int "total_dedup_cnt" response
          /\ last_exception status = get_str "last_exception" response
          /\ last_exception_time status = get_int "last_exception_time" response
          /\ dedup_tasks_progress status
             = dedup_tasks_progress DedupWorkerStatus_default
                 ++ get_strs "dedup_tasks_progress" response).
Proof.
  intros request call response Hcntl Hresp.
  unfold getDedupWorkerStatus. run_client. unfold stub_call. simpl.
  fold request. fold call. rewrite Hcntl. simpl. fold response. rewrite Hresp. simpl.
  destruct (get_bool "is_active" response) eqn:Hactive; simpl.
  - eexists. split; [reflexivity|]. simpl. split; [reflexivity|].
    split; [discriminate|]. intros _. repeat split.
  - eexists. split; [reflexivity|]. simpl. split; [reflexivity|].
    split; [reflexivity|discriminate].
Qed.

End ClientProperties.

Section ClientExamples.

Import CnchWorkerClient.

Local Abbreviation submitManipulationTask := (@submitManipulationTask sample_environment).
Local Abbreviation submitMvRefreshTask := (@submitMvRefreshTask sample_environment).
Local Abbreviation submitKafkaConsumeTask := (@submitKafkaConsumeTask sample_environment).
Local Abbreviation broadcastManifest := (@broadcastManifest sample_environment).
Local Abbreviation sendCreateQueries := (@sendCreateQueries sample_environment).
Local Abbreviation getDedupWorkerStatus := (@getDedupWorkerStatus sample_environment).
Local Abbreviation raises_logical_error_before_rpc :=
  (@raises_logical_error_before_rpc sample_environment).

Lemma unset_rpc_port_raises_before_rpc_witness :
  raises_logical_error_before_rpc (submitManipulationTask tt (sample_params 0) 42)
    empty_world
  /\ raises_logical_error_before_rpc (submitMvRefreshTask tt (sample_params 0) 42)
       empty_world
  /\ raises_logical_error_before_rpc (submitKafkaConsumeTask (sample_command 0))
       empty_world.
Proof.
  destruct (unset_rpc_port_raises_before_rpc (H := sample_environment)
              tt tt (sample_params 0) 42 (sample_command 0) empty_world) as [Hparams Hcommand].
  destruct Hparams as [Hmanipulation Hrefresh]; [reflexivity|].
  split; [exact Hmanipulation|]. split; [exact Hrefresh|].
  apply Hcommand. reflexivity.
Defined.

(** With a port set, the same parameters reach the worker. *)
Example submitManipulationTask_sample_sent :
  map rpc_method (rpc_log (snd (submitManipulationTask tt (sample_params 9010) 42 empty_world)))
  = ["submitManipulationTask"%string].
Proof. vm_compute. reflexivity. Qed.

Lemma broadcastManifest_checks_worker_index_witness :
  raises_logical_error_before_rpc
    (broadcastManifest (sample_settings 0) 42 "w7" "db.t" [] []) empty_world.
Proof.
  apply (broadcastManifest_checks_worker_index (H := sample_environment)
           (sample_settings 0) 42 "w7" "db.t" [] [] empty_world).
  vm_compute. discriminate.
Defined.

Example broadcastManifest_sample_sent :
  map rpc_method
    (rpc_log (snd (broadcastManifest (sample_settings 0) 42 "w1" "db.t" [] [] empty_world)))
  = ["broadcastManifest"%string].
Proof. vm_compute. reflexivity. Qed.

Lemma sendCreateQueries_session_timeout_witness :
  exists c,
    rpc_log (snd (sendCreateQueries (sample_settings 0) ["CREATE TABLE a"%string] []
                    empty_world)) = [c]
    /\ rpc_request c !! "timeout"%string = Some (VInt 3600).
Proof.
  destruct (sendCreateQueries_session_timeout (H := sample_environment)
              (sample_settings 0) ["CREATE TABLE a"%string] [] empty_world)
    as (c & Hlog & _ & _ & Hzero).
  exists c. split; [exact Hlog|]. apply Hzero. reflexivity.
Defined.

Example sendCreateQueries_sample_timeouts :
  map (fun c => rpc_request c !! "timeout"%string)
    (rpc_log (snd (sendCreateQueries (sample_settings 120) [] [] empty_world)))
  = [Some (VInt 120)].
Proof. vm_compute. reflexivity. Qed.

Lemma getDedupWorkerStatus_inactive_keeps_defaults_witness :
  exists status,
    fst (getDedupWorkerStatus "db.t" empty_world) = inr status
    /\ status = sample_status.
Proof.
  destruct (getDedupWorkerStatus_inactive_keeps_defaults (H := sample_environment)
              "db.t" empty_world) as (status & Hrun & _ & Hinactive & _);
    [reflexivity | reflexivity |].
  exists status. split; [exact Hrun|]. apply Hinactive. vm_compute. reflexivity.
Defined.

End ClientExamples.

(** ** The scheduling loop *)

Local Open Scope nat_scope.

(** *** Lists *)

Section ListFacts.

Context {A : Type}.

Lemma filter_ext_in (P Q : A -> Prop) `{!forall x, Decision (P x), !forall x, Decision (Q x)}
    (l : list A) :
  (forall x, x ∈ l -> P x <-> Q x) -> filter P l = filter Q l.
Proof.
  induction l as [|a l IH]; intros Hiff; [reflexivity|].
  rewrite !filter_cons.
  assert (Ha : P a <-> Q a) by (apply Hiff; left).
  rewrite IH by (intros x Hx; apply Hiff; now right).
  destruct (decide (P a)) as [HP|HP], (decide (Q a)) as [HQ|HQ]; tauto.
Qed.

Lemma length_filter_without `{!EqDecision A} (P : A -> Prop) `{!forall x, Decision (P x)}
    (l : list A) (a : A) :
  NoDup l -> a ∈ l -> P a ->
  S (length (filter (fun x => x <> a /\ P x) l)) = length (filter P l).
Proof.
  induction l as [|b l IH]; intros Hnd Hin HP; [now apply elem_of_nil in Hin|].
  apply NoDup_cons in Hnd as [Hb Hnd]. rewrite !filter_cons.
  destruct (decide (b = a)) as [->|Hne].
  - rewrite decide_False by tauto. rewrite decide_True by exact HP. simpl. f_equal. f_equal.
    apply filter_ext_in. intros x Hx. split; [tauto|]. intros HPx. split; [|exact HPx].
    intros ->. contradiction.
  - apply elem_of_cons in Hin as [->|Hin]; [contradiction|].
    destruct (decide (P b)) as [HPb|HPb].
    + rewrite decide_True by tauto. simpl. f_equal. now apply IH.
    + rewrite decide_False by tauto. now apply IH.
Qed.

Lemma length_filter_not_elem `{!EqDecision A} (P : A -> Prop) `{!forall x, Decision (P x)}
    (l : list A) (a : A) :
  a ∉ l -> filter (fun x => x <> a /\ P x) l = filter P l.
Proof.
  intros Hnot. apply filter_ext_in. intros x Hx. split; [tauto|].
  intros HPx. split; [|exact HPx]. intros ->. contradiction.
Qed.

Lemma filter_tagged `{!EqDecision A} {B : Type} (b : B) (l : list A) (a : A) :
  NoDup l ->
  filter (fun e : A * B => e.1 = a) ((fun x => (x, b)) <$> l)
  = if decide (a ∈ l) then [(a, b)] else [].
Proof.
  induction l as [|x l IH]; intros Hnd; [reflexivity|].
  apply NoDup_cons in Hnd as [Hx Hnd]. rewrite fmap_cons, filter_cons. simpl.
  rewrite (IH Hnd).
  destruct (decide (x = a)) as [->|Hne].
  - rewrite (decide_True (P := a ∈ a :: l)) by left.
    now rewrite (decide_False (P := a ∈ l)) by exact Hx.
  - destruct (decide (a ∈ l)) as [Hin|Hin].
    + now rewrite (decide_True (P := a ∈ x :: l)) by now right.
    + rewrite (decide_False (P := a ∈ x :: l)); [reflexivity|].
      intros [->|?]%elem_of_cons; contradiction.
Qed.

Lemma least_ranked (rank : A -> nat) (l : list A) :
  l <> [] -> exists m, m ∈ l /\ forall x, x ∈ l -> rank m <= rank x.
Proof.
  induction l as [|a l IH]; intros Hne; [contradiction|].
  destruct l as [|b l].
  - exists a. split; [left|]. intros x [->|Hx%elem_of_nil]%elem_of_cons; [lia|contradiction].
  - destruct IH as (m & Hm & Hleast); [discriminate|].
    destruct (le_lt_dec (rank a) (rank m)) as [Hle|Hlt].
    + exists a. split; [left|]. intros x [->|Hx]%elem_of_cons; [lia|].
      specialize (Hleast x Hx). lia.
    + exists m. split; [now right|]. intros x [->|Hx]%elem_of_cons; [lia|].
      now apply Hleast.
Qed.

Lemma NoDup_fmap_inj_on {B : Type} (f : A -> B) (l : list A) (x y : A) :
  NoDup (f <$> l) -> x ∈ l -> y ∈ l -> f x = f y -> x = y.
Proof.
  induction l as [|a l IH]; intros Hnd Hx Hy Heq; [now apply elem_of_nil in Hx|].
  rewrite fmap_cons in Hnd. apply NoDup_cons in Hnd as [Hfresh Hnd].
  apply elem_of_cons in Hx as [->|Hx]; apply elem_of_cons in Hy as [->|Hy].
  - reflexivity.
  - exfalso. apply Hfresh. rewrite Heq. now apply list_elem_of_fmap_2.
  - exfalso. apply Hfresh. rewrite <- Heq. now apply list_elem_of_fmap_2.
  - now apply IH.
Qed.

Lemma filter_all (P : A -> Prop) `{!forall x, Decision (P x)} (l : list A) :
  (forall x, x ∈ l -> P x) -> filter P l = l.
Proof.
  induction l as [|a l IH]; intros Hall; [reflexivity|].
  rewrite filter_cons_True by (apply Hall; left).
  f_equal. apply IH. intros x Hx. apply Hall. now right.
Qed.

Lemma foldr_insert_lookup {B : Type} (key : A -> nat) (val : A -> B) (d : nat -> B)
    (l : list A) (a : A) :
  NoDup (key <$> l) -> a ∈ l ->
  foldr (fun x f => <[key x := val x]> f) d l (key a) = val a.
Proof.
  induction l as [|b l IH]; intros Hnd Ha; [now apply elem_of_nil in Ha|].
  rewrite fmap_cons in Hnd. apply NoDup_cons in Hnd as [Hfresh Hnd]. simpl.
  apply elem_of_cons in Ha as [->|Ha]; [apply fn_lookup_insert|].
  rewrite fn_lookup_insert_ne; [now apply IH|].
  intros Heq. apply Hfresh. rewrite Heq. now apply list_elem_of_fmap_2.
Qed.

Lemma sum_list_with_le (f g : A -> nat) (l : list A) :
  (forall x, x ∈ l -> f x <= g x) -> sum_list_with f l <= sum_list_with g l.
Proof.
  induction l as [|a l IH]; intros Hle; simpl; [lia|].
  pose proof (Hle a ltac:(left)). pose proof (IH (fun x Hx => Hle x ltac:(now right))). lia.
Qed.

Lemma sum_list_with_lt (f g : A -> nat) (l : list A) (x : A) :
  (forall y, y ∈ l -> f y <= g y) -> x ∈ l -> f x < g x ->
  sum_list_with f l < sum_list_with g l.
Proof.
  induction l as [|a l IH]; intros Hle Hx Hlt; [now apply elem_of_nil in Hx|]. simpl.
  pose proof (Hle a ltac:(left)) as Ha.
  assert (Hrest : forall y, y ∈ l -> f y <= g y) by (intros y Hy; apply Hle; now right).
  pose proof (sum_list_with_le f g l Hrest).
  apply elem_of_cons in Hx as [->|Hx]; [lia|]. specialize (IH Hrest Hx Hlt). lia.
Qed.

Lemma sum_list_with_bound (f : A -> nat) (l : list A) (c : nat) :
  (forall x, x ∈ l -> f x <= c) -> sum_list_with f l <= length l * c.
Proof.
  induction l as [|a l IH]; intros Hle; simpl; [lia|].
  pose proof (Hle a ltac:(left)). pose proof (IH (fun x Hx => Hle x ltac:(now right))). lia.
Qed.

Lemma filter_none (P : A -> Prop) `{!forall x, Decision (P x)} (l : list A) :
  (forall x, x ∈ l -> ~ P x) -> filter P l = [].
Proof.
  intros Hnone. apply elem_of_nil_inv. intros x [HP Hx]%list_elem_of_filter.
  now apply (Hnone x).
Qed.

End ListFacts.

Section ScheduleLoopProperties.

Import ScheduleLoop.

Variable dag : list PlanSegment.
Hypothesis Hwf : well_formed dag.

Local Abbreviation ids := (ids dag).

Implicit Types (st : SchedState) (seg : PlanSegment) (id d p : nat).

Lemma ids_NoDup : NoDup ids.
Proof. apply Hwf. Qed.

Lemma segment_of_id id : id ∈ ids -> exists seg, seg ∈ dag /\ segment_id seg = id.
Proof.
  unfold ScheduleLoop.ids. intros (seg & -> & Hseg)%list_elem_of_fmap. now exists seg.
Qed.

Lemma id_of_segment seg : seg ∈ dag -> segment_id seg ∈ ids.
Proof. intros Hseg. unfold ScheduleLoop.ids. now apply list_elem_of_fmap_2. Qed.

Lemma segment_id_inj seg seg' :
  seg ∈ dag -> seg' ∈ dag -> segment_id seg = segment_id seg' -> seg = seg'.
Proof. apply NoDup_fmap_inj_on. exact ids_NoDup. Qed.

Lemma inputs_NoDup seg : seg ∈ dag -> NoDup (inputs seg).
Proof.
  intros Hseg. destruct Hwf as [_ Hall]. rewrite Forall_forall in Hall.
  now apply Hall.
Qed.

Lemma inputs_known seg p : seg ∈ dag -> p ∈ inputs seg -> p ∈ ids.
Proof.
  intros Hseg Hp. destruct Hwf as [_ Hall]. rewrite Forall_forall in Hall.
  destruct (Hall seg Hseg) as [_ Hknown]. rewrite Forall_forall in Hknown.
  now apply Hknown.
Qed.

Lemma well_formed_referenced : well_referenced dag = true.
Proof.
  unfold well_referenced. apply bool_decide_eq_true.
  apply Forall_forall. intros seg Hseg. apply Forall_forall. intros p Hp.
  now apply (inputs_known seg).
Qed.

Lemma buildTopology_spec seg id :
  seg ∈ dag -> segment_id seg ∈ buildTopology dag id <-> id ∈ inputs seg.
Proof.
  intros Hseg. unfold buildTopology. rewrite list_elem_of_fmap. split.
  - intros (seg' & Heq & [Hin Hseg']%list_elem_of_filter).
    now rewrite (segment_id_inj seg seg' Hseg Hseg' Heq).
  - intros Hin. exists seg. split; [reflexivity|]. now apply list_elem_of_filter.
Qed.

(** *** The initial state *)

Lemma seed_states seg :
  seg ∈ dag -> states (seed dag) (segment_id seg) = initial_state seg.
Proof.
  intros Hseg. simpl.
  apply (foldr_insert_lookup segment_id initial_state); [exact ids_NoDup|exact Hseg].
Qed.

Lemma seed_remaining seg :
  seg ∈ dag -> remaining (seed dag) (segment_id seg) = length (inputs seg).
Proof.
  intros Hseg. simpl.
  apply (foldr_insert_lookup segment_id (fun s => length (inputs s)));
    [exact ids_NoDup|exact Hseg].
Qed.

Lemma seed_states_initial id :
  id ∈ ids -> states (seed dag) id = Ready \/ states (seed dag) id = Pending.
Proof.
  intros (seg & Hseg & <-)%segment_of_id. rewrite (seed_states seg Hseg).
  unfold initial_state. destruct (inputs seg); [now left|now right].
Qed.

Lemma seed_invariant : invariant dag (seed dag).
Proof.
  split.
  - intros id Hid. destruct (seed_states_initial id Hid) as [-> | ->]; reflexivity.
  - left. split; [reflexivity|]. split; [|split].
    + intros id Hid. destruct (seed_states_initial id Hid) as [-> | ->]; split; discriminate.
    + intros seg Hseg. rewrite (seed_remaining seg Hseg). unfold unsatisfied.
      rewrite filter_all; [reflexivity|]. intros p Hp.
      destruct (seed_states_initial p (inputs_known seg p Hseg Hp)) as [-> | ->]; discriminate.
    + intros id (seg & Hseg & <-)%segment_of_id.
      rewrite (seed_states seg Hseg), (seed_remaining seg Hseg). unfold initial_state.
      destruct (inputs seg); simpl; split; intros Hx; first [discriminate | lia | reflexivity].
Qed.

Lemma seed_idle_waits : idle_waits (seed dag) = 0.
Proof. reflexivity. Qed.

(** *** Dispatching *)

Lemma dispatch_ready_cases st id :
  states (dispatch_ready dag st) id = states st id
  \/ (id ∈ ids /\ states st id = Ready /\ states (dispatch_ready dag st) id = Dispatched).
Proof. simpl. case_bool_decide as Hready; [right; tauto|now left]. Qed.

Lemma dispatch_ready_terminal st id :
  terminal (states (dispatch_ready dag st) id) = terminal (states st id).
Proof. destruct (dispatch_ready_cases st id) as [->|(_ & -> & ->)]; reflexivity. Qed.

Lemma dispatch_ready_kept st id (s : SegmentState) :
  s <> Ready -> s <> Dispatched ->
  states (dispatch_ready dag st) id = s <-> states st id = s.
Proof.
  intros Hready Hdispatched.
  destruct (dispatch_ready_cases st id) as [->|(_ & -> & ->)]; [tauto|].
  split; intros <-; contradiction.
Qed.

Lemma dispatch_ready_not_ready st id :
  id ∈ ids -> states (dispatch_ready dag st) id <> Ready.
Proof.
  intros Hid. simpl. case_bool_decide as Hready; [discriminate|]. tauto.
Qed.

Lemma dispatch_ready_unfinished st :
  unfinished dag (dispatch_ready dag st) = unfinished dag st.
Proof.
  unfold unfinished. apply list_filter_iff. intros id.
  now rewrite dispatch_ready_terminal.
Qed.

Lemma dispatch_ready_unsatisfied st seg :
  unsatisfied (dispatch_ready dag st) seg = unsatisfied st seg.
Proof.
  unfold unsatisfied. apply list_filter_iff. intros p.
  now rewrite dispatch_ready_kept by discriminate.
Qed.

Lemma dispatch_ready_log_consistent st :
  log_consistent dag st -> log_consistent dag (dispatch_ready dag st).
Proof.
  intros Hlog id Hid. change (terminal_log (dispatch_ready dag st)) with (terminal_log st).
  rewrite (Hlog id Hid), dispatch_ready_terminal.
  destruct (dispatch_ready_cases st id) as [->|(_ & -> & ->)]; reflexivity.
Qed.

Lemma dispatch_ready_tracking st :
  tracking dag st -> tracking dag (dispatch_ready dag st).
Proof.
  intros (Halive & Hcount & Hpending). split; [|split].
  - intros id Hid. rewrite !dispatch_ready_kept by discriminate. now apply Halive.
  - intros seg Hseg. rewrite dispatch_ready_unsatisfied. now apply Hcount.
  - intros id Hid. rewrite dispatch_ready_kept by discriminate. now apply Hpending.
Qed.

Lemma dispatch_ready_draining st :
  draining dag st -> draining dag (dispatch_ready dag st).
Proof.
  intros Hdrain id Hid.
  destruct (dispatch_ready_cases st id) as [->|(_ & _ & ->)]; [now apply Hdrain|reflexivity].
Qed.

(** *** Terminal states *)

Lemma terminal_not_waiting (s : SegmentState) : terminal s = true -> waiting s = false.
Proof. destruct s; simpl; congruence. Qed.

Lemma waiting_open (s : SegmentState) : waiting s = true -> terminal s = false.
Proof. destruct s; simpl; congruence. Qed.

Lemma open_open (s : SegmentState) : open s = true -> terminal s = false.
Proof. unfold open. now intros ?%negb_true_iff. Qed.

Lemma finished_draining st : unfinished dag st = [] -> draining dag st.
Proof.
  intros Hdone id Hid. apply terminal_not_waiting.
  destruct (terminal (states st id)) eqn:Hterm; [reflexivity|].
  assert (Hin : id ∈ unfinished dag st)
    by (unfold unfinished; apply list_elem_of_filter; tauto).
  rewrite Hdone in Hin. now apply elem_of_nil in Hin.
Qed.

Lemma in_flight_of_draining st id :
  draining dag st -> id ∈ unfinished dag st -> id ∈ outstanding dag st.
Proof.
  intros Hdrain [Hopen Hid]%list_elem_of_filter.
  unfold outstanding. apply list_elem_of_filter. split; [|exact Hid].
  specialize (Hdrain id Hid). destruct (states st id); simpl in *; congruence.
Qed.

(** *** Cancelling *)

Section Cancel.

Variable which : SegmentState -> bool.
Hypothesis which_open : forall s, which s = true -> terminal s = false.

Lemma cancel_states st id :
  states (cancel dag which st) id
  = if bool_decide (id ∈ ids /\ which (states st id) = true) then Canceled else states st id.
Proof. reflexivity. Qed.

Lemma cancel_terminal_kept st id :
  terminal (states st id) = true -> states (cancel dag which st) id = states st id.
Proof.
  intros Hterm. rewrite cancel_states. rewrite bool_decide_eq_false_2; [reflexivity|].
  intros [_ Hwhich]. apply which_open in Hwhich. congruence.
Qed.

Lemma cancel_log_consistent st :
  log_consistent dag st -> log_consistent dag (cancel dag which st).
Proof.
  intros Hlog id Hid. rewrite cancel_states. simpl. rewrite filter_app, (Hlog id Hid).
  rewrite filter_tagged by (apply NoDup_filter, ids_NoDup).
  destruct (which (states st id)) eqn:Hwhich.
  - rewrite (which_open _ Hwhich). rewrite bool_decide_eq_true_2 by tauto. simpl.
    rewrite decide_True; [reflexivity|]. apply list_elem_of_filter. tauto.
  - rewrite bool_decide_eq_false_2 by (intros [_ ?]; congruence).
    rewrite decide_False by (intros [? _]%list_elem_of_filter; congruence).
    now rewrite app_nil_r.
Qed.

End Cancel.

Lemma cancel_open_unfinished st : unfinished dag (cancel dag open st) = [].
Proof.
  unfold unfinished. apply elem_of_nil_inv. intros id [Hopen Hid]%list_elem_of_filter.
  rewrite cancel_states in Hopen. case_bool_decide as Hcase; [discriminate|].
  apply Hcase. split; [exact Hid|]. unfold open. now rewrite Hopen.
Qed.

Lemma cancel_waiting_draining st : draining dag (cancel dag waiting st).
Proof.
  intros id Hid. rewrite cancel_states. case_bool_decide as Hcase; [reflexivity|].
  destruct (waiting (states st id)) eqn:Hwaiting; [|reflexivity].
  exfalso. apply Hcase. tauto.
Qed.

Lemma expire_unfinished st : unfinished dag (expire dag st) = [].
Proof. apply cancel_open_unfinished. Qed.

Lemma expire_invariant st : log_consistent dag st -> invariant dag (expire dag st).
Proof.
  intros Hlog. split.
  - apply (cancel_log_consistent open open_open st Hlog).
  - right. apply finished_draining, expire_unfinished.
Qed.

(** *** Finishing a segment *)

Lemma finish_log_consistent st id (s : SegmentState) :
  terminal (states st id) = false -> terminal s = true ->
  log_consistent dag st -> log_consistent dag (finish id s st).
Proof.
  intros Hopen Hterm Hlog id' Hid'. simpl. rewrite filter_app, (Hlog id' Hid').
  rewrite filter_cons, filter_nil. simpl. destruct (decide (id = id')) as [<-|Hne].
  - rewrite fn_lookup_insert, Hopen, Hterm. reflexivity.
  - rewrite fn_lookup_insert_ne by exact Hne. now rewrite app_nil_r.
Qed.

Lemma onSegmentFinished_success st id :
  id ∈ ids -> states st id = Dispatched ->
  onSegmentFinished dag id true false st
  = release (buildTopology dag id) (finish id (Finished true) st).
Proof.
  intros Hid Hstate. unfold onSegmentFinished.
  now rewrite bool_decide_eq_true_2 by (rewrite Hstate; tauto).
Qed.

Lemma onSegmentFinished_failure st id (is_canceled : bool) :
  id ∈ ids -> states st id = Dispatched ->
  onSegmentFinished dag id false is_canceled st
  = signal_failure (finish id (if is_canceled then Canceled else Finished false) st).
Proof.
  intros Hid Hstate. unfold onSegmentFinished.
  now rewrite bool_decide_eq_true_2 by (rewrite Hstate; tauto).
Qed.

(** A report for a segment already terminal, or unknown, is a no-op against
    the tracker. *)
Lemma onSegmentFinished_late st id (is_succeed is_canceled : bool) :
  unfinished dag st = [] -> onSegmentFinished dag id is_succeed is_canceled st = st.
Proof.
  intros Hdone. unfold onSegmentFinished. case_bool_decide as Hguard; [|reflexivity].
  assert (Hin : id ∈ unfinished dag st)
    by (unfold unfinished; apply list_elem_of_filter; tauto).
  rewrite Hdone in Hin. now apply elem_of_nil in Hin.
Qed.

(** *** A failure *)

Lemma fail_segment_invariant st id (is_canceled : bool) :
  id ∈ ids -> states st id = Dispatched -> log_consistent dag st ->
  invariant dag (fail_segment dag id is_canceled st).
Proof.
  intros Hid Hstate Hlog. unfold fail_segment.
  rewrite (onSegmentFinished_failure st id is_canceled Hid Hstate).
  split; [|right; apply cancel_waiting_draining].
  apply (cancel_log_consistent waiting waiting_open).
  apply (finish_log_consistent st id);
    [now rewrite Hstate|now destruct is_canceled|exact Hlog].
Qed.

(** *** A success *)

Lemma buildTopology_ids id d : d ∈ buildTopology dag id -> d ∈ ids.
Proof.
  unfold buildTopology. intros (seg & -> & [_ Hseg]%list_elem_of_filter)%list_elem_of_fmap.
  now apply id_of_segment.
Qed.

Lemma release_terminal deps st x :
  terminal (states (release deps st) x) = terminal (states st x).
Proof. simpl. case_bool_decide as Hcase; [|reflexivity]. now destruct Hcase as (_ & _ & ->). Qed.

Lemma dependent_is_pending st id d :
  tracking dag st -> states st id = Dispatched ->
  d ∈ ids -> d ∈ buildTopology dag id ->
  states st d = Pending /\ 0 < remaining st d /\ d <> id.
Proof.
  intros (_ & Hcount & Hpending) Hid (seg & Hseg & <-)%segment_of_id Hdep.
  apply (buildTopology_spec seg id Hseg) in Hdep.
  assert (Hpos : 0 < remaining st (segment_id seg)).
  { rewrite (Hcount seg Hseg).
    assert (Hin : id ∈ unsatisfied st seg).
    { unfold unsatisfied. apply list_elem_of_filter. split; [congruence|exact Hdep]. }
    destruct (unsatisfied st seg); [now apply elem_of_nil in Hin|simpl; lia]. }
  assert (Hstate : states st (segment_id seg) = Pending)
    by (apply Hpending; [now apply id_of_segment|exact Hpos]).
  split; [exact Hstate|]. split; [exact Hpos|]. intros Heq. congruence.
Qed.

Lemma success_states st id x :
  tracking dag st -> states st id = Dispatched -> id ∈ ids -> x ∈ ids ->
  states (release (buildTopology dag id) (finish id (Finished true) st)) x =
    if decide (x = id) then Finished true
    else if decide (x ∈ buildTopology dag id /\ remaining st x = 1) then Ready
    else states st x.
Proof.
  intros Htrack Hid Hids Hx. simpl.
  destruct (decide (x = id)) as [->|Hne].
  - rewrite bool_decide_eq_false_2; [apply fn_lookup_insert|].
    intros (_ & _ & Hpend). rewrite fn_lookup_insert in Hpend. discriminate.
  - rewrite !fn_lookup_insert_ne by congruence.
    destruct (decide (x ∈ buildTopology dag id /\ remaining st x = 1)) as [[Hdep Hone]|Hno].
    + destruct (dependent_is_pending st id x Htrack Hid Hx Hdep) as (Hpend & _ & _).
      rewrite bool_decide_eq_true_2; [reflexivity|]. split; [exact Hdep|]. split; [lia|exact Hpend].
    + rewrite bool_decide_eq_false_2; [reflexivity|]. intros (Hdep & Hzero & _).
      destruct (dependent_is_pending st id x Htrack Hid Hx Hdep) as (_ & Hpos & _).
      apply Hno. split; [exact Hdep|lia].
Qed.

Lemma success_log_consistent st id :
  states st id = Dispatched -> log_consistent dag st ->
  log_consistent dag (release (buildTopology dag id) (finish id (Finished true) st)).
Proof.
  intros Hid Hlog x Hx.
  assert (Hfin : log_consistent dag (finish id (Finished true) st))
    by (apply finish_log_consistent; [now rewrite Hid|reflexivity|exact Hlog]).
  change (terminal_log (release (buildTopology dag id) (finish id (Finished true) st)))
    with (terminal_log (finish id (Finished true) st)).
  rewrite (Hfin x Hx), release_terminal.
  destruct (terminal (states (finish id (Finished true) st) x)) eqn:Hterm; [|reflexivity].
  simpl. rewrite bool_decide_eq_false_2; [reflexivity|].
  intros (_ & _ & Hpend). simpl in Hterm. rewrite Hpend in Hterm. discriminate.
Qed.

Lemma success_unsatisfied st id seg :
  tracking dag st -> states st id = Dispatched -> id ∈ ids -> seg ∈ dag ->
  unsatisfied (release (buildTopology dag id) (finish id (Finished true) st)) seg
  = filter (fun p => p <> id /\ states st p <> Finished true) (inputs seg).
Proof.
  intros Htrack Hid Hids Hseg. unfold unsatisfied. apply filter_ext_in. intros p Hp.
  rewrite (success_states st id p Htrack Hid Hids (inputs_known seg p Hseg Hp)).
  destruct (decide (p = id)) as [->|Hne]; [tauto|].
  destruct (decide _) as [[Hdep _]|_]; [|tauto].
  destruct (dependent_is_pending st id p Htrack Hid (inputs_known seg p Hseg Hp) Hdep)
    as (Hpend & _ & _).
  rewrite Hpend. split; intros _; [split; [exact Hne|discriminate]|discriminate].
Qed.

Lemma success_remaining st id seg :
  seg ∈ dag ->
  remaining (release (buildTopology dag id) (finish id (Finished true) st)) (segment_id seg)
  = if decide (id ∈ inputs seg) then remaining st (segment_id seg) - 1
    else remaining st (segment_id seg).
Proof.
  intros Hseg. simpl. destruct (decide (id ∈ inputs seg)) as [Hin|Hin].
  - rewrite bool_decide_eq_true_2; [reflexivity|]. now apply buildTopology_spec.
  - rewrite bool_decide_eq_false_2; [reflexivity|]. now rewrite buildTopology_spec.
Qed.

Lemma success_tracking st id :
  tracking dag st -> states st id = Dispatched -> id ∈ ids ->
  tracking dag (release (buildTopology dag id) (finish id (Finished true) st)).
Proof.
  intros Htrack Hid Hids. pose proof Htrack as (Halive & Hcount & Hpending).
  split; [|split].
  - intros x Hx. rewrite (success_states st id x Htrack Hid Hids Hx).
    destruct (decide (x = id)); [split; discriminate|].
    destruct (decide _); [split; discriminate|]. now apply Halive.
  - intros seg Hseg.
    rewrite (success_remaining st id seg Hseg), (success_unsatisfied st id seg Htrack Hid Hids Hseg).
    rewrite (Hcount seg Hseg). unfold unsatisfied.
    destruct (decide (id ∈ inputs seg)) as [Hin|Hin].
    + rewrite <- (length_filter_without (fun p => states st p <> Finished true) (inputs seg) id
                    (inputs_NoDup seg Hseg) Hin); [lia|congruence].
    + now rewrite length_filter_not_elem.
  - intros x Hx. destruct (segment_of_id x Hx) as (seg & Hseg & <-).
    rewrite (success_states st id _ Htrack Hid Hids Hx), (success_remaining st id seg Hseg).
    destruct (decide (segment_id seg = id)) as [Heq|Hne].
    + assert (Hzero : ~ 0 < remaining st (segment_id seg)).
      { rewrite <- (Hpending _ Hx). rewrite Heq, Hid. discriminate. }
      destruct (decide (id ∈ inputs seg)); split; first [discriminate | lia].
    + destruct (decide (id ∈ inputs seg)) as [Hin|Hin].
      * pose proof (proj2 (buildTopology_spec seg id Hseg) Hin) as Hdep.
        destruct (dependent_is_pending st id _ Htrack Hid Hx Hdep) as (Hpend & Hpos & _).
        destruct (decide _) as [[_ Hone]|Hmore].
        -- split; [discriminate|lia].
        -- rewrite Hpend. split; [intros _|reflexivity].
           assert (remaining st (segment_id seg) <> 1) by (intros ?; apply Hmore; tauto).
           lia.
      * rewrite decide_False; [now apply Hpending|].
        intros [Hdep _]. apply Hin. now apply (buildTopology_spec seg id Hseg).
Qed.

(** After a failure the tracker releases nothing: the dependents of a segment
    that succeeds while the query drains are already canceled. *)
Lemma success_draining st id :
  draining dag st ->
  draining dag (release (buildTopology dag id) (finish id (Finished true) st)).
Proof.
  intros Hdrain x Hx. simpl. case_bool_decide as Hcase; [|].
  - destruct Hcase as (_ & _ & Hpend). destruct (decide (id = x)) as [<-|Hne].
    + rewrite fn_lookup_insert in Hpend. discriminate.
    + rewrite fn_lookup_insert_ne in Hpend by exact Hne.
      specialize (Hdrain x Hx). rewrite Hpend in Hdrain. discriminate.
  - destruct (decide (id = x)) as [<-|Hne].
    + now rewrite fn_lookup_insert.
    + rewrite fn_lookup_insert_ne by exact Hne. now apply Hdrain.
Qed.

(** *** An event *)

Lemma deliver_invariant policy (ev : Event) st :
  invariant dag st -> invariant dag (deliver dag policy ev st).
Proof.
  intros Hinv. destruct ev as [id status|id|]; simpl;
    [unfold onCompletion|unfold onCancellation|apply expire_invariant, Hinv];
    (case_bool_decide as Hguard; [|exact Hinv]);
    destruct Hguard as [Hids Hid]; destruct Hinv as [Hlog Hphase];
    [|now apply fail_segment_invariant].
  assert (Hfail : invariant dag (fail_segment dag id false st))
    by now apply fail_segment_invariant.
  destruct status; [|exact Hfail|].
  - rewrite (onSegmentFinished_success st id Hids Hid).
    split; [now apply success_log_consistent|].
    destruct Hphase as [[Hfailed Htrack]|Hdrain].
    + left. split; [exact Hfailed|now apply success_tracking].
    + right. now apply success_draining.
  - destruct (may_retry policy (retries st id) && negb (failed st)); [|exact Hfail].
    split; [exact Hlog|exact Hphase].
Qed.

Lemma deliver_idle_waits policy (ev : Event) st :
  idle_waits (deliver dag policy ev st) = idle_waits st.
Proof.
  destruct ev as [id status|id|]; simpl; [| |reflexivity];
    unfold onCompletion, onCancellation, fail_segment, onSegmentFinished;
    repeat (case_bool_decide || destruct status || destruct (_ && _)); reflexivity.
Qed.

Lemma deliver_canceled policy (ev : Event) st :
  ev <> Expiration -> canceled (deliver dag policy ev st) = canceled st.
Proof.
  intros Hev. destruct ev as [id status|id|]; simpl; [| |contradiction];
    unfold onCompletion, onCancellation, fail_segment, onSegmentFinished;
    repeat (case_bool_decide || destruct status || destruct (_ && _)); reflexivity.
Qed.

(** An event that arrives when every segment is terminal changes no state
    and records nothing. *)
Lemma deliver_late policy (ev : Event) st :
  unfinished dag st = [] ->
  (forall id, states (deliver dag policy ev st) id = states st id)
  /\ terminal_log (deliver dag policy ev st) = terminal_log st.
Proof.
  intros Hdone.
  assert (Hnone : forall id, id ∈ ids -> terminal (states st id) = true).
  { intros id Hid. destruct (terminal (states st id)) eqn:Hterm; [reflexivity|].
    assert (Hin : id ∈ unfinished dag st)
      by (unfold unfinished; apply list_elem_of_filter; tauto).
    rewrite Hdone in Hin. now apply elem_of_nil in Hin. }
  destruct ev as [id status|id|]; simpl.
  - unfold onCompletion. case_bool_decide as Hguard; [|now split].
    destruct Hguard as [Hids Hid]. specialize (Hnone id Hids). rewrite Hid in Hnone. discriminate.
  - unfold onCancellation. case_bool_decide as Hguard; [|now split].
    destruct Hguard as [Hids Hid]. specialize (Hnone id Hids). rewrite Hid in Hnone. discriminate.
  - split.
    + intros id. rewrite bool_decide_eq_false_2; [reflexivity|].
      intros [Hid Hopen]. apply open_open in Hopen. rewrite (Hnone id Hid) in Hopen. discriminate.
    + rewrite (filter_none (fun id => open (states st id) = true) ids), app_nil_r; [reflexivity|].
      intros id Hid Hopen. apply open_open in Hopen. rewrite (Hnone id Hid) in Hopen. discriminate.
Qed.

Lemma late_events_ignored policy (late : list Event) st :
  unfinished dag st = [] ->
  (forall id, states (late_events dag policy late st) id = states st id)
  /\ terminal_log (late_events dag policy late st) = terminal_log st.
Proof.
  unfold late_events. revert st. induction late as [|ev late IH]; intros st Hdone; [now split|].
  simpl. destruct (deliver_late policy ev st Hdone) as [Hstates Hlog].
  destruct (IH (deliver dag policy ev st)) as [Hstates' Hlog'].
  - unfold unfinished in *. rewrite <- Hdone. apply list_filter_iff. intros id.
    now rewrite Hstates.
  - split; [intros id; now rewrite Hstates'|now rewrite Hlog'].
Qed.

(** *** Progress *)

Hypothesis Hacyclic : acyclic dag.

Lemma alive_open st p :
  tracking dag st -> p ∈ ids -> states st p <> Finished true -> p ∈ unfinished dag st.
Proof.
  intros (Halive & _) Hp Hnot. unfold unfinished. apply list_elem_of_filter.
  split; [|exact Hp]. destruct (Halive p Hp) as [Hfail Hcancel].
  destruct (states st p) as [| | |[|]|]; try reflexivity; congruence.
Qed.

(** Among the segments still open, one of least rank has all its upstream
    segments finished with success: it is not [Pending]. *)
Lemma least_open_not_pending st :
  tracking dag st -> unfinished dag st <> [] ->
  exists m, m ∈ unfinished dag st /\ states st m <> Pending.
Proof.
  intros Htrack Hopen. destruct Hacyclic as [rank Hrank].
  destruct (least_ranked rank (unfinished dag st) Hopen) as (m & Hm & Hleast).
  exists m. split; [exact Hm|]. intros Hpend.
  apply list_elem_of_filter in Hm as [_ Hmid].
  destruct (segment_of_id m Hmid) as (seg & Hseg & <-).
  pose proof Htrack as (_ & Hcount & Hpending).
  apply (Hpending _ Hmid) in Hpend. rewrite (Hcount seg Hseg) in Hpend.
  destruct (unsatisfied st seg) as [|p rest] eqn:Hunsat; [simpl in Hpend; lia|].
  assert (Hp : p ∈ unsatisfied st seg) by (rewrite Hunsat; left).
  apply list_elem_of_filter in Hp as [Hnot Hin].
  pose proof (alive_open st p Htrack (inputs_known seg p Hseg Hin) Hnot) as Hpopen.
  apply Hleast in Hpopen.
  rewrite Forall_forall in Hrank. specialize (Hrank seg Hseg).
  rewrite Forall_forall in Hrank. specialize (Hrank p Hin). lia.
Qed.

Lemma dispatched_outstanding st :
  tracking dag st -> unfinished dag st <> [] ->
  outstanding dag (dispatch_ready dag st) <> [].
Proof.
  intros Htrack Hopen.
  pose proof (dispatch_ready_tracking st Htrack) as Htrack'.
  rewrite <- dispatch_ready_unfinished in Hopen.
  destruct (least_open_not_pending _ Htrack' Hopen) as (m & Hm & Hnotpending).
  apply list_elem_of_filter in Hm as [Hmopen Hmid].
  pose proof (dispatch_ready_not_ready st m Hmid) as Hnotready.
  assert (Hin : m ∈ outstanding dag (dispatch_ready dag st)).
  { unfold outstanding. apply list_elem_of_filter. split; [|exact Hmid].
    destruct (states (dispatch_ready dag st) m); first [reflexivity | congruence | discriminate]. }
  intros Hnone. rewrite Hnone in Hin. now apply elem_of_nil in Hin.
Qed.

(** While a segment is open, the wait of a round is entered with a segment in
    flight, before a failure and after it. *)
Lemma round_outstanding st :
  invariant dag st -> unfinished dag st <> [] ->
  invariant dag (if failed st then st else dispatch_ready dag st)
  /\ outstanding dag (if failed st then st else dispatch_ready dag st) <> [].
Proof.
  intros [Hlog Hphase] Hopen.
  assert (Hdrained : forall st', draining dag st' -> unfinished dag st' <> [] ->
            outstanding dag st' <> []).
  { intros st' Hdrain Hopen' Hnone. destruct (unfinished dag st') as [|x rest] eqn:Hlist;
      [contradiction|].
    assert (Hin : x ∈ outstanding dag st')
      by (apply in_flight_of_draining; [exact Hdrain|rewrite Hlist; left]).
    rewrite Hnone in Hin. now apply elem_of_nil in Hin. }
  destruct Hphase as [[Hfailed Htrack]|Hdrain].
  - rewrite Hfailed. split; [|now apply dispatched_outstanding].
    split; [now apply dispatch_ready_log_consistent|].
    left. split; [exact Hfailed|now apply dispatch_ready_tracking].
  - destruct (failed st).
    + split; [split; [exact Hlog|now right]|now apply Hdrained].
    + split.
      * split; [now apply dispatch_ready_log_consistent|right; now apply dispatch_ready_draining].
      * apply Hdrained; [now apply dispatch_ready_draining|now rewrite dispatch_ready_unfinished].
Qed.

(** *** One round *)

Lemma round_invariant policy (next : list nat -> Event) st :
  invariant dag st -> unfinished dag st <> [] ->
  invariant dag (round dag policy next st)
  /\ idle_waits (round dag policy next st) = idle_waits st.
Proof.
  intros Hinv Hopen. destruct (round_outstanding st Hinv Hopen) as [Hinv' Hout].
  assert (Hidle : idle_waits (if failed st then st else dispatch_ready dag st) = idle_waits st)
    by (destruct (failed st); reflexivity).
  unfold round.
  destruct (outstanding dag (if failed st then st else dispatch_ready dag st)) as [|o out];
    [contradiction|].
  split; [now apply deliver_invariant|]. now rewrite deliver_idle_waits.
Qed.

(** *** The loop *)

Lemma loop_post policy (env : nat -> list nat -> Event) (time n : nat) st :
  invariant dag st ->
  unfinished dag (loop dag policy env time n st) = []
  /\ log_consistent dag (loop dag policy env time n st)
  /\ idle_waits (loop dag policy env time n st) = idle_waits st.
Proof.
  revert n st. induction time as [|time IH]; intros n st Hinv; simpl;
    destruct (all_terminal dag st) eqn:Hall.
  - apply bool_decide_eq_true in Hall. split; [exact Hall|]. split; [apply Hinv|reflexivity].
  - split; [apply expire_unfinished|].
    split; [apply expire_invariant, Hinv|reflexivity].
  - apply bool_decide_eq_true in Hall. split; [exact Hall|]. split; [apply Hinv|reflexivity].
  - apply bool_decide_eq_false in Hall.
    destruct (round_invariant policy (env n) st Hinv Hall) as [Hinv' Hidle].
    destruct (IH (S n) _ Hinv') as (Hdone & Hlog & Hsame).
    split; [exact Hdone|]. split; [exact Hlog|]. now rewrite Hsame.
Qed.

(** *** No livelock *)

Section Bounded.

Variable limit : nat.

Lemma budget_positive st :
  (forall id, id ∈ ids -> retries st id <= limit) ->
  unfinished dag st <> [] -> 0 < budget dag limit st.
Proof.
  intros Hbound Hopen. destruct (unfinished dag st) as [|x rest] eqn:Hlist; [contradiction|].
  assert (Hx : x ∈ unfinished dag st) by (rewrite Hlist; left).
  apply list_elem_of_filter in Hx as [Hxopen Hxid].
  unfold budget.
  apply Nat.le_lt_trans with (sum_list_with (fun _ : nat => 0) ids); [lia|].
  apply (sum_list_with_lt _ _ ids x); [intros y _; lia|exact Hxid|].
  rewrite Hxopen. specialize (Hbound x Hxid). lia.
Qed.

Lemma budget_seed : budget dag limit (seed dag) <= length dag * S limit.
Proof.
  unfold budget. etransitivity; [apply (sum_list_with_bound _ ids (S limit))|].
  - intros id _. destruct (terminal _); simpl; lia.
  - unfold ScheduleLoop.ids. now rewrite length_fmap.
Qed.

Lemma dispatch_budget st :
  budget dag limit (if failed st then st else dispatch_ready dag st) = budget dag limit st.
Proof.
  destruct (failed st); [reflexivity|]. unfold budget.
  apply Nat.le_antisymm; apply sum_list_with_le; intros id _;
    rewrite dispatch_ready_terminal; reflexivity.
Qed.

Lemma fail_segment_budget st id (is_canceled : bool) :
  id ∈ ids -> states st id = Dispatched ->
  (forall x, x ∈ ids -> retries st x <= limit) ->
  budget dag limit (fail_segment dag id is_canceled st) < budget dag limit st
  /\ (forall x, x ∈ ids -> retries (fail_segment dag id is_canceled st) x <= limit).
Proof.
  intros Hids Hid Hbound. unfold fail_segment.
  rewrite (onSegmentFinished_failure st id is_canceled Hids Hid). split; [|exact Hbound].
  unfold budget. apply (sum_list_with_lt _ _ ids id); [|exact Hids|].
  - intros x Hx. simpl. case_bool_decide; [simpl; lia|].
    destruct (decide (id = x)) as [<-|Hne].
    + rewrite fn_lookup_insert. destruct is_canceled; simpl; lia.
    + rewrite fn_lookup_insert_ne by exact Hne. reflexivity.
  - simpl. rewrite bool_decide_eq_false_2
      by (intros [_ Hwait]; rewrite fn_lookup_insert in Hwait; destruct is_canceled; discriminate).
    rewrite fn_lookup_insert, Hid. specialize (Hbound id Hids).
    destruct is_canceled; simpl; lia.
Qed.

Lemma onCompletion_budget st id (status : Status) :
  id ∈ ids -> states st id = Dispatched ->
  (forall x, x ∈ ids -> retries st x <= limit) ->
  budget dag limit (onCompletion dag (Some limit) id status st) < budget dag limit st
  /\ (forall x, x ∈ ids -> retries (onCompletion dag (Some limit) id status st) x <= limit).
Proof.
  intros Hids Hid Hbound. unfold onCompletion.
  rewrite bool_decide_eq_true_2 by tauto.
  pose proof (fail_segment_budget st id false Hids Hid Hbound) as Hfail.
  destruct status; [|exact Hfail|].
  - rewrite (onSegmentFinished_success st id Hids Hid). split; [|exact Hbound].
    unfold budget. apply (sum_list_with_lt _ _ ids id); [|exact Hids|].
    + intros x Hx. rewrite release_terminal. simpl.
      destruct (decide (id = x)) as [<-|Hne].
      * rewrite fn_lookup_insert. simpl. lia.
      * rewrite fn_lookup_insert_ne by exact Hne. reflexivity.
    + rewrite release_terminal. simpl. rewrite fn_lookup_insert, Hid. simpl.
      specialize (Hbound id Hids). lia.
  - destruct (may_retry (Some limit) (retries st id)) eqn:Hretry; simpl; [|exact Hfail].
    destruct (failed st); simpl; [exact Hfail|].
    apply bool_decide_eq_true in Hretry. split.
    + unfold budget. apply (sum_list_with_lt _ _ ids id); [|exact Hids|].
      * intros x Hx. simpl. destruct (decide (id = x)) as [<-|Hne].
        -- rewrite fn_lookup_insert. destruct (terminal _); lia.
        -- rewrite fn_lookup_insert_ne by exact Hne. reflexivity.
      * simpl. rewrite fn_lookup_insert, Hid. simpl. lia.
    + intros x Hx. simpl. destruct (decide (id = x)) as [<-|Hne].
      * rewrite fn_lookup_insert. lia.
      * rewrite fn_lookup_insert_ne by exact Hne. now apply Hbound.
Qed.

Lemma prompt_round (next : list nat -> Event) st :
  (forall out, out <> [] -> settles out (next out) = true) ->
  invariant dag st -> unfinished dag st <> [] ->
  (forall x, x ∈ ids -> retries st x <= limit) ->
  budget dag limit (round dag (Some limit) next st) < budget dag limit st
  /\ (forall x, x ∈ ids -> retries (round dag (Some limit) next st) x <= limit)
  /\ canceled (round dag (Some limit) next st) = canceled st.
Proof.
  intros Hprompt Hinv Hopen Hbound.
  destruct (round_outstanding st Hinv Hopen) as [_ Hout].
  pose proof (dispatch_budget st) as Hsame.
  assert (Hbound' : forall x, x ∈ ids ->
            retries (if failed st then st else dispatch_ready dag st) x <= limit)
    by (destruct (failed st); exact Hbound).
  assert (Hcanceled : canceled (if failed st then st else dispatch_ready dag st) = canceled st)
    by (destruct (failed st); reflexivity).
  unfold round. specialize (Hprompt _ Hout).
  destruct (outstanding dag (if failed st then st else dispatch_ready dag st)) as [|o out] eqn:Hlist;
    [contradiction|].
  destruct (next (o :: out)) as [id status|id|]; simpl in Hprompt; [| |discriminate];
    apply bool_decide_eq_true in Hprompt; rewrite <- Hlist in Hprompt;
    apply list_elem_of_filter in Hprompt as [Hid Hids].
  - destruct (onCompletion_budget _ id status Hids Hid Hbound') as [Hless Hkept].
    split; [simpl; lia|]. split; [exact Hkept|].
    now rewrite deliver_canceled by discriminate.
  - simpl. unfold onCancellation. rewrite bool_decide_eq_true_2 by tauto.
    destruct (fail_segment_budget _ id true Hids Hid Hbound') as [Hless Hkept].
    split; [lia|]. split; [exact Hkept|].
    rewrite <- Hcanceled.
    unfold fail_segment, onSegmentFinished. case_bool_decide; reflexivity.
Qed.

(** With a prompt transport and a bounded retry policy the loop ends by the
    completions alone, before the deadline. *)
Lemma loop_prompt (env : nat -> list nat -> Event) (time n : nat) st :
  prompt env -> invariant dag st ->
  (forall x, x ∈ ids -> retries st x <= limit) ->
  budget dag limit st <= time ->
  canceled (loop dag (Some limit) env time n st) = canceled st.
Proof.
  intros Hprompt. revert n st. induction time as [|time IH]; intros n st Hinv Hbound Hbudget;
    simpl; destruct (all_terminal dag st) eqn:Hall; try reflexivity;
    apply bool_decide_eq_false in Hall.
  - pose proof (budget_positive st Hbound Hall). lia.
  - destruct (prompt_round (env n) st (Hprompt n) Hinv Hall Hbound) as (Hless & Hkept & Hsame).
    destruct (round_invariant (Some limit) (env n) st Hinv Hall) as [Hinv' _].
    rewrite IH; [exact Hsame|exact Hinv'|exact Hkept|lia].
Qed.

End Bounded.

End ScheduleLoopProperties.



(** The scenarios of the specification on [A -> C], [B -> C]. Both sources
    succeed and [C] runs after them. *)
Example scenario_all_succeed :
  ScheduleLoop.summary
    (ScheduleLoop.schedule ScheduleLoop.scenario_dag (Some 1)
       (ScheduleLoop.first_in_flight (fun _ => ScheduleLoop.Success)) 6)
  = Some ([ScheduleLoop.Finished true; ScheduleLoop.Finished true; ScheduleLoop.Finished true],
          [(0, ScheduleLoop.Finished true); (1, ScheduleLoop.Finished true);
           (2, ScheduleLoop.Finished true)],
          0, false, false).
Proof. vm_compute. reflexivity. Qed.

(** [A] succeeds, [B] fails: [C] is never dispatched and the query fails. *)
Example scenario_B_fails :
  ScheduleLoop.summary
    (ScheduleLoop.schedule ScheduleLoop.scenario_dag (Some 1)
       (ScheduleLoop.first_in_flight
          (fun n => if Nat.eqb n 1 then ScheduleLoop.Fail else ScheduleLoop.Success)) 6)
  = Some ([ScheduleLoop.Finished true; ScheduleLoop.Finished false; ScheduleLoop.Canceled],
          [(0, ScheduleLoop.Finished true); (1, ScheduleLoop.Finished false);
           (2, ScheduleLoop.Canceled)],
          0, true, false).
Proof. vm_compute. reflexivity. Qed.

(** [A] fails while [B] is in flight: [C] is canceled at once, [B] drains and
    its success, which comes after the failure, releases nothing. *)
Example scenario_failure_drains :
  ScheduleLoop.summary
    (ScheduleLoop.schedule ScheduleLoop.scenario_dag (Some 1)
       (ScheduleLoop.first_in_flight
          (fun n => if Nat.eqb n 0 then ScheduleLoop.Fail else ScheduleLoop.Success)) 6)
  = Some ([ScheduleLoop.Finished false; ScheduleLoop.Finished true; ScheduleLoop.Canceled],
          [(0, ScheduleLoop.Finished false); (2, ScheduleLoop.Canceled);
           (1, ScheduleLoop.Finished true)],
          0, true, false).
Proof. vm_compute. reflexivity. Qed.

(** [A] fails and [B], in flight, is reported canceled. *)
Example scenario_failure_cancels :
  ScheduleLoop.summary
    (ScheduleLoop.schedule ScheduleLoop.scenario_dag (Some 1)
       (fun n _ => if Nat.eqb n 0 then ScheduleLoop.Completion 0 ScheduleLoop.Fail
                   else ScheduleLoop.Cancellation 1) 6)
  = Some ([ScheduleLoop.Finished false; ScheduleLoop.Canceled; ScheduleLoop.Canceled],
          [(0, ScheduleLoop.Finished false); (2, ScheduleLoop.Canceled);
           (1, ScheduleLoop.Canceled)],
          0, true, false).
Proof. vm_compute. reflexivity. Qed.

(** A worker that answers [Wait] every time: with one retry allowed, [A] is
    retried once and then fails; with every [Wait] retried the loop ends at
    the deadline, which cancels the query. *)
Example scenario_wait_bounded :
  ScheduleLoop.summary
    (ScheduleLoop.schedule ScheduleLoop.scenario_dag (Some 1)
       (ScheduleLoop.first_in_flight (fun _ => ScheduleLoop.Wait)) 6)
  = Some ([ScheduleLoop.Finished false; ScheduleLoop.Finished false; ScheduleLoop.Canceled],
          [(0, ScheduleLoop.Finished false); (2, ScheduleLoop.Canceled);
           (1, ScheduleLoop.Finished false)],
          0, true, false).
Proof. vm_compute. reflexivity. Qed.

Example scenario_wait_unbounded :
  ScheduleLoop.summary
    (ScheduleLoop.schedule ScheduleLoop.scenario_dag None
       (ScheduleLoop.first_in_flight (fun _ => ScheduleLoop.Wait)) 6)
  = Some ([ScheduleLoop.Canceled; ScheduleLoop.Canceled; ScheduleLoop.Canceled],
          [(0, ScheduleLoop.Canceled); (1, ScheduleLoop.Canceled); (2, ScheduleLoop.Canceled)],
          0, false, true).
Proof. vm_compute. reflexivity. Qed.

(** The deadline is reached while [B] is in flight: the query is canceled,
    and the reports that come in afterwards are ignored. *)
Example scenario_expiration_then_late_reports :
  ScheduleLoop.summary
    (inr (ScheduleLoop.late_events ScheduleLoop.scenario_dag None
            [ScheduleLoop.Completion 1 ScheduleLoop.Success;
             ScheduleLoop.Completion 2 ScheduleLoop.Fail;
             ScheduleLoop.Cancellation 1;
             ScheduleLoop.Completion 0 ScheduleLoop.Wait;
             ScheduleLoop.Expiration]
            (ScheduleLoop.loop ScheduleLoop.scenario_dag None
               (fun n out => if Nat.eqb n 1 then ScheduleLoop.Expiration
                             else ScheduleLoop.first_in_flight (fun _ => ScheduleLoop.Success) n out)
               6 0 (ScheduleLoop.seed ScheduleLoop.scenario_dag))))
  = Some ([ScheduleLoop.Finished true; ScheduleLoop.Canceled; ScheduleLoop.Canceled],
          [(0, ScheduleLoop.Finished true); (1, ScheduleLoop.Canceled);
           (2, ScheduleLoop.Canceled)],
          0, false, true).
Proof. vm_compute. reflexivity. Qed.

(** On a graph with a cycle the loop still ends, but only by waiting for the
    deadline with nothing in flight: the ranking is what rules this out. *)
Example cyclic_graph_waits_for_the_deadline :
  ScheduleLoop.summary
    (ScheduleLoop.schedule ScheduleLoop.cyclic_graph (Some 1)
       (ScheduleLoop.first_in_flight (fun _ => ScheduleLoop.Success)) 6)
  = Some ([ScheduleLoop.Finished true; ScheduleLoop.Canceled; ScheduleLoop.Canceled],
          [(0, ScheduleLoop.Finished true); (1, ScheduleLoop.Canceled);
           (2, ScheduleLoop.Canceled)],
          1, false, true).
Proof. vm_compute. reflexivity. Qed.

(** A reference to an unknown segment id aborts before any dispatch. *)
Example dangling_reference_is_fatal :
  ScheduleLoop.schedule [ScheduleLoop.mkPlanSegment 0 [5]] (Some 1)
    (ScheduleLoop.first_in_flight (fun _ => ScheduleLoop.Success)) 6
  = inl ScheduleLoop.MalformedDAG.
Proof. vm_compute. reflexivity. Qed.

(** * Further properties *)

Local Open Scope Z_scope.

(** ** Scheduler.h *)

Section HashProperties.

Import SchedulerH.

(** X1. On instances whose [segment_id] is below [2^51] and whose
    [parallel_index] is below [2^13], the hash is injective: different
    instances have different hashes. *)
Theorem Hash_injective_in_range (a b : SegmentTaskInstance) :
  0 <= segment_id a < 2 ^ 51 -> 0 <= parallel_index a < 2 ^ 13 ->
  0 <= segment_id b < 2 ^ 51 -> 0 <= parallel_index b < 2 ^ 13 ->
  Hash a = Hash b -> a = b.
Proof.
  intros Hsa Hpa Hsb Hpb Hhash.
  rewrite !Hash_no_overflow in Hhash by lia.
  destruct a as [sa pa], b as [sb pb]; simpl in *.
  assert (sa = sb) by lia. assert (pa = pb) by lia. now subst.
Qed.

Lemma Hash_injective_in_range_witness :
  mkSegmentTaskInstance 5 3 = mkSegmentTaskInstance (4 + 1) (6 - 3).
Proof.
  apply Hash_injective_in_range; simpl; try lia. reflexivity.
Defined.

(** X2. Outside that range the hash does collide: an instance with
    [parallel_index >= 8192] has the hash of the instance one segment up and
    8192 indexes down, which [operator==] tells apart. *)
Theorem Hash_collides_beyond_range (a : SegmentTaskInstance) :
  0 <= segment_id a < 2 ^ 50 -> 8192 <= parallel_index a < 2 ^ 63 ->
  operator_eq a (mkSegmentTaskInstance (segment_id a + 1) (parallel_index a - 8192)) = false
  /\ Hash a = Hash (mkSegmentTaskInstance (segment_id a + 1) (parallel_index a - 8192)).
Proof.
  intros Hs Hp. split.
  - unfold operator_eq. simpl. apply andb_false_iff. left. apply Z.eqb_neq. lia.
  - rewrite !Hash_no_overflow; simpl; lia.
Qed.

Lemma Hash_collides_beyond_range_witness :
  Hash (mkSegmentTaskInstance 0 8192) = Hash (mkSegmentTaskInstance 1 0).
Proof.
  apply (Hash_collides_beyond_range (mkSegmentTaskInstance 0 8192)); simpl; lia.
Defined.

End HashProperties.

Section SchedulerCallProperties.

Import SchedulerH SchedulerCalls.

Context `{Collaborators}.

Implicit Types (s : Scheduler) (t : SegmentTask) (p : PlanSegment).
Implicit Types (op : SchedulerOp) (ops : list SchedulerOp).

Lemma emplace_dom {V : Type} (k : Z) (v : V) (m : gmap Z V) :
  dom (snd (emplace k v m)) = {[k]} ∪ dom m.
Proof.
  unfold emplace. destruct (m !! k) as [old|] eqn:Hk; simpl.
  - apply (elem_of_dom_2 (D := gset Z)) in Hk. symmetry. apply subseteq_union_1_L.
    now apply singleton_subseteq_l.
  - apply dom_insert_L.
Qed.

Lemma emplace_lookup {V : Type} (k : Z) (v : V) (m : gmap Z V) :
  snd (emplace k v m) !! k = Some (fst (emplace k v m)).
Proof.
  unfold emplace. destruct (m !! k) as [old|] eqn:Hk; simpl; [exact Hk|].
  apply lookup_insert_eq.
Qed.

Lemma emplace_other {V : Type} (k k' : Z) (v : V) (m : gmap Z V) :
  k' <> k -> snd (emplace k v m) !! k' = m !! k'.
Proof.
  intros Hne. unfold emplace. destruct (m !! k); simpl; [reflexivity|].
  now apply lookup_insert_ne.
Qed.

(** X3. After [selectNodes] the cache holds, for the task's segment, exactly
    the placement that was returned; the entries of all other segments are
    untouched and no key is removed. *)
Theorem selectNodes_cache_effect p t s :
  node_selector_result (snd (selectNodes p t s)) !! task_segment_id t
  = Some (fst (selectNodes p t s))
  /\ (forall k, k <> task_segment_id t ->
        node_selector_result (snd (selectNodes p t s)) !! k = node_selector_result s !! k)
  /\ dom (node_selector_result (snd (selectNodes p t s)))
     = {[task_segment_id t]} ∪ dom (node_selector_result s).
Proof.
  rewrite selectNodes_unfold. simpl. split; [apply emplace_lookup|]. split.
  - intros k Hk. now apply emplace_other.
  - apply emplace_dom.
Qed.

(** X4. Whatever operations of the header run, they change nothing of the
    scheduler but the selector, the placement cache and the send function:
    the query, the DAG, the cluster membership, the local address, the flags
    and the deadline stay as constructed. *)
Theorem run_ops_frame ops s :
  query_id (run_ops ops s) = query_id s
  /\ query_context (run_ops ops s) = query_context s
  /\ dag_graph_ptr (run_ops ops s) = dag_graph_ptr s
  /\ cluster_nodes (run_ops ops s) = cluster_nodes s
  /\ local_address (run_ops ops s) = local_address s
  /\ time_to_handle_finish_task (run_ops ops s) = time_to_handle_finish_task s
  /\ stopped (run_ops ops s) = stopped s
  /\ batch_schedule (run_ops ops s) = batch_schedule s
  /\ query_expiration_ms (run_ops ops s) = query_expiration_ms s.
Proof.
  revert s. induction ops as [|op ops IH]; intros s; [repeat split|].
  simpl. destruct (IH (run_op op s)) as (-> & -> & -> & -> & -> & -> & -> & -> & ->).
  destruct op as [func| |p|p sel t|p t]; simpl; try (repeat split; reflexivity).
  rewrite selectNodes_unfold. simpl. repeat split; reflexivity.
Qed.

Lemma selections_cons op ops :
  selections (op :: ops)
  = match op with
    | OpSelectNodes p t => (p, t) :: selections ops
    | _ => selections ops
    end.
Proof. destruct op; reflexivity. Qed.

(** X5. The segments with a cached placement after a run of operations are
    those cached before together with those a [selectNodes] of the run asked
    for: the cache never loses a segment and gains no other. *)
Theorem run_ops_cached_segments ops s :
  dom (node_selector_result (run_ops ops s))
  = dom (node_selector_result s)
      ∪ list_to_set ((fun call => task_segment_id call.2) <$> selections ops).
Proof.
  revert s. induction ops as [|op ops IH]; intros s.
  - simpl. now rewrite union_empty_r_L.
  - change (run_ops (op :: ops) s) with (run_ops ops (run_op op s)).
    rewrite IH, selections_cons.
    destruct op as [func| |p|p sel t|p t]; simpl; try reflexivity.
    rewrite selectNodes_unfold. simpl. rewrite emplace_dom.
    rewrite (union_comm_L {[task_segment_id t]}), <- union_assoc_L. reflexivity.
Qed.

(** X6. [select] is called exactly once for every [selectNodes] of a run, in
    call order and whether or not the segment was cached: the selector ends
    as after that sequence of [select] calls. *)
Theorem run_ops_selector ops s :
  node_selector (run_ops ops s) = select_all (selections ops) (node_selector s).
Proof.
  revert s. induction ops as [|op ops IH]; intros s; [reflexivity|].
  change (run_ops (op :: ops) s) with (run_ops ops (run_op op s)).
  rewrite IH, selections_cons.
  destruct op as [func| |p|p sel t|p t]; simpl; try reflexivity.
  now rewrite selectNodes_unfold.
Qed.

(** *** The deadline *)

Lemma ctor_query_expiration_ms (query_id_ : string) (query_context_ : ContextPtr)
    (cluster_nodes_ : ClusterNodes AddressInfo ClusterNodesRest)
    (dag_graph_ptr_ : DAGGraph) (batch_schedule_ : bool) :
  query_expiration_ms
    (Scheduler_ctor query_id_ query_context_ cluster_nodes_ dag_graph_ptr_ batch_schedule_)
  = to_size_t
      (to_long (to_long (tv_sec (getQueryExpirationTimeStamp query_context_) * 1000)
                + Z.quot (tv_nsec (getQueryExpirationTimeStamp query_context_)) 1000000)).
Proof. reflexivity. Qed.

Lemma deadline_of_normalized (ts : timespec) :
  normalized ts -> tv_sec ts * 1000 + 999 < 2 ^ 63 ->
  to_size_t (to_long (to_long (tv_sec ts * 1000) + Z.quot (tv_nsec ts) 1000000))
  = tv_sec ts * 1000 + tv_nsec ts / 1000000.
Proof.
  intros [Hsec Hnsec] Hfit.
  rewrite Z.quot_div_nonneg by lia.
  assert (0 <= tv_nsec ts / 1000000 <= 999).
  { split; [apply Z.div_pos; lia|]. apply Z.lt_succ_r. apply Z.div_lt_upper_bound; lia. }
  rewrite (to_long_small (tv_sec ts * 1000)) by lia.
  rewrite to_long_small by lia.
  apply to_size_t_small. lia.
Qed.

(** X7. For a normalized timestamp the deadline is the timestamp rounded down
    to whole milliseconds: it is at most the timestamp and less than one
    millisecond below it. *)
Theorem query_expiration_ms_rounds_down (query_id_ : string) (query_context_ : ContextPtr)
    (cluster_nodes_ : ClusterNodes AddressInfo ClusterNodesRest)
    (dag_graph_ptr_ : DAGGraph) (batch_schedule_ : bool) :
  let ts := getQueryExpirationTimeStamp query_context_ in
  let ms := query_expiration_ms
              (Scheduler_ctor query_id_ query_context_ cluster_nodes_ dag_graph_ptr_
                 batch_schedule_) in
  normalized ts -> tv_sec ts * 1000 + 999 < 2 ^ 63 ->
  ms * 1000000 <= tv_sec ts * 1000000000 + tv_nsec ts < (ms + 1) * 1000000.
Proof.
  intros ts ms Hnorm Hfit. subst ms. rewrite ctor_query_expiration_ms. fold ts.
  rewrite (deadline_of_normalized ts Hnorm Hfit).
  pose proof (Z.div_mod (tv_nsec ts) 1000000 ltac:(lia)) as Hdiv.
  pose proof (Z.mod_pos_bound (tv_nsec ts) 1000000 ltac:(lia)) as Hmod.
  lia.
Qed.

(** X8. The deadline respects the order of timestamps: a query context whose
    expiration timestamp is not later gets a deadline that is not later. *)
Theorem query_expiration_ms_monotone (query_id_ : string) (context1 context2 : ContextPtr)
    (cluster_nodes_ : ClusterNodes AddressInfo ClusterNodesRest)
    (dag_graph_ptr_ : DAGGraph) (batch_schedule_ : bool) :
  let ts1 := getQueryExpirationTimeStamp context1 in
  let ts2 := getQueryExpirationTimeStamp context2 in
  normalized ts1 -> normalized ts2 -> tv_sec ts2 * 1000 + 999 < 2 ^ 63 ->
  timespec_le ts1 ts2 ->
  query_expiration_ms
    (Scheduler_ctor query_id_ context1 cluster_nodes_ dag_graph_ptr_ batch_schedule_)
  <= query_expiration_ms
       (Scheduler_ctor query_id_ context2 cluster_nodes_ dag_graph_ptr_ batch_schedule_).
Proof.
  intros ts1 ts2 Hn1 Hn2 Hfit Hle. rewrite !ctor_query_expiration_ms. fold ts1 ts2.
  assert (Hfit1 : tv_sec ts1 * 1000 + 999 < 2 ^ 63)
    by (destruct Hle as [?|[? _]]; lia).
  rewrite (deadline_of_normalized ts1 Hn1 Hfit1), (deadline_of_normalized ts2 Hn2 Hfit).
  destruct Hn1 as [Hs1 Hns1], Hn2 as [Hs2 Hns2].
  assert (0 <= tv_nsec ts1 / 1000000 <= 999).
  { split; [apply Z.div_pos; lia|]. apply Z.lt_succ_r. apply Z.div_lt_upper_bound; lia. }
  assert (0 <= tv_nsec ts2 / 1000000) by (apply Z.div_pos; lia).
  destruct Hle as [Hlt|[Heq Hle]]; [lia|].
  rewrite Heq. apply Zplus_le_compat_l. apply Z.div_le_mono; lia.
Qed.

(** X9. A timestamp before the epoch does not give an early deadline: the
    negative number of milliseconds is converted to [size_t] and the deadline
    is at least [2^63]. *)
Theorem query_expiration_ms_negative_wraps (query_id_ : string) (query_context_ : ContextPtr)
    (cluster_nodes_ : ClusterNodes AddressInfo ClusterNodesRest)
    (dag_graph_ptr_ : DAGGraph) (batch_schedule_ : bool) :
  let ts := getQueryExpirationTimeStamp query_context_ in
  let ms := query_expiration_ms
              (Scheduler_ctor query_id_ query_context_ cluster_nodes_ dag_graph_ptr_
                 batch_schedule_) in
  tv_sec ts < 0 -> - 2 ^ 63 <= tv_sec ts * 1000 -> 0 <= tv_nsec ts < 1000000000 ->
  ms = 2 ^ 64 + (tv_sec ts * 1000 + tv_nsec ts / 1000000) /\ 2 ^ 63 <= ms.
Proof.
  intros ts ms Hneg Hfit Hnsec. subst ms. rewrite ctor_query_expiration_ms. fold ts.
  rewrite Z.quot_div_nonneg by lia.
  assert (0 <= tv_nsec ts / 1000000 <= 999).
  { split; [apply Z.div_pos; lia|]. apply Z.lt_succ_r. apply Z.div_lt_upper_bound; lia. }
  rewrite (to_long_small (tv_sec ts * 1000)) by lia.
  rewrite to_long_small by lia.
  unfold to_size_t.
  rewrite <- (Z.mod_add _ 1 (2 ^ 64)) by lia.
  rewrite Z.mod_small by lia. lia.
Qed.

End SchedulerCallProperties.

Section SchedulerCallExamples.

Import SchedulerH SchedulerCalls.

Local Abbreviation selectNodes := (@selectNodes counting_collaborators).
Local Abbreviation Scheduler_ctor := (@Scheduler_ctor counting_collaborators).

Lemma selectNodes_cache_effect_witness :
  node_selector_result (snd (selectNodes 5 sample_task sample_scheduler)) !! 3
  = node_selector_result sample_scheduler !! 3.
Proof.
  destruct (selectNodes_cache_effect (H := counting_collaborators) 5 sample_task
              sample_scheduler) as (_ & Hother & _).
  apply Hother. vm_compute. discriminate.
Defined.

Lemma query_expiration_ms_rounds_down_witness :
  1700000000123 * 1000000 <= 1700000000 * 1000000000 + 123456789
  < (1700000000123 + 1) * 1000000.
Proof.
  apply (query_expiration_ms_rounds_down (H := counting_collaborators)
           "query-1" (mkTimespec 1700000000 123456789) (mkClusterNodes [] tt) tt false).
  - split; [now vm_compute|split; now vm_compute].
  - now vm_compute.
Defined.

Lemma query_expiration_ms_monotone_witness :
  query_expiration_ms
    (Scheduler_ctor "query-1" (mkTimespec 1700000000 999999999) (mkClusterNodes [] tt) tt false)
  <= query_expiration_ms
       (Scheduler_ctor "query-1" (mkTimespec 1700000001 0) (mkClusterNodes [] tt) tt false).
Proof.
  apply (query_expiration_ms_monotone (H := counting_collaborators)
           "query-1" (mkTimespec 1700000000 999999999) (mkTimespec 1700000001 0)).
  - split; [now vm_compute|split; now vm_compute].
  - split; [now vm_compute|split; now vm_compute].
  - now vm_compute.
  - left. now vm_compute.
Defined.

Lemma query_expiration_ms_negative_wraps_witness :
  query_expiration_ms
    (Scheduler_ctor "query-1" (mkTimespec (-1) 500000000) (mkClusterNodes [] tt) tt false)
  = 2 ^ 64 - 500.
Proof.
  destruct (query_expiration_ms_negative_wraps (H := counting_collaborators)
              "query-1" (mkTimespec (-1) 500000000) (mkClusterNodes [] tt) tt false)
    as [Hms _]; [now vm_compute | now vm_compute | split; now vm_compute |].
  rewrite Hms. reflexivity.
Defined.

End SchedulerCallExamples.

(** ** CnchWorkerClient.cpp: the other members *)

Section RestProperties.

Import CnchWorkerClient CnchWorkerClientRest.

Context `{RestEnvironment}.

Local Abbreviation Message := (gmap string (Value Payload)).

Implicit Types (w : World Payload) (m : Member) (c : RpcCall Payload).

Ltac unfold_members :=
  unfold run_member, no_call_id, with_call_id,
    submitManipulationTask, submitMvRefreshTask, submitKafkaConsumeTask, sendCreateQueries,
    broadcastManifest, getDedupWorkerStatus,
    shutdownManipulationTasks, touchManipulationTasks, checkDataParts, preloadDataParts,
    dropPartDiskCache, dropManifestDiskCache, sendResources, executeDedupTask,
    removeWorkerResource, createDedupWorker, assignHighPriorityDedupPartition,
    assignRepairGran, dropDedupWorker, sendBackupCopyTask, getConsumerStatus,
    submitMySQLSyncThreadTask, checkMySQLSyncThreadStatus,
    checked_call, stub_call, stub_call_async, new_Controller, ProfileEventsTimer,
    throw_if, throw, record_call;
  unfold mbind, M_bind, mret, M_ret; cbn -[set_field].

Ltac split_cases :=
  repeat match goal with
         | |- context [match ?x with _ => _ end] =>
             lazymatch x with
             | context [match _ with _ => _ end] => fail
             | _ => destruct x eqn:?; cbn -[set_field]
             end
         end.

(** X10. Every member starts exactly one profile timer, also when it throws
    before it has sent anything: the request counter counts calls of the
    client, not RPCs. *)
Theorem every_member_starts_one_timer m w :
  profile_timers (snd (run_member m w)) = S (profile_timers w).
Proof.
  destruct m; unfold_members; split_cases; reflexivity.
Qed.

Lemma member_timer_step m w :
  profile_timers (snd (run_member m w)) = S (profile_timers w).
Proof.
  destruct m; unfold_members; split_cases; reflexivity.
Qed.

Lemma member_log_step m w :
  rpc_log (snd (run_member m w)) = rpc_log w
  \/ exists c, rpc_log (snd (run_member m w)) = rpc_log w ++ [c].
Proof.
  destruct m; unfold_members; split_cases;
    first [left; reflexivity | right; eexists; reflexivity].
Qed.

(** X11. However a caller strings calls of the client together, the log of
    RPCs only grows at its end, by at most one call per member called, while
    the timers count every call. *)
Theorem run_members_appends (ms : list Member) w :
  rpc_log w `prefix_of` rpc_log (run_members ms w)
  /\ (length (rpc_log (run_members ms w)) <= length (rpc_log w) + length ms)%nat
  /\ profile_timers (run_members ms w) = (profile_timers w + length ms)%nat.
Proof.
  revert w. induction ms as [|m ms IH]; intros w.
  - simpl. split; [reflexivity|]. split; lia.
  - change (run_members (m :: ms) w) with (run_members ms (snd (run_member m w))).
    destruct (IH (snd (run_member m w))) as (Hprefix & Hlen & Htimers).
    rewrite Htimers, member_timer_step.
    destruct (member_log_step m w) as [Hsame|[c Hone]].
    + rewrite Hsame in Hprefix, Hlen. split; [exact Hprefix|]. simpl. split; lia.
    + rewrite Hone in Hprefix, Hlen. rewrite length_app in Hlen. simpl in *.
      split; [|split; lia].
      etransitivity; [|exact Hprefix]. now apply prefix_app_r.
Qed.

Ltac use_equations :=
  repeat match goal with
         | Heq : ?x = _ |- context [?x] => rewrite Heq
         end.

(** X12. A synchronous member issues exactly one call, with no callback, and
    ends as the checks of the answer decide: it throws the exception of
    [assertController] if there is one, else that of [checkResponse], and
    returns only when both pass. *)
Theorem synchronous_member_outcome m w :
  kind m = Synchronous ->
  exists c,
    rpc_log (snd (run_member m w)) = rpc_log w ++ [c]
    /\ rpc_async c = false
    /\ match fst (run_member m w) with
       | inl e => checks (worker (rpc_log w) c) = Some e
       | inr _ => checks (worker (rpc_log w) c) = None
       end.
Proof.
  intros Hkind. destruct m; try discriminate Hkind; clear Hkind;
    unfold_members; split_cases;
    (eexists; split; [reflexivity|]; split; [reflexivity|]);
    unfold checks; cbn -[set_field]; use_equations; reflexivity.
Qed.

(** X13. An asynchronous member never throws and does not look at any answer:
    it hands exactly one call with a callback to the channel and returns the
    call id of the controller it gave to that call. *)
Theorem asynchronous_member_outcome m w :
  kind m = Asynchronous ->
  exists c,
    run_member m w
    = (inr (Some (call_id (rpc_cntl c))),
       {| rpc_log := rpc_log w ++ [c];
          profile_timers := S (profile_timers w);
          controllers := S (controllers w) |})
    /\ rpc_async c = true.
Proof.
  intros Hkind. destruct m; try discriminate Hkind; clear Hkind;
    unfold_members; split_cases;
    (eexists; split; [apply (f_equal2 pair); [|reflexivity]; reflexivity|reflexivity]).
Qed.

(** *** The completion of a dedup task *)

(** X14. With a callback that does not throw, [onDedupTaskDone] lets no
    exception out and calls the callback exactly once: with [true] when the
    controller and the response are fine, and otherwise with [false] after
    giving the handler the exception, that of the controller first. *)
Theorem onDedupTaskDone_reports_once (response : Message) (cntl : ControllerResult)
    (funcOnCallback : bool -> option Exception) (seen : Completion) :
  (forall b, funcOnCallback b = None) ->
  fst (onDedupTaskDone response cntl funcOnCallback seen) = None
  /\ snd (onDedupTaskDone response cntl funcOnCallback seen)
     = match RPCHelpers_assertController cntl, checkResponse response with
       | None, None =>
           {| handler_exceptions := handler_exceptions seen;
              callback_calls := callback_calls seen ++ [true] |}
       | Some e, _ | None, Some e =>
           {| handler_exceptions := handler_exceptions seen ++ [e];
              callback_calls := callback_calls seen ++ [false] |}
       end.
Proof.
  intros Hquiet. unfold onDedupTaskDone, onDedupTaskDone_catch.
  destruct (RPCHelpers_assertController cntl) as [e|]; simpl.
  - split; [apply Hquiet|reflexivity].
  - destruct (checkResponse response) as [e|]; simpl.
    + split; [apply Hquiet|reflexivity].
    + rewrite (Hquiet true). split; reflexivity.
Qed.

(** X15. When the controller and the response are fine but the callback
    throws on [true], the [catch] block runs all the same: the handler gets
    the callback's own exception and the callback is called a second time,
    with [false]; what that second call throws leaves the function. *)
Theorem onDedupTaskDone_callback_throws (response : Message) (cntl : ControllerResult)
    (funcOnCallback : bool -> option Exception) (seen : Completion) (e : Exception) :
  RPCHelpers_assertController cntl = None ->
  checkResponse response = None ->
  funcOnCallback true = Some e ->
  onDedupTaskDone response cntl funcOnCallback seen
  = (funcOnCallback false,
     {| handler_exceptions := handler_exceptions seen ++ [e];
        callback_calls := callback_calls seen ++ [true; false] |}).
Proof.
  intros Hcntl Hresponse Hthrows. unfold onDedupTaskDone, onDedupTaskDone_catch.
  rewrite Hcntl, Hresponse, Hthrows. simpl. now rewrite <- app_assoc.
Qed.

(** *** [checkDataParts] *)

Lemma check_result_at_zip (response : Message) (i : nat) :
  check_result_at response i
  = zip (zip (get_strs "part_path" response) (response_is_passed response))
        (get_strs "message" response) !! i.
Proof.
  unfold check_result_at. rewrite !lookup_zip_with.
  destruct (get_strs "part_path" response !! i); simpl; [|reflexivity].
  destruct (response_is_passed response !! i); simpl; [|reflexivity].
  destruct (get_strs "message" response !! i); reflexivity.
Qed.

Lemma check_results_aligned (response : Message) :
  length (response_is_passed response) = length (get_strs "part_path" response) ->
  length (get_strs "message" response) = length (get_strs "part_path" response) ->
  check_results response
  = Some (zip (zip (get_strs "part_path" response) (response_is_passed response))
              (get_strs "message" response)).
Proof.
  intros Hpassed Hmessage. unfold check_results. apply mapM_Some_2.
  apply Forall2_same_length_lookup_2.
  - rewrite length_seq, !length_zip_with. lia.
  - intros i j r Hseq Hzip. apply lookup_seq in Hseq as [-> _].
    now rewrite check_result_at_zip.
Qed.

Lemma check_results_short (response : Message) :
  (length (response_is_passed response) < length (get_strs "part_path" response))%nat
  \/ (length (get_strs "message" response) < length (get_strs "part_path" response))%nat ->
  check_results response = None.
Proof.
  intros Hshort. unfold check_results. apply mapM_None_2. apply Exists_exists.
  destruct Hshort as [Hshort|Hshort].
  - exists (length (response_is_passed response)). split.
    + apply elem_of_seq. lia.
    + unfold check_result_at.
      rewrite (lookup_ge_None_2 (response_is_passed response)) by lia.
      destruct (get_strs "part_path" response !! _); reflexivity.
  - exists (length (get_strs "message" response)). split.
    + apply elem_of_seq. lia.
    + unfold check_result_at.
      rewrite (lookup_ge_None_2 (get_strs "message" response)) by lia.
      destruct (get_strs "part_path" response !! _); simpl; [|reflexivity].
      destruct (response_is_passed response !! _); reflexivity.
Qed.

Lemma checkDataParts_returns (context : ContextPtr) (storage : StoragePtr)
    (local_table_name create_query : string) (parts : ServerDataParts) w :
  exists c,
    rpc_log (snd (checkDataParts context storage local_table_name create_query parts w))
    = rpc_log w ++ [c]
    /\ (checks (worker (rpc_log w) c) = None ->
        fst (checkDataParts context storage local_table_name create_query parts w)
        = inr (check_results (snd (worker (rpc_log w) c)))).
Proof.
  unfold_members. split_cases;
    (eexists; split; [reflexivity|]); unfold checks; cbn -[set_field]; use_equations;
    first [discriminate | reflexivity].
Qed.

(** X16. When the call succeeds, [checkDataParts] returns one result per part
    path of the response, each made of the path, the flag and the message at
    the same position, provided the three repeated fields have the same
    length; when [is_passed] or [message] is shorter than [part_path], the
    loop reads past the end of that field. *)
Theorem checkDataParts_results (context : ContextPtr) (storage : StoragePtr)
    (local_table_name create_query : string) (parts : ServerDataParts) w :
  exists c,
    rpc_log (snd (checkDataParts context storage local_table_name create_query parts w))
    = rpc_log w ++ [c]
    /\ let response := snd (worker (rpc_log w) c) in
       let paths := get_strs "part_path" response in
       let flags := response_is_passed response in
       let messages := get_strs "message" response in
       checks (worker (rpc_log w) c) = None ->
       (length flags = length paths -> length messages = length paths ->
        fst (checkDataParts context storage local_table_name create_query parts w)
        = inr (Some (zip (zip paths flags) messages)))
       /\ ((length flags < length paths)%nat \/ (length messages < length paths)%nat ->
           fst (checkDataParts context storage local_table_name create_query parts w)
           = inr None).
Proof.
  destruct (checkDataParts_returns context storage local_table_name create_query parts w)
    as (c & Hlog & Hresult).
  exists c. split; [exact Hlog|]. intros response paths flags messages Hok.
  rewrite (Hresult Hok). fold response. split.
  - intros Hflags Hmessages. now rewrite check_results_aligned.
  - intros Hshort. now rewrite check_results_short.
Qed.

(** *** Timeouts *)

Lemma last_timeout_snoc w c :
  last_timeout {| rpc_log := rpc_log w ++ [c];
                  profile_timers := S (profile_timers w);
                  controllers := S (controllers w) |}
  = timeout_ms (rpc_cntl c).
Proof. unfold last_timeout. simpl. now rewrite last_snoc. Qed.

(** X17. [dropPartDiskCache] always issues its call, and the timeout it sets
    on it is the larger of [brpc_data_parts_timeout_ms] and half of
    [max_execution_time]: never shorter than either, also when
    [max_execution_time] is unset. *)
Theorem dropPartDiskCache_timeout (context : ContextPtr) (txn_id : Z) (storage : StoragePtr)
    (create_local_table_query : string) (parts : ServerDataParts)
    (sync drop_vw_disk_cache : bool) w :
  let data_parts_ms :=
    totalMilliseconds (brpc_data_parts_timeout_ms (getMoreSettings context)) in
  let execution_ms := totalMilliseconds (max_execution_time (getSettingsRef context)) in
  exists t,
    last_timeout (snd (dropPartDiskCache context txn_id storage create_local_table_query
                         parts sync drop_vw_disk_cache w)) = Some t
    /\ data_parts_ms <= t /\ execution_ms / 2 <= t
    /\ (t = data_parts_ms \/ t = execution_ms / 2).
Proof.
  intros data_parts_ms execution_ms.
  exists (Z.max (execution_ms / 2) data_parts_ms). split.
  - unfold_members. fold data_parts_ms execution_ms.
    rewrite Z.shiftr_div_pow2 by lia. change (2 ^ 1) with 2.
    split_cases; apply last_timeout_snoc.
  - lia.
Qed.

(** X18. With [max_execution_time] unset (zero), the members that derive
    their timeout from it fall back differently: [checkDataParts] to 180000
    ms, [sendResources] to [brpc_data_parts_timeout_ms], [sendBackupCopyTask]
    to [0x7fffffff] ms, while [dropManifestDiskCache] sets the timeout 0. *)
Theorem timeouts_without_max_execution_time (context : ContextPtr) (storage : StoragePtr)
    (local_table_name create_query backup_id worker_id : string) (parts : ServerDataParts)
    (resources_to_send : AssignedResources) (with_mutations sync : bool)
    (copy_tasks : list Payload) w :
  totalSeconds (max_execution_time (getSettingsRef context)) = 0 ->
  totalMilliseconds (max_execution_time (getSettingsRef context)) = 0 ->
  Timespan_positive (max_execution_time (getSettingsRef context)) = false ->
  last_timeout (snd (checkDataParts context storage local_table_name create_query parts w))
  = Some 180000
  /\ last_timeout (snd (sendResources context resources_to_send worker_id with_mutations w))
     = Some (totalMilliseconds (brpc_data_parts_timeout_ms (getMoreSettings context)))
  /\ last_timeout (snd (sendBackupCopyTask context backup_id copy_tasks w))
     = Some 2147483647
  /\ last_timeout (snd (dropManifestDiskCache context storage EmptyString sync w))
     = Some 0.
Proof.
  intros Hseconds Hms Hpositive. repeat split.
  - unfold_members. rewrite Hseconds. cbn -[set_field]. split_cases; apply last_timeout_snoc.
  - unfold_members. rewrite Hseconds. cbn -[set_field]. apply last_timeout_snoc.
  - unfold_members. rewrite Hpositive. cbn -[set_field]. apply last_timeout_snoc.
  - unfold_members. rewrite Hms. split_cases; apply last_timeout_snoc.
Qed.

(** X23. With [max_execution_time] set, [checkDataParts] always issues its
    call and sets on it the 32-bit product of the seconds and 1000: this is
    [max_execution_time] in milliseconds up to 2147483 seconds; above that,
    within the range of [int], it is another value, while [sendResources]
    still sets [max_execution_time] in milliseconds. *)
Theorem checkDataParts_timeout_wraps (context : ContextPtr) (storage : StoragePtr)
    (local_table_name create_query worker_id : string) (parts : ServerDataParts)
    (resources_to_send : AssignedResources) (with_mutations : bool) w :
  let seconds := totalSeconds (max_execution_time (getSettingsRef context)) in
  seconds <> 0 ->
  last_timeout (snd (checkDataParts context storage local_table_name create_query parts w))
  = Some (to_int (seconds * 1000))
  /\ last_timeout (snd (sendResources context resources_to_send worker_id with_mutations w))
     = Some (seconds * 1000)
  /\ (- 2147483 <= seconds <= 2147483 -> to_int (seconds * 1000) = seconds * 1000)
  /\ (2147483 < seconds < 2 ^ 31 -> to_int (seconds * 1000) < seconds * 1000).
Proof.
  intros seconds Hseconds.
  assert (Hne : (seconds =? 0) = false) by now apply Z.eqb_neq.
  split; [|split; [|split]].
  - unfold_members. fold seconds. rewrite Hne. cbn -[set_field to_int Z.mul].
    split_cases; apply last_timeout_snoc.
  - unfold_members. fold seconds. rewrite Hne. cbn -[set_field Z.mul]. apply last_timeout_snoc.
  - intros Hrange. unfold to_int.
    rewrite Z.mod_small by lia. lia.
  - intros Hrange. unfold to_int.
    pose proof (Z.mod_pos_bound (seconds * 1000 + 2 ^ 31) (2 ^ 32) ltac:(lia)). lia.
Qed.

(** *** Requests *)

(** X19. [dropManifestDiskCache] sends no [version] for an empty version
    string; for any other string it sends the number [std::stoull] reads
    from it, and when [std::stoull] throws, that exception leaves the member
    before any RPC is issued. *)
Theorem dropManifestDiskCache_version (context : ContextPtr) (storage : StoragePtr)
    (version : string) (sync : bool) w :
  let run := dropManifestDiskCache context storage version sync w in
  (version = EmptyString ->
     exists c, rpc_log (snd run) = rpc_log w ++ [c]
               /\ rpc_request c !! "version"%string = None)
  /\ (forall v, version <> EmptyString -> stoull version = inr v ->
        exists c, rpc_log (snd run) = rpc_log w ++ [c]
                  /\ rpc_request c !! "version"%string = Some (VInt v))
  /\ (forall e, version <> EmptyString -> stoull version = inl e ->
        fst run = inl e /\ rpc_log (snd run) = rpc_log w).
Proof.
  intros run. subst run. split; [|split].
  - intros ->. unfold_members. split_cases;
      (eexists; split; [reflexivity|]); unfold set_field; cbn; now simplify_map_eq.
  - intros v Hne Hnumber. apply String.eqb_neq in Hne.
    unfold_members. rewrite Hne, Hnumber. cbn -[set_field]. split_cases;
      (eexists; split; [reflexivity|]); unfold set_field; cbn; now simplify_map_eq.
  - intros e Hne Hthrows. apply String.eqb_neq in Hne.
    unfold_members. rewrite Hne, Hthrows. cbn -[set_field]. split; reflexivity.
Qed.

(** X20. [submitMySQLSyncThreadTask] has no check of [rpc_port]: it always
    issues its call and passes the port on as it is, zero included. The
    binlog position and the create statements are in the request exactly
    when the command is [START_SYNC]. *)
Theorem submitMySQLSyncThreadTask_request (command : MySQLSyncThreadCommand) w :
  exists c,
    rpc_log (snd (submitMySQLSyncThreadTask command w)) = rpc_log w ++ [c]
    /\ rpc_request c !! "rpc_port"%string = Some (VInt (mysql_rpc_port command))
    /\ (mysql_type command = START_SYNC ->
          rpc_request c !! "create_sqls"%string = Some (VStrs (create_sqls command))
          /\ rpc_request c !! "binlog_file"%string = Some (VStr (binlog_file command))
          /\ rpc_request c !! "binlog_position"%string
             = Some (VInt (binlog_position command))
          /\ rpc_request c !! "executed_gtid_set"%string
             = Some (VStr (executed_gtid_set command))
          /\ rpc_request c !! "meta_version"%string = Some (VInt (meta_version command)))
    /\ (mysql_type command <> START_SYNC ->
          rpc_request c !! "create_sqls"%string = None
          /\ rpc_request c !! "binlog_file"%string = None
          /\ rpc_request c !! "binlog_position"%string = None
          /\ rpc_request c !! "executed_gtid_set"%string = None
          /\ rpc_request c !! "meta_version"%string = None).
Proof.
  unfold_members. destruct (mysql_type command =? START_SYNC) eqn:Htype.
  - apply Z.eqb_eq in Htype. split_cases;
      (eexists; split; [reflexivity|]); unfold set_field; cbn;
      (split; [now simplify_map_eq|]); (split; [|intros Hne; contradiction]);
      intros _; repeat split; now simplify_map_eq.
  - apply Z.eqb_neq in Htype. split_cases;
      (eexists; split; [reflexivity|]); unfold set_field; cbn;
      (split; [now simplify_map_eq|]); (split; [intros Heq; contradiction|]);
      intros _; repeat split; now simplify_map_eq.
Qed.

(** X21. The request of [executeDedupTask] keeps parts and paths in step: for
    the new, the staged and the visible parts alike, it carries one model and
    one path per part of the task. The call is always issued, with the
    timeout [max_dedup_execution_time]. *)
Theorem executeDedupTask_parts_and_paths (context : ContextPtr) (txn_id rpc_port : Z)
    (storage : StoragePtr) (dedup_task : DedupTask UUID DataPart Payload) w :
  exists c,
    rpc_log (snd (executeDedupTask context txn_id rpc_port storage dedup_task w))
    = rpc_log w ++ [c]
    /\ timeout_ms (rpc_cntl c)
       = Some (totalMilliseconds (max_dedup_execution_time (getMoreSettings context)))
    /\ parts_with_paths (rpc_request c) "new_parts" "new_parts_paths"
         (length (new_parts dedup_task))
    /\ parts_with_paths (rpc_request c) "staged_parts" "staged_parts_paths"
         (length (staged_parts dedup_task))
    /\ parts_with_paths (rpc_request c) "visible_parts" "visible_parts_paths"
         (length (visible_parts dedup_task)).
Proof.
  unfold_members. eexists. split; [reflexivity|]. split; [reflexivity|].
  unfold parts_with_paths, set_field. cbn.
  repeat split; (eexists _, _; split; [now simplify_map_eq|]; split; [now simplify_map_eq|];
                 now rewrite !length_fmap).
Qed.

(** X22. When [submitManipulationTask] has a port and sends its request, the
    request carries that port; it carries the mutation commands and their
    commit time exactly for the types [Mutate] and [Clustering], and a
    [create_table_query] only when the query is not empty. *)
Theorem submitManipulationTask_request (storage : MergeTreeMetaBase)
    (params : ManipulationTaskParams.t ServerDataParts MutationCommands StoragePtr)
    (txn_id : Z) w :
  ManipulationTaskParams.rpc_port params <> 0 ->
  exists c,
    rpc_log (snd (submitManipulationTask storage params txn_id w)) = rpc_log w ++ [c]
    /\ rpc_request c !! "rpc_port"%string
       = Some (VInt (ManipulationTaskParams.rpc_port params))
    /\ rpc_request c !! "mutate_commands"%string
       = match ManipulationTaskParams.type params with
         | Mutate | Clustering =>
             Some (VStr (writeText (ManipulationTaskParams.mutation_commands params)))
         | OtherManipulation _ => None
         end
    /\ rpc_request c !! "mutation_commit_time"%string
       = match ManipulationTaskParams.type params with
         | Mutate | Clustering =>
             Some (VInt (ManipulationTaskParams.mutation_commit_time params))
         | OtherManipulation _ => None
         end
    /\ rpc_request c !! "create_table_query"%string
       = if String.eqb (ManipulationTaskParams.create_table_query params) EmptyString
         then None
         else Some (VStr (ManipulationTaskParams.create_table_query params)).
Proof.
  intros Hport. apply Z.eqb_neq in Hport. unfold_members. rewrite Hport. cbn -[set_field].
  destruct (ManipulationTaskParams.type params),
    (String.eqb (ManipulationTaskParams.create_table_query params) EmptyString),
    (hasDynamicSubcolumns storage);
    split_cases; (eexists; split; [reflexivity|]); unfold set_field; cbn;
    repeat split; now simplify_map_eq.
Qed.

End RestProperties.

Section RestExamples.

Import CnchWorkerClient CnchWorkerClientRest.

(** A worker that cannot be reached, and one that answers a [checkDataParts]. *)
Local Abbreviation unreachable :=
  (answering_rest ∅ (Some transport_error) (Some worker_error) []).
Local Abbreviation checking := (answering_rest check_response None None [true; false]).

Lemma synchronous_member_outcome_witness :
  fst (@run_member _ unreachable (@DropDedupWorker _ unreachable "db.t") empty_world) = inl transport_error.
Proof.
  destruct (synchronous_member_outcome (H0 := unreachable) (@DropDedupWorker _ unreachable "db.t")
              empty_world) as (c & _ & _ & Houtcome); [reflexivity|].
  destruct (fst (@run_member _ unreachable (@DropDedupWorker _ unreachable "db.t") empty_world)) as [e|r].
  - cbv in Houtcome. now injection Houtcome as <-.
  - cbv in Houtcome. discriminate Houtcome.
Defined.

Lemma asynchronous_member_outcome_witness :
  exists c,
    @run_member _ unreachable (@RemoveWorkerResource _ unreachable 42) empty_world
    = (inr (Some (call_id (rpc_cntl c))),
       {| rpc_log := [c]; profile_timers := 1; controllers := 1 |})
    /\ rpc_async c = true.
Proof.
  apply (asynchronous_member_outcome (H0 := unreachable) (@RemoveWorkerResource _ unreachable 42) empty_world).
  reflexivity.
Defined.

Lemma onDedupTaskDone_reports_once_witness :
  @onDedupTaskDone _ unreachable ∅ tt (fun _ => None) (mkCompletion [] [])
  = (None, mkCompletion [transport_error] [false]).
Proof.
  destruct (onDedupTaskDone_reports_once (H0 := unreachable) ∅ tt (fun _ => None)
              (mkCompletion [] [])) as [Hquiet Hseen]; [reflexivity|].
  apply injective_projections; [exact Hquiet|exact Hseen].
Defined.

Lemma onDedupTaskDone_callback_throws_witness :
  @onDedupTaskDone _ checking ∅ tt (fun b => if b then Some worker_error else None)
    (mkCompletion [] [])
  = (None, mkCompletion [worker_error] [true; false]).
Proof.
  apply (onDedupTaskDone_callback_throws (H0 := checking) ∅ tt
           (fun b => if b then Some worker_error else None) (mkCompletion [] []) worker_error);
    reflexivity.
Defined.

Lemma checkDataParts_results_witness :
  fst (@checkDataParts _ checking (sample_settings 0) "db.t" "t_local" "CREATE TABLE t"
         ["all_1_1_0"; "all_2_2_0"]%string empty_world)
  = inr (Some [("all_1_1_0", true, ""); ("all_2_2_0", false, "checksum mismatch")]%string).
Proof.
  destruct (checkDataParts_results (H0 := checking) (sample_settings 0) "db.t" "t_local"
              "CREATE TABLE t" ["all_1_1_0"; "all_2_2_0"]%string empty_world)
    as (c & _ & Hresults).
  destruct (Hresults eq_refl) as [Haligned _].
  rewrite Haligned by reflexivity. vm_compute. reflexivity.
Defined.

Lemma timeouts_without_max_execution_time_witness :
  last_timeout
    (snd (@dropManifestDiskCache _ checking (sample_settings 0) "db.t" EmptyString true
            empty_world))
  = Some 0.
Proof.
  apply (timeouts_without_max_execution_time (H0 := checking) (sample_settings 0) "db.t"
           "t_local" "CREATE TABLE t" "backup-1" "w0" ["all_1_1_0"]%string
           ["resource"]%string true true [] empty_world); reflexivity.
Defined.

Lemma dropManifestDiskCache_version_witness :
  exists c,
    rpc_log (snd (@dropManifestDiskCache _ checking (sample_settings 0) "db.t" "7" true
                    empty_world)) = [c]
    /\ rpc_request c !! "version"%string = Some (VInt 7).
Proof.
  destruct (dropManifestDiskCache_version (H0 := checking) (sample_settings 0) "db.t" "7"
              true empty_world) as (_ & Hnumber & _).
  apply (Hnumber 7); [discriminate|reflexivity].
Defined.

Lemma submitMySQLSyncThreadTask_request_witness :
  exists c,
    rpc_log (snd (@submitMySQLSyncThreadTask _ checking
                    (mkMySQLSyncThreadCommand 1 "db" "sync-1" 0 "t" ["CREATE TABLE t"]%string
                       "binlog.000001" 4 "" 1)
                    empty_world)) = [c]
    /\ rpc_request c !! "rpc_port"%string = Some (VInt 0)
    /\ rpc_request c !! "binlog_file"%string = Some (VStr "binlog.000001").
Proof.
  destruct (submitMySQLSyncThreadTask_request (H0 := checking)
              (mkMySQLSyncThreadCommand 1 "db" "sync-1" 0 "t" ["CREATE TABLE t"]%string
                 "binlog.000001" 4 "" 1)
              empty_world) as (c & Hlog & Hport & Hstart & _).
  exists c. split; [exact Hlog|]. split; [exact Hport|].
  destruct (Hstart eq_refl) as (_ & Hfile & _). exact Hfile.
Defined.

Lemma submitManipulationTask_request_witness :
  exists c,
    rpc_log (snd (@submitManipulationTask (answering ∅ None None) tt (sample_params 9010) 42
                    empty_world)) = [c]
    /\ rpc_request c !! "rpc_port"%string = Some (VInt 9010)
    /\ rpc_request c !! "mutate_commands"%string = Some (VStr "UPDATE c = 1").
Proof.
  destruct (submitManipulationTask_request (H := answering ∅ None None)
              tt (sample_params 9010) 42 empty_world) as (c & Hlog & Hport & Hcommands & _);
    [discriminate|].
  exists c. split; [exact Hlog|]. split; [exact Hport|exact Hcommands].
Defined.

Lemma checkDataParts_timeout_wraps_witness :
  last_timeout
    (snd (@checkDataParts _ checking (sample_settings 2592000) "db.t" "t_local" "CREATE TABLE t"
            ["all_1_1_0"]%string empty_world))
  = Some (-1702967296).
Proof.
  destruct (checkDataParts_timeout_wraps (H0 := checking) (sample_settings 2592000) "db.t"
              "t_local" "CREATE TABLE t" "w0" ["all_1_1_0"]%string ["resource"]%string true
              empty_world) as (Hcheck & _); [now vm_compute|].
  rewrite Hcheck. reflexivity.
Defined.

End RestExamples.
